(** * AlphasineAssistant: agent steps, output schemas and favourite prompts

    A shallow embedding of
    - the boolean-like fields of [plannerOutputSchema] and
      [validatorOutputSchema] (agents/planner.ts, agents/validator.ts),
    - [createFavoritesStorage().addPrompt] (storage/lib/chat/types.ts),
    - [NavigatorAgent.execute], [addStateMessageToMemory],
      [removeLastStateMessageFromMemory] and [doMultiAction]
      (agents/navigator.ts), [PlannerAgent.execute] and
      [ValidatorAgent.execute].

    Strings are byte strings holding the UTF-8 encoding of the JavaScript
    string.  Asynchronous calls are sequential state transitions: the agents
    run one step at a time and every [await] is a point where the outside
    world (browser, chat model, the user's pause and stop requests) moves. *)

From Stdlib Require Import ZArith Lia Ascii String Sorted.
From stdpp Require Import base strings list gmap pretty.

Local Open Scope string_scope.
Local Open Scope list_scope.

(** ** JavaScript string helpers *)

Module JsString.

(** [String.prototype.toLowerCase] on one byte: the letters A-Z move to
    a-z.  Bytes of multi-byte characters are left alone; the code compares
    the lowered string with ASCII literals only, and no character outside
    ASCII lowers to one of the letters of those literals. *)
Definition lowerAscii (c : ascii) : ascii :=
  let n := nat_of_ascii c in
  if (65 <=? n)%nat && (n <=? 90)%nat then ascii_of_nat (n + 32) else c.

Fixpoint toLowerCase (s : string) : string :=
  match s with
  | EmptyString => EmptyString
  | String c r => String (lowerAscii c) (toLowerCase r)
  end.

(** The white space and line terminators that [trim] strips, in UTF-8. *)
Definition bytes (l : list nat) : string :=
  string_of_list_ascii (map ascii_of_nat l).

Definition whiteSpace : list string :=
  map bytes
    [ [9]; [10]; [11]; [12]; [13]; [32];
      [194; 160]; [225; 154; 128];
      [226; 128; 128]; [226; 128; 129]; [226; 128; 130]; [226; 128; 131];
      [226; 128; 132]; [226; 128; 133]; [226; 128; 134]; [226; 128; 135];
      [226; 128; 136]; [226; 128; 137]; [226; 128; 138];
      [226; 128; 168]; [226; 128; 169]; [226; 128; 175];
      [226; 129; 159]; [227; 128; 128]; [239; 187; 191] ].

Fixpoint dropPrefix (p s : string) : option string :=
  match p, s with
  | EmptyString, _ => Some s
  | String a p', String b s' =>
      if Ascii.eqb a b then dropPrefix p' s' else None
  | String _ _, EmptyString => None
  end.

Fixpoint dropOneOf (ps : list string) (s : string) : option string :=
  match ps with
  | [] => None
  | p :: ps' =>
      match dropPrefix p s with
      | Some r => Some r
      | None => dropOneOf ps' s
      end
  end.

Fixpoint trimStartFuel (ws : list string) (fuel : nat) (s : string) : string :=
  match fuel with
  | O => s
  | S k =>
      match dropOneOf ws s with
      | Some r => trimStartFuel ws k r
      | None => s
      end
  end.

Definition trimStart (s : string) : string :=
  trimStartFuel whiteSpace (String.length s) s.

Definition reverse (s : string) : string :=
  string_of_list_ascii (rev (list_ascii_of_string s)).

Definition trimEnd (s : string) : string :=
  reverse (trimStartFuel (map reverse whiteSpace) (String.length s) (reverse s)).

Definition trim (s : string) : string := trimEnd (trimStart s).

(** [s.split('\n').pop() || ''] : the text after the last line feed. *)
Fixpoint lastLineFrom (acc s : string) : string :=
  match s with
  | EmptyString => acc
  | String c r =>
      if Ascii.eqb c (ascii_of_nat 10) then lastLineFrom EmptyString r
      else lastLineFrom (acc +:+ String c EmptyString) r
  end.

Definition lastLine (s : string) : string := lastLineFrom EmptyString s.

(** Truthiness of a [string | null | undefined] value. *)
Definition truthy (o : option string) : bool :=
  match o with
  | Some s => negb (String.eqb s "")
  | None => false
  end.

End JsString.

(** ** Boolean-like output fields (planner.ts 20-41, validator.ts 20-31) *)

Module Schemas.
Import JsString.

(** A value handed to a zod schema. *)
Inductive JsValue :=
| JsUndefined
| JsNull
| JsBoolean (b : bool)
| JsNumber (n : Z)
| JsStr (s : string).

(** What parsing one field gives: a value, a zod issue (no member of the
    union accepts the input), or the [Error] thrown inside the transform. *)
Inductive FieldResult (A : Type) :=
| Ok (a : A)
| InvalidInput
| Thrown (message : string).
Arguments Ok {A} a.
Arguments InvalidInput {A}.
Arguments Thrown {A} message.

Definition zString (v : JsValue) : FieldResult string :=
  match v with
  | JsStr s => Ok s
  | _ => InvalidInput
  end.

Definition zBoolean (v : JsValue) : FieldResult bool :=
  match v with
  | JsBoolean b => Ok b
  | _ => InvalidInput
  end.

(** [z.string().transform(f)] : [f] runs once the input is a string. *)
Definition zStringTransform {A} (f : string -> FieldResult A) (v : JsValue)
  : FieldResult A :=
  match zString v with
  | Ok s => f s
  | InvalidInput => InvalidInput
  | Thrown m => Thrown m
  end.

(** [z.union([a, b])] : the first member that accepts the input wins; an
    exception raised while trying a member escapes the union. *)
Definition zUnion {A} (a b : JsValue -> FieldResult A) (v : JsValue)
  : FieldResult A :=
  match a v with
  | Ok x => Ok x
  | Thrown m => Thrown m
  | InvalidInput => b v
  end.

(** The arrow function written three times in the sources. *)
Definition booleanString (val : string) : FieldResult bool :=
  if String.eqb (toLowerCase val) "true" then Ok true
  else if String.eqb (toLowerCase val) "false" then Ok false
  else Thrown "Invalid boolean string".

Module Planner.
Definition done : JsValue -> FieldResult bool :=
  zUnion zBoolean (zStringTransform booleanString).
Definition web_task : JsValue -> FieldResult bool :=
  zUnion zBoolean (zStringTransform booleanString).
End Planner.

Module Validator.
Definition is_valid : JsValue -> FieldResult bool :=
  zUnion zBoolean (zStringTransform booleanString).
End Validator.

(** The three boolean-like fields, by name. *)
Inductive BoolField := Done | WebTask | IsValid.

Definition parseField (f : BoolField) : JsValue -> FieldResult bool :=
  match f with
  | Done => Planner.done
  | WebTask => Planner.web_task
  | IsValid => Validator.is_valid
  end.

Definition failed {A} (r : FieldResult A) : Prop :=
  match r with
  | Ok _ => False
  | _ => True
  end.

End Schemas.

(** ** Numbers

    The ids of the favourite prompts and [nextId] are JavaScript numbers
    that hold integers, kept here as [Z].  An integer is a number when 53
    bits hold its significant digits.  The sum of two numbers is the number
    nearest to the exact sum, and of two equally near ones the one with the
    even significand; [round] gives that number for an exact integer sum
    (of a magnitude below 2^1024, which adding 1 to a number never
    passes). *)

Module JsNumber.

Definition round (z : Z) : Z :=
  let a := Z.abs z in
  if (a <? 2 ^ 53)%Z then z
  else
    let ulp := (2 ^ (Z.log2 a - 52))%Z in
    let q := (a / ulp)%Z in
    let r := (a mod ulp)%Z in
    let q' :=
      if (2 * r <? ulp)%Z then q
      else if (ulp <? 2 * r)%Z then (q + 1)%Z
      else if Z.even q then q
      else (q + 1)%Z in
    (Z.sgn z * (q' * ulp))%Z.

(** [x + y] *)
Definition add (x y : Z) : Z := round (x + y).

End JsNumber.

(** ** Favourite prompts (storage/lib/chat/types.ts 129-151) *)

Module Favorites.

(** Ids are numbers holding integers. *)
Record FavoritePrompt := mkPrompt {
  id : Z;
  title : string;
  content : string;
}.

Record FavoritesStorage := mkStorage {
  nextId : Z;
  prompts : list FavoritePrompt;
}.

(** [prompts.find(prompt => prompt.content === content)] *)
Definition findByContent (c : string) (ps : list FavoritePrompt)
  : option FavoritePrompt :=
  List.find (fun prompt => String.eqb (content prompt) c) ps.

(** The updater passed to [favoritesStorage.set]. *)
Definition prepend (t c : string) (prev : FavoritesStorage) : FavoritesStorage :=
  let id := nextId prev in
  let newPrompt := mkPrompt id t c in
  mkStorage (JsNumber.add id 1) (newPrompt :: prompts prev).

(** [addPrompt]: the returned prompt ([None] stands for [undefined], the
    value of [prompts[0]] on an empty array) and the stored state. *)
Definition addPrompt (t c : string) (stored : FavoritesStorage)
  : option FavoritePrompt * FavoritesStorage :=
  match findByContent c (prompts stored) with
  | Some existingPrompt => (Some existingPrompt, stored)
  | None =>
      let stored' := prepend t c stored in
      (head (prompts stored'), stored')
  end.

(** a stored state with two prompts *)
Definition sample : FavoritesStorage :=
  mkStorage 3 [mkPrompt 2 "News" "summarize the news"; mkPrompt 1 "Jobs" "find jobs"].

End Favorites.


(** ** The other operations on favourite prompts
    (storage/lib/chat/types.ts 65-90, 153-268) *)

Module FavoritesStore.
Import Favorites.

Definition quote : string := String (ascii_of_nat 34) EmptyString.

(** The template data: titles and contents. *)
Definition defaultFavoritePrompts : list (string * string) :=
  [ ("📰 Summarize Tech News",
     "Go to a tech news website like TechCrunch or The Verge, find the top 3 headlines, and give me a one-sentence summary for each.");
    ("🛒 Compare Product Prices",
     "Find the price of a " +:+ quote +:+ "Sony WH-1000XM5" +:+ quote
     +:+ " headphone on both Amazon and Best Buy's websites and tell me which is cheaper.");
    ("💼 Search for Jobs",
     "Go to LinkedIn Jobs, search for " +:+ quote +:+ "Remote Frontend Developer" +:+ quote
     +:+ " positions posted in the last 24 hours. List the first 3 job titles and the companies hiring.");
    ("💻 Analyze GitHub Repo",
     "Go to the " +:+ quote +:+ "langchain-ai/langchainjs" +:+ quote
     +:+ " repository on GitHub. Find out how many open issues and open pull requests there are.") ].

Definition initialState : FavoritesStorage := mkStorage 1 [].

(** [prev.prompts.map(prompt => ...)] of [updatePrompt] and
    [updatePromptTitle]: the mapped array, and the value the closure leaves
    in [updatedPrompt] (it is assigned at every prompt whose id matches). *)
Fixpoint mapUpdated (change : FavoritePrompt -> FavoritePrompt) (i : Z)
    (ps : list FavoritePrompt) (updatedPrompt : option FavoritePrompt)
  : list FavoritePrompt * option FavoritePrompt :=
  match ps with
  | [] => ([], updatedPrompt)
  | prompt :: rest =>
      if (id prompt =? i)%Z then
        let updated := change prompt in
        let '(l, u) := mapUpdated change i rest (Some updated) in
        (updated :: l, u)
      else
        let '(l, u) := mapUpdated change i rest updatedPrompt in
        (prompt :: l, u)
  end.

Definition updateWith (change : FavoritePrompt -> FavoritePrompt) (i : Z)
    (prev : FavoritesStorage) : option FavoritePrompt * FavoritesStorage :=
  let '(updatedPrompts, updatedPrompt) := mapUpdated change i (prompts prev) None in
  match updatedPrompt with
  | None => (None, prev)
  | Some u => (Some u, mkStorage (nextId prev) updatedPrompts)
  end.

(** [{ ...prompt, title, content }] *)
Definition updatePrompt (i : Z) (t c : string) (prev : FavoritesStorage)
  : option FavoritePrompt * FavoritesStorage :=
  updateWith (fun prompt => mkPrompt (id prompt) t c) i prev.

(** [{ ...prompt, title }] *)
Definition updatePromptTitle (i : Z) (t : string) (prev : FavoritesStorage)
  : option FavoritePrompt * FavoritesStorage :=
  updateWith (fun prompt => mkPrompt (id prompt) t (content prompt)) i prev.

Definition removePrompt (i : Z) (prev : FavoritesStorage) : FavoritesStorage :=
  mkStorage (nextId prev) (filter (fun prompt => id prompt <> i) (prompts prev)).

Definition getPromptById (i : Z) (stored : FavoritesStorage) : option FavoritePrompt :=
  List.find (fun prompt => (id prompt =? i)%Z) (prompts stored).

(** [[...prompts].sort((a, b) => b.id - a.id)]: the sort is stable, so the
    result is the one an insertion from the right gives. *)
Fixpoint insertById (x : FavoritePrompt) (l : list FavoritePrompt) : list FavoritePrompt :=
  match l with
  | [] => [x]
  | y :: rest =>
      if (id y <=? id x)%Z then x :: y :: rest else y :: insertById x rest
  end.

Definition sortByIdDescending (l : list FavoritePrompt) : list FavoritePrompt :=
  foldr insertById [] l.

(** [getAllPrompts]: the returned array and the stored state. *)
Definition getAllPrompts (currentState : FavoritesStorage)
  : list FavoritePrompt * FavoritesStorage :=
  if (length (prompts currentState) =? 0)%nat && (nextId currentState =? 1)%Z then
    let newState :=
      foldl (fun prev prompt => prepend (fst prompt) (snd prompt) prev)
        currentState defaultFavoritePrompts in
    (sortByIdDescending (prompts newState), newState)
  else (sortByIdDescending (prompts currentState), currentState).

(** [promptsCopy.findIndex(prompt => prompt.id === i)]; [None] is -1. *)
Definition findIndex (i : Z) (ps : list FavoritePrompt) : option nat :=
  fst <$> list_find (fun prompt => id prompt = i) ps.

(** [l.splice(index, 0, item)] *)
Definition spliceIn (index : nat) (item : FavoritePrompt) (l : list FavoritePrompt)
  : list FavoritePrompt :=
  take index l ++ item :: drop index l.

Definition renumber (l : list FavoritePrompt) : list FavoritePrompt :=
  let numPrompts := length l in
  imap (fun index prompt =>
          mkPrompt (Z.of_nat numPrompts - Z.of_nat index) (title prompt) (content prompt))
    l.

Definition reorderPrompts (draggedId targetId : Z) (prev : FavoritesStorage)
  : FavoritesStorage :=
  let promptsCopy := prompts prev in
  match findIndex draggedId promptsCopy, findIndex targetId promptsCopy with
  | Some sourceIndex, Some targetIndex =>
      match promptsCopy !! sourceIndex with
      | Some movedItem =>
          let reordered := spliceIn targetIndex movedItem (delete sourceIndex promptsCopy) in
          mkStorage (Z.of_nat (length reordered) + 1) (renumber reordered)
      | None => prev
      end
  | _, _ => prev
  end.

(** Ids are distinct and below [nextId]. *)
Definition wellNumbered (stored : FavoritesStorage) : Prop :=
  NoDup (map id (prompts stored))
  /\ Forall (fun prompt => (id prompt < nextId stored)%Z) (prompts stored).

(** title and content, the part of a prompt that a reordering keeps *)
Definition text (prompt : FavoritePrompt) : string * string :=
  (title prompt, content prompt).

End FavoritesStore.

(** ** Exceptions and the step monad *)

(** What a [throw] can carry.  [Error name message] is a plain [Error] or a
    library subclass, told apart by [name]; [NonError text] is a thrown
    primitive whose [String(...)] is [text]. *)
Inductive Thrown :=
| URLNotAllowedError (message : string)
| ChatModelAuthError (message : string) (cause : Thrown)
| ChatModelForbiddenError (message : string) (cause : Thrown)
| RequestCancelledError (message : string)
| Error (name message : string)
| NonError (text : string).

#[global] Instance Thrown_eq_dec : EqDecision Thrown.
Proof. solve_decision. Defined.

(** [error.message]; a primitive has none, and an [Error] built from
    [undefined] has the empty message. *)
Definition messageOf (error : Thrown) : string :=
  match error with
  | URLNotAllowedError m | ChatModelAuthError m _ | ChatModelForbiddenError m _
  | RequestCancelledError m | Error _ m => m
  | NonError _ => ""
  end.

(** [error instanceof Error ? error.message : String(error)] *)
Definition errorMessageOf (error : Thrown) : string :=
  match error with
  | NonError text => text
  | _ => messageOf error
  end.

Inductive Completion (A : Type) :=
| Normal (a : A)
| Throw (e : Thrown).
Arguments Normal {A} a.
Arguments Throw {A} e.

(** A computation over a mutable state [S] that returns or throws; what it
    did to the state before throwing stays done. *)
Definition M (S A : Type) : Type := S -> Completion A * S.

Definition ret {S A} (a : A) : M S A := fun s => (Normal a, s).

Definition throw {S A} (e : Thrown) : M S A := fun s => (Throw e, s).

Definition bind {S A B} (m : M S A) (k : A -> M S B) : M S B :=
  fun s =>
    match m s with
    | (Normal a, s') => k a s'
    | (Throw e, s') => (Throw e, s')
    end.

Definition gets {S A} (f : S -> A) : M S A := fun s => (Normal (f s), s).

Definition modify {S} (f : S -> S) : M S unit := fun s => (Normal tt, f s).

(** [try { m } catch (error) { h error }] *)
Definition tryCatch {S A} (m : M S A) (h : Thrown -> M S A) : M S A :=
  fun s =>
    match m s with
    | (Normal a, s') => (Normal a, s')
    | (Throw e, s') => h e s'
    end.

(** [if (c) { m }] *)
Definition when {S} (c : bool) (m : M S unit) : M S unit :=
  if c then m else ret tt.

Declare Scope step_scope.
Delimit Scope step_scope with step.
Notation "'let*' x ':=' m 'in' k" := (bind m (fun x => k))
  (at level 10, x name, m at level 100, k at level 200) : step_scope.
Local Open Scope step_scope.

(** ** Data of the agents *)

(** Modelled from the spec: the [ActionResult] class of agent/types is
    imported by the agents but is not among the sources.  The spec gives its
    fields, [{extractedContent?, error?, isDone?, includeInMemory}], and calls
    what [new ActionResult()] builds an empty instance. *)
Module ActionResult.
Record t := mk {
  extractedContent : option string;
  error : option string;
  isDone : bool;
  includeInMemory : bool;
}.
(** [new ActionResult()] *)
Definition empty : t := mk None None false false.
End ActionResult.

Module AgentOutput.
Record t (T : Type) := mk {
  id : string;
  result : option T;
  error : option string;
}.
Arguments mk {T} id result error.
Arguments id {T} _.
Arguments result {T} _.
Arguments error {T} _.

Definition hasResult {T} (o : t T) : bool := bool_decide (is_Some (result o)).
Definition hasError {T} (o : t T) : bool := bool_decide (is_Some (error o)).
(** exactly one of the two fields is present *)
Definition exactlyOne {T} (o : t T) : bool := xorb (hasResult o) (hasError o).
Definition neither {T} (o : t T) : bool := negb (hasResult o) && negb (hasError o).
End AgentOutput.

Inductive Actors := SYSTEM | USER | PLANNER | NAVIGATOR | VALIDATOR.

Inductive ExecutionState := STEP_START | STEP_OK | STEP_FAIL | STEP_CANCEL | ACT_FAIL.

Record AgentEvent := mkEvent {
  actor : Actors;
  state : ExecutionState;
  details : string;
}.

Inductive ContentPart :=
| TextPart (text : string)
| ImageUrlPart (url : string).

Inductive MessageContent :=
| Text (s : string)
| Parts (ps : list ContentPart).

Inductive MessageType := SystemMessageType | HumanMessageType | AIMessageType.

Record BaseMessage := mkMessage {
  messageType : MessageType;
  content : MessageContent;
}.

Definition HumanMessage (c : MessageContent) : BaseMessage :=
  mkMessage HumanMessageType c.

Inductive ProviderTypeEnum := Gemini | OtherProvider (name : string).

Record AgentOptions := mkOptions {
  useVision : bool;
  useVisionForPlanner : bool;
}.

(** Modelled from the spec: the MessageManager is not among the sources.
    Spec 4.1: [addMessageWithTokens] appends and trims the oldest non-system
    messages once a token-budget estimate is exceeded, never evicting the
    system message at position 0; [addStateMessage] and
    [removeLastStateMessage] insert and remove the transient state snapshot;
    [addModelOutput] puts the agent's decision back into the history;
    [getMessages] is the ordered snapshot.  [stateAdds] and [stateRemovals]
    count the calls of the two state-message operations. *)
Module MessageManager.

Inductive Entry :=
| Kept (m : BaseMessage)
| StateSnapshot (m : BaseMessage).

Definition message (e : Entry) : BaseMessage :=
  match e with Kept m | StateSnapshot m => m end.

Definition isSnapshot (e : Entry) : bool :=
  match e with StateSnapshot _ => true | Kept _ => false end.

Record t := mk {
  history : list Entry;
  stateAdds : nat;
  stateRemovals : nat;
}.

Section Budget.
Variable estimateTokens : BaseMessage -> nat.
Variable maxInputTokens : nat.

Definition totalTokens (h : list Entry) : nat :=
  foldr (fun e acc => estimateTokens (message e) + acc) 0 h.

Fixpoint trimToBudget (fuel : nat) (h : list Entry) : list Entry :=
  match fuel with
  | O => h
  | S k =>
      if (totalTokens h <=? maxInputTokens)%nat then h
      else match h with
           | first :: _ :: rest => trimToBudget k (first :: rest)
           | _ => h
           end
  end.

Definition addMessageWithTokens (msg : BaseMessage) (mm : t) : t :=
  let h := history mm ++ [Kept msg] in
  mk (trimToBudget (length h) h) (stateAdds mm) (stateRemovals mm).
End Budget.

Definition addStateMessage (st : BaseMessage) (mm : t) : t :=
  mk (history mm ++ [StateSnapshot st]) (S (stateAdds mm)) (stateRemovals mm).

(** drops the first snapshot of a list *)
Fixpoint dropSnapshot (h : list Entry) : list Entry :=
  match h with
  | [] => []
  | StateSnapshot _ :: rest => rest
  | e :: rest => e :: dropSnapshot rest
  end.

Definition removeLastStateMessage (mm : t) : t :=
  mk (reverse (dropSnapshot (reverse (history mm)))) (stateAdds mm) (S (stateRemovals mm)).

Definition addModelOutput (serialized : BaseMessage) (mm : t) : t :=
  mk (history mm ++ [Kept serialized]) (stateAdds mm) (stateRemovals mm).

Definition getMessages (mm : t) : list BaseMessage := map message (history mm).

(** the transient snapshots still in the history *)
Definition snapshots (mm : t) : nat := length (filter (fun e => isSnapshot e = true) (history mm)).

End MessageManager.

Module NavigatorResult.
Record t := mk { done : bool }.
End NavigatorResult.

(** ** The shared task context and the collaborators of the agents *)

Section Agents.

(** The outside world (browser page, chat model, the user's requests), the
    untyped arguments of an action, the navigator's [current_state] block
    and the browser state returned by [getState]. *)
Context {World Args Brain BrowserState : Type}.

(** One call of [actionInstance.call]: the index and name of the action and
    the result it returned, if it returned one. *)
Record CallRecord := mkCall {
  callIndex : nat;
  callName : string;
  returned : option ActionResult.t;
}.

(** The task context.  [events] is what [emitEvent] has reported so far and
    [callLog] lists the action calls made so far, oldest first.  The
    [paused] and [stopped] flags are written by the executor on the user's
    request while an agent is suspended, so they are read off the world. *)
Record TaskContext := mkContext {
  actionResults : list ActionResult.t;
  stateMessageAdded : bool;
  messageManager : MessageManager.t;
  events : list AgentEvent;
  callLog : list CallRecord;
  world : World;
  llmProviderType : ProviderTypeEnum;
  options : AgentOptions;
  screenshot : option string;
}.

Definition set_actionResults (v : list ActionResult.t) (c : TaskContext) :=
  mkContext v (stateMessageAdded c) (messageManager c) (events c) (callLog c)
    (world c) (llmProviderType c) (options c) (screenshot c).
Definition set_stateMessageAdded (v : bool) (c : TaskContext) :=
  mkContext (actionResults c) v (messageManager c) (events c) (callLog c)
    (world c) (llmProviderType c) (options c) (screenshot c).
Definition set_messageManager (v : MessageManager.t) (c : TaskContext) :=
  mkContext (actionResults c) (stateMessageAdded c) v (events c) (callLog c)
    (world c) (llmProviderType c) (options c) (screenshot c).
Definition set_events (v : list AgentEvent) (c : TaskContext) :=
  mkContext (actionResults c) (stateMessageAdded c) (messageManager c) v (callLog c)
    (world c) (llmProviderType c) (options c) (screenshot c).
Definition set_callLog (v : list CallRecord) (c : TaskContext) :=
  mkContext (actionResults c) (stateMessageAdded c) (messageManager c) (events c) v
    (world c) (llmProviderType c) (options c) (screenshot c).
Definition set_world (v : World) (c : TaskContext) :=
  mkContext (actionResults c) (stateMessageAdded c) (messageManager c) (events c)
    (callLog c) v (llmProviderType c) (options c) (screenshot c).

(** The [Action] class of actions/builder, as far as the navigator uses it. *)
Record Action := mkAction {
  name : string;
  getIndexArg : option Args -> option Z;
  call : option Args -> World -> Completion (option ActionResult.t) * World;
}.

(** One element of the model's action list: its own keys, in enumeration
    order, with their values. *)
Definition RawAction : Type := list (string * Args).

(** The shapes of [response.action]: an array (with null entries), a string,
    or anything else ([None] is null or undefined). *)
Inductive ActionField :=
| ActionArray (items : list (option RawAction))
| ActionString (s : string)
| ActionOther (v : option RawAction).

Record ModelOutput := mkModelOutput {
  current_state : Brain;
  action : ActionField;
}.

(** What [JSON.parse] returns: an array, [null], or another value that is
    not an array. *)
Inductive Parsed :=
| ParsedArray (items : list (option RawAction))
| ParsedNull
| ParsedOther.

Record PlannerOutput := mkPlannerOutput {
  observation : string;
  challenges : string;
  done : bool;
  next_steps : string;
  reasoning : string;
  web_task : bool;
}.

Record ValidatorOutput := mkValidatorOutput {
  is_valid : bool;
  reason : string;
  answer : string;
}.

(** Everything the agents call that is not theirs: flags, settings store,
    prompts, chat model, browser context, JSON helpers and the error
    classifiers of agents/errors.  A call that suspends takes the world and
    gives the world back, with what it returned or threw; [None] from a JSON
    helper is a thrown exception. *)
Record Collaborators := mkCollaborators {
  paused : World -> bool;
  stopped : World -> bool;
  estimateTokens : BaseMessage -> nat;
  maxInputTokens : nat;
  getSettings : World -> Completion bool * World;
  getUserMessage : TaskContext -> Completion BaseMessage * World;
  invoke : bool -> list BaseMessage -> World -> Completion ModelOutput * World;
  serializeModelOutput : ModelOutput -> BaseMessage;
  getState : bool -> World -> Completion BrowserState * World;
  calcBranchPathHashSet : BrowserState -> gset string;
  removeHighlight : World -> Completion unit * World;
  settle : World -> World;
  JSON_parse : string -> option Parsed;
  repairJsonString : string -> option string;
  isAuthenticationError : Thrown -> bool;
  isForbiddenError : Thrown -> bool;
  isAbortedError : Thrown -> bool;
  LLM_FORBIDDEN_ERROR_MESSAGE : string;
  plannerSystemMessage : BaseMessage;
  plannerInvoke : list BaseMessage -> World -> Completion (option PlannerOutput) * World;
  validatorSystemMessage : BaseMessage;
  getUserMessageContent : TaskContext -> Completion MessageContent * World;
  validatorInvoke : list BaseMessage -> World -> Completion (option ValidatorOutput) * World;
}.

Variable X : Collaborators.

(** *** Context operations *)

(** an awaited call on the world *)
Definition await {A} (f : World -> Completion A * World) : M TaskContext A :=
  fun ctx => let '(r, w) := f (world ctx) in (r, set_world w ctx).

(** an awaited call that is handed the context *)
Definition awaitWith {A} (f : TaskContext -> Completion A * World)
  : M TaskContext A :=
  fun ctx => let '(r, w) := f ctx in (r, set_world w ctx).

Definition emitEvent (a : Actors) (s : ExecutionState) (d : string)
  : M TaskContext unit :=
  modify (fun ctx => set_events (events ctx ++ [mkEvent a s d]) ctx).

(** [this.context.paused || this.context.stopped] *)
Definition pausedOrStopped (ctx : TaskContext) : bool :=
  paused X (world ctx) || stopped X (world ctx).

Definition onMessageManager (f : MessageManager.t -> MessageManager.t)
  : M TaskContext unit :=
  modify (fun ctx => set_messageManager (f (messageManager ctx)) ctx).

Definition addMessageWithTokens (msg : BaseMessage) : M TaskContext unit :=
  onMessageManager
    (MessageManager.addMessageWithTokens (estimateTokens X) (maxInputTokens X) msg).

(** [initializeAdvancedModeCheck]: the value of [isAdvancedGeminiMode] *)
Definition initializeAdvancedModeCheck : M TaskContext bool :=
  let* isAdvancedModeEnabled := await (getSettings X) in
  let* providerType := gets llmProviderType in
  ret (isAdvancedModeEnabled
       && match providerType with Gemini => true | OtherProvider _ => false end).

(** The reclassification of errors shared by the three [catch] blocks
    (without the navigator's [URLNotAllowedError] case): [Some e] is the
    exception to throw instead. *)
Definition reclassify (agentName : string) (error : Thrown) : option Thrown :=
  if isAuthenticationError X error then
    Some (ChatModelAuthError
            (agentName +:+ " API Authentication failed. Please verify your API key")
            error)
  else if isForbiddenError X error then
    Some (ChatModelForbiddenError (LLM_FORBIDDEN_ERROR_MESSAGE X) error)
  else if isAbortedError X error then
    Some (RequestCancelledError (messageOf error))
  else None.

(** *** NavigatorActionRegistry (navigator.ts 29-61)

    [this.actions] is a plain object.  The map holds its own properties,
    which are the registered actions, and under the key [__proto__] the
    action that an assignment to that key has made the prototype of the
    object, if there was one: the key never names an own property, and
    reading it gives the prototype. *)

(** The names that a plain object inherits from [Object.prototype]. *)
Definition objectPrototypeNames : list string :=
  ["constructor"; "__defineGetter__"; "__defineSetter__"; "hasOwnProperty";
   "__lookupGetter__"; "__lookupSetter__"; "isPrototypeOf";
   "propertyIsEnumerable"; "toString"; "valueOf"; "__proto__"; "toLocaleString"].

(** Modelled from the spec: the [Action] class of actions/builder is not
    among the sources.  The spec gives an action a name, a description, a
    parameter schema, a target-index extractor and an executor; these are
    the methods that navigator.ts calls on one, which an object with an
    action as its prototype inherits.  What else the class keeps on an
    instance is not known here; it matters only to a registry that holds an
    action named [__proto__], and no statement below answers [Undefined]
    for such a registry. *)
Definition actionMethodNames : list string :=
  ["name"; "description"; "parametersDefinition"; "getIndexArg"; "call"].

(** What [this.actions[name]] gives: a registered action, a member that
    the object inherits (which is no action: it has no [getIndexArg]), or
    [undefined]. *)
Inductive Member :=
| Registered (a : Action)
| Inherited
| Undefined.

Definition registerAction (a : Action) (actions : gmap string Action)
  : gmap string Action := <[name a := a]> actions.

(** [delete] removes an own property only. *)
Definition unregisterAction (n : string) (actions : gmap string Action)
  : gmap string Action :=
  if String.eqb n "__proto__" then actions else delete n actions.

Definition newRegistry (l : list Action) : gmap string Action :=
  foldl (fun actions a => registerAction a actions) ∅ l.

Definition getAction (n : string) (actions : gmap string Action) : Member :=
  match actions !! n with
  | Some a => Registered a
  | None =>
      if bool_decide (n ∈ objectPrototypeNames) then Inherited
      else if bool_decide (is_Some (actions !! "__proto__"))
              && bool_decide (n ∈ actionMethodNames)
      then Inherited
      else Undefined
  end.

(** *** The transient state message (navigator.ts 296-349) *)

(** The body of the [for] loop of [addStateMessageToMemory]. *)
Definition foldResult (index : nat) (r : ActionResult.t) : M TaskContext unit :=
  when (ActionResult.includeInMemory r)
    (let* _ := when (JsString.truthy (ActionResult.extractedContent r))
                 (addMessageWithTokens
                    (HumanMessage
                       (Text ("Action result: "
                              +:+ default "" (ActionResult.extractedContent r))))) in
     let* _ := when (JsString.truthy (ActionResult.error r))
                 (let errorText := JsString.trim (default "" (ActionResult.error r)) in
                  let lastLine := JsString.lastLine errorText in
                  addMessageWithTokens
                    (HumanMessage (Text ("Action error: " +:+ lastLine)))) in
     modify (fun ctx =>
               set_actionResults
                 (<[index := ActionResult.empty]> (actionResults ctx)) ctx)).

Fixpoint foldResults (index : nat) (rs : list ActionResult.t)
  : M TaskContext unit :=
  match rs with
  | [] => ret tt
  | r :: rest =>
      let* _ := foldResult index r in
      foldResults (S index) rest
  end.

Definition addStateMessageToMemory : M TaskContext unit :=
  let* added := gets stateMessageAdded in
  if added then ret tt
  else
    let* rs := gets actionResults in
    let* _ := when (0 <? length rs)%nat (foldResults 0 rs) in
    let* st := awaitWith (getUserMessage X) in
    let* _ := onMessageManager (MessageManager.addStateMessage st) in
    modify (set_stateMessageAdded true).

Definition removeLastStateMessageFromMemory : M TaskContext unit :=
  let* added := gets stateMessageAdded in
  if negb added then ret tt
  else
    let* _ := onMessageManager MessageManager.removeLastStateMessage in
    modify (set_stateMessageAdded false).

Definition addModelOutputToMemory (modelOutput : ModelOutput)
  : M TaskContext unit :=
  onMessageManager
    (MessageManager.addModelOutput (serializeModelOutput X modelOutput)).

(** *** doMultiAction (navigator.ts 351-461) *)

(** The value of the local [actions] once [response.action] is normalised:
    an array, or a parsed JSON value that is no array ([null], which has no
    properties to read, or a value without an [entries] method). *)
Inductive Actions :=
| ActionList (l : list (option RawAction))
| NullValue
| NotAnArray.

Definition ofParsed (p : Parsed) : Actions :=
  match p with
  | ParsedArray items => ActionList items
  | ParsedNull => NullValue
  | ParsedOther => NotAnArray
  end.

Definition normalizeActions (field : ActionField) : Completion Actions :=
  match field with
  | ActionArray items =>
      Normal (ActionList (filter (fun item => is_Some item) items))
  | ActionString s =>
      match JSON_parse X s with
      | Some p => Normal (ofParsed p)
      | None =>
          match repairJsonString X s with
          | Some fixedAction =>
              match JSON_parse X fixedAction with
              | Some p => Normal (ofParsed p)
              | None => Throw (Error "Error" "Invalid action output format")
              end
          | None => Throw (Error "Error" "Invalid action output format")
          end
      end
  | ActionOther v => Normal (ActionList [v])
  end.

(** The locals of [doMultiAction] that the loop mutates, with the context. *)
Record LoopState := mkLoop {
  results : list ActionResult.t;
  errCount : nat;
  context : TaskContext;
}.

Definition inContext {A} (m : M TaskContext A) : M LoopState A :=
  fun s =>
    let '(r, ctx) := m (context s) in
    (r, mkLoop (results s) (errCount s) ctx).

(** [results.push(r)] *)
Definition push (r : ActionResult.t) : M LoopState unit :=
  modify (fun s => mkLoop (results s ++ [r]) (errCount s) (context s)).

(** [await actionInstance.call(actionArgs)], entered in the call log *)
Definition callAction (i : nat) (actionName : string) (a : Action)
    (actionArgs : option Args) : M TaskContext (option ActionResult.t) :=
  fun ctx =>
    let '(r, w) := call a actionArgs (world ctx) in
    let ret := match r with Normal (Some x) => Some x | _ => None end in
    (r, set_callLog (callLog ctx ++ [mkCall i actionName ret]) (set_world w ctx)).

(** How one iteration leaves the loop body: on to the next action, or out
    of the loop ([break], or [return results]). *)
Inductive Flow := Continue | Halt.

Definition driftMessage (i n : nat) : string :=
  "Something new appeared after action " +:+ pretty i +:+ " / " +:+ pretty n.

Definition driftResult (i n : nat) : ActionResult.t :=
  ActionResult.mk (Some (driftMessage i n)) None false true.

Definition errorResult (errorMessage : string) : ActionResult.t :=
  ActionResult.mk None (Some errorMessage) false true.

Definition tooManyErrors : Thrown := Error "Error" "Too many errors in actions".

(** [Object.keys(action)[0]], put in a template literal or used as a
    property name: an element without keys gives [undefined]. *)
Definition actionNameOf (keys : RawAction) : string :=
  default "undefined" (fst <$> head keys).

(** [action[actionName]]; [None] is [undefined]. *)
Definition actionArgsOf (keys : RawAction) : option Args :=
  snd <$> head keys.

Section Loop.
Variable registry : gmap string Action.
Variable cachedPathHashes : gset string.
(** [actions.length] *)
Variable n : nat.

(** The [try] block of the loop body, for action [i]. *)
Definition tryAction (i : nat) (actionName : string)
    (actionArgs : option Args) : M LoopState Flow :=
  let* p := gets (fun s => pausedOrStopped (context s)) in
  if p then ret Halt
  else
    match getAction actionName registry with
    | Undefined =>
        throw (Error "Error" ("Action " +:+ actionName +:+ " not exists"))
    | Inherited =>
        throw (Error "TypeError" "actionInstance.getIndexArg is not a function")
    | Registered actionInstance =>
        let indexArg := getIndexArg actionInstance actionArgs in
        let* drift :=
          (if (0 <? i)%nat && bool_decide (is_Some indexArg) then
             let* vision := gets (fun s => useVision (options (context s))) in
             let* newState := inContext (await (getState X vision)) in
             let newPathHashes := calcBranchPathHashSet X newState in
             ret (negb (bool_decide (newPathHashes ⊆ cachedPathHashes)))
           else ret false) in
        if drift then
          let* _ := push (driftResult i n) in
          ret Halt
        else
          let* result := inContext (callAction i actionName actionInstance actionArgs) in
          match result with
          | None =>
              throw (Error "Error" ("Action " +:+ actionName +:+ " returned undefined"))
          | Some r =>
              let* _ := push r in
              let* p := gets (fun s => pausedOrStopped (context s)) in
              if p then ret Halt
              else
                let* _ := inContext (modify (fun ctx => set_world (settle X (world ctx)) ctx)) in
                ret Continue
          end
    end.

(** The [catch] block of the loop body. *)
Definition catchAction (error : Thrown) : M LoopState Flow :=
  match error with
  | URLNotAllowedError _ => throw error
  | _ =>
      let errorMessage := errorMessageOf error in
      let* _ := inContext (emitEvent NAVIGATOR ACT_FAIL errorMessage) in
      let* _ := modify (fun s => mkLoop (results s) (S (errCount s)) (context s)) in
      let* c := gets errCount in
      if (3 <? c)%nat then throw tooManyErrors
      else
        let* _ := push (errorResult errorMessage) in
        ret Continue
  end.

(** One iteration.  [Object.keys(action)] is evaluated outside the [try]
    and throws on null; an element without keys has the name
    [undefined]. *)
Definition iteration (i : nat) (action : option RawAction) : M LoopState Flow :=
  match action with
  | None =>
      throw (Error "TypeError" "Cannot convert undefined or null to object")
  | Some keys =>
      let actionName := actionNameOf keys in
      let actionArgs := actionArgsOf keys in
      tryCatch (tryAction i actionName actionArgs) catchAction
  end.

(** [for (const [i, action] of actions.entries())], from index [i] on.
    The value is [Continue] when the loop ran off the end of the list. *)
Fixpoint actionLoop (i : nat) (actions : list (option RawAction))
  : M LoopState Flow :=
  match actions with
  | [] => ret Continue
  | action :: rest =>
      let* flow := iteration i action in
      match flow with
      | Halt => ret Halt
      | Continue => actionLoop (S i) rest
      end
  end.
End Loop.

Definition doMultiAction (registry : gmap string Action)
    (response : ModelOutput) : M TaskContext (list ActionResult.t) :=
  let* actions := (fun ctx => (normalizeActions (action response), ctx)) in
  let* vision := gets (fun ctx => useVision (options ctx)) in
  let* browserState := await (getState X vision) in
  let cachedPathHashes := calcBranchPathHashSet X browserState in
  let* _ := await (removeHighlight X) in
  match actions with
  | NullValue =>
      throw (Error "TypeError" "Cannot read properties of null (reading 'entries')")
  | NotAnArray =>
      throw (Error "TypeError"
               "actions.entries is not a function or its return value is not iterable")
  | ActionList l =>
      fun ctx =>
        let '(r, s) := actionLoop registry cachedPathHashes (length l) 0 l
                         (mkLoop [] 0 ctx) in
        (match r with
         | Normal _ => Normal (results s)
         | Throw e => Throw e
         end, context s)
  end.

(** *** NavigatorAgent.execute (navigator.ts 215-291)

    [initializeAdvancedModeCheck] runs before the [try].  The [try] block
    gives the returned output together with the value of the local
    [cancelled], which is set on its cancelled returns only.  The source
    repeats the test of the third pause check on two consecutive lines;
    the flags are read twice, with nothing in between. *)

Definition tryExecute (registry : gmap string Action) (isAdvancedGeminiMode : bool)
    (agentOutput : AgentOutput.t NavigatorResult.t)
  : M TaskContext (bool * AgentOutput.t NavigatorResult.t) :=
  let* _ := emitEvent NAVIGATOR STEP_START "Navigating..." in
  let* _ := addStateMessageToMemory in
  let* p := gets pausedOrStopped in
  if p then ret (true, agentOutput)
  else
    let* inputMessages :=
      gets (fun ctx => MessageManager.getMessages (messageManager ctx)) in
    let* modelOutput := await (invoke X isAdvancedGeminiMode inputMessages) in
    let* p := gets pausedOrStopped in
    if p then ret (true, agentOutput)
    else
      let* _ := removeLastStateMessageFromMemory in
      let* _ := addModelOutputToMemory modelOutput in
      let* actionResults := doMultiAction registry modelOutput in
      let* _ := modify (set_actionResults actionResults) in
      let* p := gets pausedOrStopped in
      let* p' := (if p then gets pausedOrStopped else ret false) in
      if p' then ret (true, agentOutput)
      else
        let* _ := emitEvent NAVIGATOR STEP_OK "Navigation done" in
        let done :=
          match last actionResults with
          | Some r => ActionResult.isDone r
          | None => false
          end in
        ret (false,
             AgentOutput.mk (AgentOutput.id agentOutput)
               (Some (NavigatorResult.mk done)) (AgentOutput.error agentOutput)).

Definition catchExecute (agentOutput : AgentOutput.t NavigatorResult.t)
    (error : Thrown) : M TaskContext (AgentOutput.t NavigatorResult.t) :=
  let* _ := removeLastStateMessageFromMemory in
  match reclassify "Navigator" error with
  | Some fatal => throw fatal
  | None =>
      match error with
      | URLNotAllowedError _ => throw error
      | _ =>
          let errorMessage := errorMessageOf error in
          let errorString := "Navigation failed: " +:+ errorMessage in
          let* _ := emitEvent NAVIGATOR STEP_FAIL errorString in
          ret (AgentOutput.mk (AgentOutput.id agentOutput)
                 (AgentOutput.result agentOutput) (Some errorMessage))
      end
  end.

Definition finallyExecute (cancelled : bool) : M TaskContext unit :=
  when cancelled
    (let* _ := removeLastStateMessageFromMemory in
     emitEvent NAVIGATOR STEP_CANCEL "Navigation cancelled").

(** [try { m } finally { f }] *)
Definition andFinally {S A} (r : Completion A) (f : M S unit) : M S A :=
  fun s =>
    match f s with
    | (Normal _, s') => (r, s')
    | (Throw e, s') => (Throw e, s')
    end.

Definition execute (registry : gmap string Action)
  : M TaskContext (AgentOutput.t NavigatorResult.t) :=
  let* isAdvancedGeminiMode := initializeAdvancedModeCheck in
  let agentOutput := AgentOutput.mk "navigator" None None in
  fun ctx =>
    match tryExecute registry isAdvancedGeminiMode agentOutput ctx with
    | (Normal (cancelled, output), ctx1) =>
        andFinally (Normal output) (finallyExecute cancelled) ctx1
    | (Throw error, ctx1) =>
        let '(r, ctx2) := catchExecute agentOutput error ctx1 in
        andFinally r (finallyExecute false) ctx2
    end.

(** *** PlannerAgent.execute (planner.ts 61-131) *)

Definition textOfParts (ps : list ContentPart) : string :=
  foldl (fun newMsg msg =>
           match msg with
           | TextPart text => newMsg +:+ text
           | ImageUrlPart _ => newMsg
           end) "" ps.

(** the last message with its images removed *)
Definition withoutImages (lastStateMessage : BaseMessage) : BaseMessage :=
  match content lastStateMessage with
  | Parts ps => HumanMessage (Text (textOfParts ps))
  | Text s => HumanMessage (Text s)
  end.

Definition plannerTry : M TaskContext (AgentOutput.t PlannerOutput) :=
  let* _ := emitEvent PLANNER STEP_START "Planning..." in
  let* messages :=
    gets (fun ctx => MessageManager.getMessages (messageManager ctx)) in
  let systemMessage := plannerSystemMessage X in
  let plannerMessages := systemMessage :: drop 1 messages in
  let* opts := gets options in
  let plannerMessages :=
    if negb (useVisionForPlanner opts) && useVision opts
       && (0 <? length plannerMessages)%nat
    then
      match last plannerMessages with
      | Some lastStateMessage =>
          <[length plannerMessages - 1 := withoutImages lastStateMessage]>
            plannerMessages
      | None => plannerMessages
      end
    else plannerMessages in
  let* modelOutput := await (plannerInvoke X plannerMessages) in
  match modelOutput with
  | None => throw (Error "Error" "Failed to validate planner output")
  | Some output =>
      let* _ := emitEvent PLANNER STEP_OK (next_steps output) in
      ret (AgentOutput.mk "planner" (Some output) None)
  end.

Definition plannerCatch (error : Thrown) : M TaskContext (AgentOutput.t PlannerOutput) :=
  match reclassify "Planner" error with
  | Some fatal => throw fatal
  | None =>
      let errorMessage := errorMessageOf error in
      let* _ := emitEvent PLANNER STEP_FAIL ("Planning failed: " +:+ errorMessage) in
      ret (AgentOutput.mk "planner" None (Some errorMessage))
  end.

Definition plannerExecute : M TaskContext (AgentOutput.t PlannerOutput) :=
  let* _ := initializeAdvancedModeCheck in
  tryCatch plannerTry plannerCatch.

(** *** ValidatorAgent.execute (validator.ts 64-142) *)

Definition lineFeed : string := String (ascii_of_nat 10) EmptyString.

(** a message content put inside a template literal *)
Definition contentToString (c : MessageContent) : string :=
  match c with
  | Text s => s
  | Parts ps => String.concat "," (map (fun _ => "[object Object]") ps)
  end.

Definition validatorTry (plan : option string)
  : M TaskContext (AgentOutput.t ValidatorOutput) :=
  let* _ := emitEvent VALIDATOR STEP_START "Validating..." in
  let* raw := awaitWith (getUserMessageContent X) in
  let userMessageContent :=
    if JsString.truthy plan then
      Text (contentToString raw +:+ lineFeed +:+ lineFeed
            +:+ "The current plan is: " +:+ lineFeed +:+ default "" plan)
    else raw in
  let systemMessage := validatorSystemMessage X in
  let* vision := gets (fun ctx => useVision (options ctx)) in
  let* shot := gets screenshot in
  let finalUserMessage :=
    if vision && JsString.truthy shot then
      match userMessageContent with
      | Text s =>
          HumanMessage
            (Parts [TextPart s;
                    ImageUrlPart ("data:image/jpeg;base64," +:+ default "" shot)])
      | Parts _ => HumanMessage userMessageContent
      end
    else HumanMessage userMessageContent in
  let inputMessages := [systemMessage; finalUserMessage] in
  let* modelOutput := await (validatorInvoke X inputMessages) in
  match modelOutput with
  | None => throw (Error "Error" "Failed to validate task result")
  | Some output =>
      let* _ :=
        (if negb (is_valid output) then
           let msg := "The answer is not yet correct. " +:+ reason output +:+ "." in
           let* _ := emitEvent VALIDATOR STEP_FAIL msg in
           modify (set_actionResults [ActionResult.mk (Some msg) None false true])
         else emitEvent VALIDATOR STEP_OK (answer output)) in
      ret (AgentOutput.mk "validator" (Some output) None)
  end.

Definition validatorCatch (error : Thrown)
  : M TaskContext (AgentOutput.t ValidatorOutput) :=
  match reclassify "Validator" error with
  | Some fatal => throw fatal
  | None =>
      let errorMessage := errorMessageOf error in
      let* _ := emitEvent VALIDATOR STEP_FAIL ("Validation failed: " +:+ errorMessage) in
      ret (AgentOutput.mk "validator" None (Some ("Validation failed: " +:+ errorMessage)))
  end.

Definition validatorExecute (plan : option string)
  : M TaskContext (AgentOutput.t ValidatorOutput) :=
  let* _ := initializeAdvancedModeCheck in
  tryCatch (validatorTry plan) validatorCatch.

End Agents.

Arguments TaskContext World : clear implicits.
Arguments Action World Args : clear implicits.
Arguments Collaborators World Args Brain BrowserState : clear implicits.
Arguments LoopState World : clear implicits.
Arguments ModelOutput Args Brain : clear implicits.

(** ** A scripted world

    A small concrete instance of the collaborators, on which the steps can be
    run: the page is a list of element fingerprints, the chat model answers
    with the action list held in the world, and every action carries a script
    saying what its call does. *)

Module Scripted.

Inductive Script :=
| Extract (text : string)       (* returns a result kept for memory *)
| Report (message : string)     (* returns a result that carries an error *)
| Fail (message : string)       (* throws an Error *)
| Navigate (url : string)       (* throws URLNotAllowedError *)
| Insert (element : string)     (* adds an element to the page, returns *)
| Finish (text : string)        (* returns a result with isDone *)
| Pause                         (* the user pauses during the call *)
| Nothing.                      (* returns undefined *)

Record World := mkWorld {
  isPaused : bool;
  isStopped : bool;
  page : list string;
  reply : option (list (option (list (string * Script))));
}.

Definition perform (script : option Script) (w : World)
  : Completion (option ActionResult.t) * World :=
  match script with
  | Some (Extract text) =>
      (Normal (Some (ActionResult.mk (Some text) None false true)), w)
  | Some (Report message) =>
      (Normal (Some (ActionResult.mk None (Some message) false true)), w)
  | Some (Fail message) => (Throw (Error "Error" message), w)
  | Some (Navigate url) =>
      (Throw (URLNotAllowedError ("URL not allowed: " +:+ url)), w)
  | Some (Insert element) =>
      (Normal (Some (ActionResult.mk None None false false)),
       mkWorld (isPaused w) (isStopped w) (page w ++ [element]) (reply w))
  | Some (Finish text) =>
      (Normal (Some (ActionResult.mk (Some text) None true true)), w)
  | Some Pause =>
      (Normal (Some (ActionResult.mk None None false false)),
       mkWorld true (isStopped w) (page w) (reply w))
  | Some Nothing | None => (Normal None, w)
  end.

(** [run] has no target element; [click] has one. *)
Definition run : Action World Script := mkAction "run" (fun _ => None) perform.
Definition click : Action World Script := mkAction "click" (fun _ => Some 0%Z) perform.

Definition registry : gmap string (Action World Script) := newRegistry [run; click].

Definition collaborators : Collaborators World Script unit (list string) :=
  {| paused := isPaused;
     stopped := isStopped;
     estimateTokens := fun _ => 1;
     maxInputTokens := 1000;
     getSettings := fun w => (Normal false, w);
     getUserMessage := fun ctx => (Normal (HumanMessage (Text "page state")), world ctx);
     invoke := fun _ _ w =>
       match reply w with
       | Some items => (Normal (mkModelOutput tt (ActionArray items)), w)
       | None => (Throw (Error "Error" "model unavailable"), w)
       end;
     serializeModelOutput := fun _ => mkMessage AIMessageType (Text "decision");
     getState := fun _ w => (Normal (page w), w);
     calcBranchPathHashSet := fun elements => list_to_set elements;
     removeHighlight := fun w => (Normal tt, w);
     settle := fun w => w;
     JSON_parse := fun _ => None;
     repairJsonString := fun _ => None;
     isAuthenticationError := fun _ => false;
     isForbiddenError := fun _ => false;
     isAbortedError := fun _ => false;
     LLM_FORBIDDEN_ERROR_MESSAGE := "Access denied";
     plannerSystemMessage := mkMessage SystemMessageType (Text "planner");
     plannerInvoke := fun _ w => (Normal None, w);
     validatorSystemMessage := mkMessage SystemMessageType (Text "validator");
     getUserMessageContent := fun ctx => (Normal (Text "task state"), world ctx);
     validatorInvoke := fun _ w => (Normal None, w) |}.

Definition emptyMemory : MessageManager.t :=
  MessageManager.mk [MessageManager.Kept (mkMessage SystemMessageType (Text "system"))] 0 0.

(** a fresh context over a world, with a given result buffer *)
Definition contextOf (buffer : list ActionResult.t) (w : World) : TaskContext World :=
  mkContext buffer false emptyMemory [] [] w (OtherProvider "openai")
    (mkOptions false false) None.

Definition act (name : string) (script : Script) : option (list (string * Script)) :=
  Some [(name, script)].

Definition quiet (actions : list (option (list (string * Script)))) : World :=
  mkWorld false false ["a"; "b"] (Some actions).

Definition halted (actions : list (option (list (string * Script)))) : World :=
  mkWorld true false ["a"; "b"] (Some actions).

(** a result kept for memory and one that is not *)
Definition found : ActionResult.t := ActionResult.mk (Some "headline") None false true.
Definition note : ActionResult.t := ActionResult.mk (Some "kept") None false false.

Definition failures : list (option (list (string * Script))) :=
  [act "run" (Fail "e1"); act "run" (Fail "e2"); act "run" (Fail "e3");
   act "run" (Fail "e4")].

(** the context in which [execute] calls [doMultiAction] when it starts in
    [contextOf [] (quiet actions)] *)
Definition atActions (actions : list (option (list (string * Script)))) : TaskContext World :=
  mkContext [] false
    (MessageManager.mk
       [MessageManager.Kept (mkMessage SystemMessageType (Text "system"));
        MessageManager.Kept (mkMessage AIMessageType (Text "decision"))] 1 1)
    [mkEvent NAVIGATOR STEP_START "Navigating..."] [] (quiet actions)
    (OtherProvider "openai") (mkOptions false false) None.

End Scripted.

(** ** Tool calls of the advanced Gemini mode (navigator.ts 114-165)

    What [invoke] makes of the [tool_calls] of the model's message.  The
    JSON helpers are those of the collaborators; [JSON.parse] on the text of
    a call's arguments gives the untyped arguments of an action, [None] when
    it throws, and [emptyObject] is the value of the object literal without
    keys. *)

Section GeminiToolCalls.
Context {World Args Brain BrowserState : Type}.
Variable X : Collaborators World Args Brain BrowserState.
Variable parseArguments : string -> option Args.
Variable emptyObject : Args.
(** [{ reasoning, text }] as a [current_state] *)
Variable brain : string -> string -> Brain.

(** [call.function], with [name] and [arguments] when present *)
Record FunctionCall := mkFunctionCall {
  functionName : option string;
  arguments : option string;
}.

(** an element of [tool_calls]; [function] may be missing *)
Record ToolCall := mkToolCall {
  function : option FunctionCall;
}.

(** The value of [functionArgs] after the nested [try] blocks of the array
    case. *)
Definition functionArgsOf (call : ToolCall) : Args :=
  let text := function call ≫= arguments in
  if JsString.truthy text then
    match parseArguments (default "" text) with
    | Some parsed => parsed
    | None =>
        match repairJsonString X (default "" text) with
        | Some repairedArgs =>
            match parseArguments repairedArgs with
            | Some parsed => parsed
            | None => emptyObject
            end
        | None => emptyObject
        end
    end
  else emptyObject.

(** The arrow function mapped over [toolCalls]; [None] is [null]. *)
Definition parsedAction (call : ToolCall) : option (@RawAction Args) :=
  let functionName := function call ≫= functionName in
  let functionArgs := functionArgsOf call in
  if JsString.truthy functionName
  then Some [(default "" functionName, functionArgs)]
  else None.

Definition parsedActions (toolCalls : list ToolCall) : list (option (@RawAction Args)) :=
  filter (fun action => is_Some action) (map parsedAction toolCalls).

(** The value of [functionArgs] in the case of a single call, which has no
    repair pass. *)
Definition singleFunctionArgs (call : ToolCall) : Args :=
  let text := function call ≫= arguments in
  if JsString.truthy text then
    match parseArguments (default "" text) with
    | Some parsed => parsed
    | None => emptyObject
    end
  else emptyObject.

(** The shapes of [toolCalls]: falsy, an array, another object, or another
    truthy value. *)
Inductive ToolCalls :=
| NoToolCalls
| ToolCallArray (calls : list ToolCall)
| ToolCallObject (call : ToolCall)
| ToolCallOther.

(** What [invoke] returns in advanced mode once the model has answered;
    [contentText] is the text made of the content of its message. *)
Definition geminiOutput (toolCalls : ToolCalls) (contentText : string)
  : @ModelOutput Args Brain :=
  let noCall :=
    mkModelOutput (brain "No function call made by Gemini." contentText)
      (ActionArray []) in
  match toolCalls with
  | ToolCallArray calls =>
      mkModelOutput (brain "Function call via Gemini Advanced Mode" "")
        (ActionArray (parsedActions calls))
  | ToolCallObject call =>
      let functionName := function call ≫= functionName in
      if JsString.truthy functionName then
        mkModelOutput (brain "Single function call via Gemini Advanced Mode" "")
          (ActionArray [Some [(default "" functionName, singleFunctionArgs call)]])
      else noCall
  | NoToolCalls | ToolCallOther => noCall
  end.

End GeminiToolCalls.

Arguments FunctionCall : clear implicits.
Arguments ToolCall : clear implicits.
Arguments ToolCalls : clear implicits.

(** ** The chat input of the side panel (ChatInput.tsx 37-117)

    The two pieces of component state, and the handlers as functions from
    the state to what is sent and the state that is set. *)

Module ChatInput.

Record State := mkState {
  text : string;
  pastedImage : option string;
}.

Record ChatInputPayload := mkPayload {
  payloadText : string;
  image : option string;
}.

Definition isSendButtonDisabled (disabled : bool) (st : State) : bool :=
  disabled
  || (String.eqb (JsString.trim (text st)) "" && negb (JsString.truthy (pastedImage st))).

(** [handleSubmit]: the payload given to [onSendMessage], if it is called,
    and the state afterwards. *)
Definition handleSubmit (st : State) : option ChatInputPayload * State :=
  if JsString.truthy (Some (JsString.trim (text st))) || JsString.truthy (pastedImage st)
  then (Some (mkPayload (text st)
                (if JsString.truthy (pastedImage st) then pastedImage st else None)),
        mkState "" None)
  else (None, st).

Definition handleKeyDown (key : string) (shiftKey isComposing : bool) (st : State)
  : option ChatInputPayload * State :=
  if String.eqb key "Enter" && negb shiftKey && negb isComposing
  then handleSubmit st
  else (None, st).

End ChatInput.

(** ** The messages handed to the planner's model (planner.ts 66-97) *)

Section PlannerInput.
Context {World Args Brain BrowserState : Type}.
Variable X : Collaborators World Args Brain BrowserState.

(** The array [plannerMessages] as it is when [this.invoke] is called, from
    the options and from what [messageManager.getMessages()] returned. *)
Definition plannerMessages (opts : AgentOptions) (messages : list BaseMessage)
  : list BaseMessage :=
  let systemMessage := plannerSystemMessage X in
  let plannerMessages := systemMessage :: drop 1 messages in
  if negb (useVisionForPlanner opts) && useVision opts
     && (0 <? length plannerMessages)%nat
  then
    match last plannerMessages with
    | Some lastStateMessage =>
        <[length plannerMessages - 1 := withoutImages lastStateMessage]>
          plannerMessages
    | None => plannerMessages
    end
  else plannerMessages.

End PlannerInput.

(** ** Scripted chat models

    The scripted world again, now with a JSON helper that reads one text
    and repairs another, with chat models for the planner and the validator
    that answer as told, and with error classifiers that go by the name of
    the error. *)

Module ScriptedModels.
Import Scripted.

Definition named (n : string) (error : Thrown) : bool :=
  match error with
  | Error n' _ => String.eqb n' n
  | _ => false
  end.

(** the action list that the text [actions] stands for *)
Definition batch : list (option (list (string * Script))) :=
  [act "run" (Extract "one"); act "run" (Finish "two")].

Definition collaborators (plan : Completion (option PlannerOutput))
    (verdict : Completion (option ValidatorOutput))
  : Collaborators World Script unit (list string) :=
  {| paused := isPaused;
     stopped := isStopped;
     estimateTokens := fun _ => 1;
     maxInputTokens := 1000;
     getSettings := fun w => (Normal false, w);
     getUserMessage := fun ctx => (Normal (HumanMessage (Text "page state")), world ctx);
     invoke := fun _ _ w =>
       match reply w with
       | Some items => (Normal (mkModelOutput tt (ActionArray items)), w)
       | None => (Throw (Error "AbortError" "request aborted"), w)
       end;
     serializeModelOutput := fun _ => mkMessage AIMessageType (Text "decision");
     getState := fun _ w => (Normal (page w), w);
     calcBranchPathHashSet := fun elements => list_to_set elements;
     removeHighlight := fun w => (Normal tt, w);
     settle := fun w => w;
     JSON_parse := fun s =>
       if String.eqb s "actions" then Some (ParsedArray batch)
       else if String.eqb s "answer" then Some ParsedOther
       else None;
     repairJsonString := fun s =>
       if String.eqb s "actions," then Some "actions" else None;
     isAuthenticationError := named "AuthenticationError";
     isForbiddenError := named "ForbiddenError";
     isAbortedError := named "AbortError";
     LLM_FORBIDDEN_ERROR_MESSAGE := "Access denied";
     plannerSystemMessage := mkMessage SystemMessageType (Text "planner");
     plannerInvoke := fun _ w => (plan, w);
     validatorSystemMessage := mkMessage SystemMessageType (Text "validator");
     getUserMessageContent := fun ctx => (Normal (Text "task state"), world ctx);
     validatorInvoke := fun _ w => (verdict, w) |}.

(** models that are not asked *)
Definition silent : Collaborators World Script unit (list string) :=
  collaborators (Normal None) (Normal None).

Definition rejected : ValidatorOutput :=
  mkValidatorOutput false "no headline was read" "".

Definition accepted : ValidatorOutput :=
  mkValidatorOutput true "the headline was read" "Markets rally".

Definition nextPlan : PlannerOutput :=
  mkPlannerOutput "front page open" "" false "read the top headline" "" true.

(** a history with the task, and a state message that carries a screenshot *)
Definition memoryWithImage : MessageManager.t :=
  MessageManager.mk
    [MessageManager.Kept (mkMessage SystemMessageType (Text "system"));
     MessageManager.Kept (HumanMessage (Text "find the top headline"));
     MessageManager.Kept
       (HumanMessage (Parts [TextPart "page "; ImageUrlPart "data:image"; TextPart "state"]))]
    0 0.

End ScriptedModels.

(** ** Notions used in the statements *)

(** [m] never changes the view [v] of the state, whether it returns or
    throws. *)
Definition preserves {S V : Type} (v : S -> V) {A} (m : M S A) : Prop :=
  forall s r s', m s = (r, s') -> v s' = v s.

(** The messages that a result of the buffer is due in the memory: none
    unless it is kept for memory, and then one for its content, if it has
    one, followed by one for the last line of its trimmed error text, if it
    has one. *)
Definition memoryMessages (r : ActionResult.t) : list BaseMessage :=
  if ActionResult.includeInMemory r then
    (if JsString.truthy (ActionResult.extractedContent r)
     then [HumanMessage
             (Text ("Action result: " +:+ default "" (ActionResult.extractedContent r)))]
     else [])
    ++ (if JsString.truthy (ActionResult.error r)
        then [HumanMessage
                (Text ("Action error: "
                       +:+ JsString.lastLine
                             (JsString.trim (default "" (ActionResult.error r)))))]
        else [])
  else [].

(** What [addStateMessageToMemory] leaves in a buffer slot. *)
Definition consumed (r : ActionResult.t) : ActionResult.t :=
  if ActionResult.includeInMemory r then ActionResult.empty else r.

(** The state messages that are in the history and not yet removed,
    according to the flag. *)
Definition pending {World} (ctx : TaskContext World) : nat :=
  if stateMessageAdded ctx then 1 else 0.

(** The flag, the call counts and the history agree: the additions exceed
    the removals by the pending message, which is the only snapshot in the
    history. *)
Definition paired {World} (ctx : TaskContext World) : Prop :=
  MessageManager.stateAdds (messageManager ctx)
  = MessageManager.stateRemovals (messageManager ctx) + pending ctx
  /\ MessageManager.snapshots (messageManager ctx) = pending ctx.

(** The part of the context that the pairing is about. *)
Definition pairingState {World} (ctx : TaskContext World) : bool * MessageManager.t :=
  (stateMessageAdded ctx, messageManager ctx).

(** What the action loop has produced so far: results, error count, events
    and action calls. *)
Definition producedSoFar {World} (s : LoopState World)
  : list ActionResult.t * nat * list AgentEvent * list CallRecord :=
  (results s, errCount s, events (context s), callLog (context s)).

(** The character at which [split] cuts an error text. *)
Definition lineFeedChar : ascii := ascii_of_nat 10.

(** The kinds of error that the agents' [catch] blocks throw themselves. *)
Definition fatal (e : Thrown) : bool :=
  match e with
  | ChatModelAuthError _ _ | ChatModelForbiddenError _ _
  | RequestCancelledError _ => true
  | _ => false
  end.

(** * Properties *)

(** ** Boolean-like fields *)

Section SchemaFacts.
Import JsString Schemas.

Lemma booleanString_true (s : string) :
  booleanString s = Ok true <-> toLowerCase s = "true".
Proof.
  unfold booleanString.
  destruct (String.eqb_spec (toLowerCase s) "true") as [Ht|Ht].
  - tauto.
  - destruct (String.eqb_spec (toLowerCase s) "false"); split; congruence.
Qed.

Lemma booleanString_false (s : string) :
  booleanString s = Ok false <-> toLowerCase s = "false".
Proof.
  unfold booleanString.
  destruct (String.eqb_spec (toLowerCase s) "true") as [Ht|Ht].
  - split; [congruence|]. intros Hf. rewrite Hf in Ht. discriminate.
  - destruct (String.eqb_spec (toLowerCase s) "false"); split; congruence.
Qed.

Lemma booleanString_other (s : string) :
  toLowerCase s <> "true" -> toLowerCase s <> "false" ->
  booleanString s = Thrown "Invalid boolean string".
Proof.
  intros Ht Hf. unfold booleanString.
  destruct (String.eqb_spec (toLowerCase s) "true"); [done|].
  destruct (String.eqb_spec (toLowerCase s) "false"); done.
Qed.

Lemma parseField_string (f : BoolField) (s : string) :
  parseField f (JsStr s) = booleanString s.
Proof. destruct f; reflexivity. Qed.

(** C6: on each of the fields [done], [web_task] and [is_valid], a string is
    normalised to a boolean exactly when its lower-case form is "true" or
    "false" (to [true] and [false] respectively, so "true", "TRUE" and
    "False" come out right), every other string makes the parse fail, and a
    boolean passes through unchanged. *)
Theorem boolean_like_fields (f : BoolField) (s : string) :
  (forall b : bool,
      parseField f (JsStr s) = Ok b
      <-> toLowerCase s = (if b then "true" else "false"))
  /\ (toLowerCase s <> "true" -> toLowerCase s <> "false" ->
      failed (parseField f (JsStr s))
      /\ parseField f (JsStr s) = Thrown "Invalid boolean string")
  /\ (forall b : bool, parseField f (JsBoolean b) = Ok b)
  /\ parseField f (JsStr "true") = Ok true
  /\ parseField f (JsStr "TRUE") = Ok true
  /\ parseField f (JsStr "False") = Ok false.
Proof.
  rewrite !parseField_string. split; [|split; [|split]].
  - intros [|]; [apply booleanString_true | apply booleanString_false].
  - intros Ht Hf. rewrite (booleanString_other s Ht Hf). split; [exact I|done].
  - intros b. destruct f; reflexivity.
  - repeat split.
Qed.

Lemma boolean_like_fields_witness :
  JsString.toLowerCase "yes" <> "true"
  /\ JsString.toLowerCase "yes" <> "false"
  /\ failed (parseField IsValid (JsStr "yes"))
  /\ parseField WebTask (JsStr "fAlSe") = Ok false.
Proof.
  assert (H1 : JsString.toLowerCase "yes" <> "true") by (vm_compute; discriminate).
  assert (H2 : JsString.toLowerCase "yes" <> "false") by (vm_compute; discriminate).
  split; [exact H1|]. split; [exact H2|]. split.
  - exact (proj1 (proj1 (proj2 (boolean_like_fields IsValid "yes")) H1 H2)).
  - apply (proj1 (boolean_like_fields WebTask "fAlSe")). reflexivity.
Defined.

End SchemaFacts.

(** ** Favourite prompts *)

Section FavoritesFacts.
Import Favorites.

Lemma findByContent_Some c ps p :
  findByContent c ps = Some p -> p ∈ ps /\ content p = c.
Proof.
  unfold findByContent. intros H. apply find_some in H as [Hin Heq].
  split; [by apply list_elem_of_In|]. by apply String.eqb_eq.
Qed.

Lemma findByContent_None c ps :
  findByContent c ps = None <-> (forall p, p ∈ ps -> content p <> c).
Proof.
  unfold findByContent. split.
  - intros H p Hin Hc. apply list_elem_of_In in Hin.
    pose proof (find_none _ _ H p Hin) as Hn. simpl in Hn.
    apply String.eqb_neq in Hn. done.
  - intros H. destruct (find _ ps) as [p|] eqn:E; [|done].
    apply find_some in E as [Hin Heq]. apply String.eqb_eq in Heq.
    apply list_elem_of_In in Hin. by destruct (H p Hin).
Qed.

Lemma add_one_exact (n : Z) :
  (- 2 ^ 53 <= n < 2 ^ 53)%Z -> JsNumber.add n 1 = (n + 1)%Z.
Proof.
  intros Hn. unfold JsNumber.add, JsNumber.round. cbv zeta.
  destruct (Z.ltb_spec (Z.abs (n + 1)) (2 ^ 53)) as [Hlt|Hge]; [done|].
  assert (n = 2 ^ 53 - 1)%Z as -> by lia. reflexivity.
Qed.

(** C10 (as amended): when some stored prompt has the given content,
    [addPrompt] returns a stored prompt with that content and leaves the
    prompt list and [nextId] as they were; otherwise it puts a new prompt,
    whose id is the old [nextId], in front of the list and sets [nextId] to
    the number [nextId + 1], which is the old [nextId] plus one as long as
    the old [nextId] is an integer from -2^53 to 2^53 - 1.  Adding the same
    content a second time changes nothing and returns the same prompt. *)
Theorem addPrompt_by_content (stored : FavoritesStorage) (t c : string) :
  ((exists p, p ∈ prompts stored /\ content p = c) ->
   exists p, p ∈ prompts stored /\ content p = c
             /\ addPrompt t c stored = (Some p, stored))
  /\ ((forall p, p ∈ prompts stored -> content p <> c) ->
      addPrompt t c stored
      = (Some (mkPrompt (nextId stored) t c),
         mkStorage (JsNumber.add (nextId stored) 1)
           (mkPrompt (nextId stored) t c :: prompts stored))
      /\ ((- 2 ^ 53 <= nextId stored < 2 ^ 53)%Z ->
          addPrompt t c stored
          = (Some (mkPrompt (nextId stored) t c),
             mkStorage (nextId stored + 1)
               (mkPrompt (nextId stored) t c :: prompts stored))))
  /\ (forall t' : string,
         addPrompt t' c (snd (addPrompt t c stored))
         = (fst (addPrompt t c stored), snd (addPrompt t c stored))).
Proof.
  split; [|split].
  - intros (p & Hin & Hc). unfold addPrompt.
    destruct (findByContent c (prompts stored)) as [q|] eqn:E.
    + apply findByContent_Some in E as [Hq Hqc]. by exists q.
    + destruct (proj1 (findByContent_None _ _) E p Hin Hc).
  - intros Hnone. apply findByContent_None in Hnone.
    unfold addPrompt. rewrite Hnone. split; [reflexivity|].
    intros Hsafe. rewrite <- (add_one_exact _ Hsafe). reflexivity.
  - intros t'. unfold addPrompt at 2 3 4.
    destruct (findByContent c (prompts stored)) as [q|] eqn:E; cbn [fst snd].
    + unfold addPrompt. by rewrite E.
    + unfold addPrompt, findByContent. cbn [prepend prompts find content].
      by rewrite String.eqb_refl.
Qed.

Lemma addPrompt_by_content_witness :
  addPrompt "Again" "find jobs" sample = (Some (mkPrompt 1 "Jobs" "find jobs"), sample)
  /\ (- 2 ^ 53 <= nextId sample < 2 ^ 53)%Z
  /\ addPrompt "Prices" "compare prices" sample
     = (Some (mkPrompt 3 "Prices" "compare prices"),
        mkStorage 4 (mkPrompt 3 "Prices" "compare prices" :: prompts sample)).
Proof.
  assert (Hsafe : (- 2 ^ 53 <= nextId sample < 2 ^ 53)%Z) by (split; [discriminate|reflexivity]).
  split; [|split; [exact Hsafe|]].
  - destruct (proj1 (addPrompt_by_content sample "Again" "find jobs"))
      as (p & _ & _ & Hp).
    + exists (mkPrompt 1 "Jobs" "find jobs"). split; [|reflexivity].
      simpl. apply list_elem_of_In. simpl. tauto.
    + pose proof Hp as E. vm_compute in E. inversion E; subst. exact Hp.
  - apply (proj1 (proj2 (addPrompt_by_content sample "Prices" "compare prices"))).
    + intros p Hin. apply list_elem_of_In in Hin. simpl in Hin.
      destruct Hin as [<-|[<-|[]]]; simpl; discriminate.
    + exact Hsafe.
Defined.

(** C10, as stated, fails: in storage whose [nextId] is 2^53 a prompt with
    a new content is added with that id, but [nextId] is not incremented,
    the number nearest to 2^53 + 1 being 2^53 itself; the prompt added next
    gets the same id. *)
Lemma nextId_stays_at_2_53 :
  let stored := mkStorage (2 ^ 53) [] in
  let first := addPrompt "News" "summarize the news" stored in
  let second := addPrompt "Jobs" "find jobs" (snd first) in
  (forall p, p ∈ prompts stored -> content p <> "summarize the news")
  /\ fst first = Some (mkPrompt (2 ^ 53) "News" "summarize the news")
  /\ nextId (snd first) = nextId stored
  /\ nextId (snd first) <> (nextId stored + 1)%Z
  /\ fst second = Some (mkPrompt (2 ^ 53) "Jobs" "find jobs")
  /\ map id (prompts (snd second)) = [2 ^ 53; 2 ^ 53]%Z.
Proof.
  intros stored first second. split.
  - intros p Hp. by apply elem_of_nil in Hp.
  - vm_compute. repeat split. discriminate.
Qed.

End FavoritesFacts.

(** ** What a computation leaves alone *)

Section Frames.
Context {S V : Type}.

Variable v : S -> V.

Lemma preserves_ret {A} (a : A) : preserves v (ret a).
Proof. intros s r s' [= _ <-]. reflexivity. Qed.

Lemma preserves_throw {A} e : preserves v (@throw S A e).
Proof. intros s r s' [= _ <-]. reflexivity. Qed.

Lemma preserves_gets {A} (f : S -> A) : preserves v (gets f).
Proof. intros s r s' [= _ <-]. reflexivity. Qed.

Lemma preserves_modify (f : S -> S) :
  (forall s, v (f s) = v s) -> preserves v (modify f).
Proof. intros Hf s r s' [= _ <-]. apply Hf. Qed.

Lemma preserves_bind {A B} (m : M S A) (k : A -> M S B) :
  preserves v m -> (forall a, preserves v (k a)) -> preserves v (bind m k).
Proof.
  intros Hm Hk s r s'. unfold bind.
  destruct (m s) as [[a|e] s1] eqn:E.
  - intros Hr. rewrite (Hk a _ _ _ Hr). eapply Hm, E.
  - intros [= _ <-]. eapply Hm, E.
Qed.

Lemma preserves_tryCatch {A} (m : M S A) (h : Thrown -> M S A) :
  preserves v m -> (forall e, preserves v (h e)) -> preserves v (tryCatch m h).
Proof.
  intros Hm Hh s r s'. unfold tryCatch.
  destruct (m s) as [[a|e] s1] eqn:E.
  - intros [= _ <-]. eapply Hm, E.
  - intros Hr. rewrite (Hh e _ _ _ Hr). eapply Hm, E.
Qed.

Lemma preserves_when (c : bool) (m : M S unit) :
  preserves v m -> preserves v (when c m).
Proof. destruct c; [done|]. intros _. apply preserves_ret. Qed.

End Frames.

Create HintDb frame.

#[local] Hint Resolve preserves_ret preserves_throw preserves_gets
  preserves_when : frame.

(** Breaks a goal [preserves v m] down along the shape of [m]. *)
Ltac frame_step :=
  first
    [ apply preserves_ret
    | apply preserves_throw
    | apply preserves_gets
    | apply preserves_bind; [|intros ?]
    | apply preserves_tryCatch; [|intros ?]
    | apply preserves_when
    | apply preserves_modify; intros ?; reflexivity
    | match goal with
      | |- preserves _ (match ?x with _ => _ end) => destruct x
      end ].

Ltac frame := repeat frame_step; eauto with frame.

(** ** The message manager *)

Section MessageManagerFacts.
Import MessageManager.

Lemma snapshots_none (mm : t) :
  snapshots mm = 0 <-> Forall (fun e => isSnapshot e = false) (history mm).
Proof.
  unfold snapshots. induction (history mm) as [|e h IH].
  - split; [constructor|done].
  - rewrite filter_cons. destruct e; simpl.
    + destruct (decide (false = true)); [done|].
      rewrite IH. split; [by constructor|by inversion 1].
    + destruct (decide (true = true)); [|done]. simpl.
      split; [done|]. inversion 1; done.
Qed.

Lemma trimToBudget_Forall (P : Entry -> Prop) est max fuel h :
  Forall P h -> Forall P (trimToBudget est max fuel h).
Proof.
  revert h. induction fuel as [|k IH]; intros h Hh; simpl; [done|].
  destruct (totalTokens est h <=? max)%nat; [done|].
  destruct h as [|first [|second rest]]; try done.
  apply IH. inversion Hh as [|? ? H1 H2]; subst.
  inversion H2; subst. by constructor.
Qed.

Lemma snapshots_addMessageWithTokens est max msg mm :
  snapshots mm = 0 -> snapshots (addMessageWithTokens est max msg mm) = 0.
Proof.
  rewrite !snapshots_none. intros H. simpl.
  apply trimToBudget_Forall. apply Forall_app. split; [done|].
  by repeat constructor.
Qed.

Lemma snapshots_addStateMessage st mm :
  snapshots (addStateMessage st mm) = Datatypes.S (snapshots mm).
Proof.
  unfold snapshots. cbn [addStateMessage history].
  rewrite filter_app, length_app, filter_cons.
  destruct (decide (isSnapshot (StateSnapshot st) = true)); [|done].
  simpl. lia.
Qed.

Lemma dropSnapshot_count h :
  length (filter (fun e => isSnapshot e = true) (dropSnapshot h))
  = pred (length (filter (fun e => isSnapshot e = true) h)).
Proof.
  induction h as [|e h IH]; [done|].
  destruct e; cbn [dropSnapshot]; rewrite !filter_cons; simpl.
  - destruct (decide (false = true)); [done|]. exact IH.
  - destruct (decide (true = true)); [|done]. reflexivity.
Qed.

Lemma snapshots_removeLastStateMessage mm :
  snapshots (removeLastStateMessage mm) = pred (snapshots mm).
Proof.
  unfold snapshots. simpl.
  rewrite filter_reverse, length_reverse, dropSnapshot_count.
  by rewrite filter_reverse, length_reverse.
Qed.

Lemma snapshots_addModelOutput m mm :
  snapshots (addModelOutput m mm) = snapshots mm.
Proof.
  unfold snapshots. cbn [addModelOutput history].
  rewrite filter_app, length_app, filter_cons.
  destruct (decide (isSnapshot (Kept m) = true)); [done|].
  simpl. lia.
Qed.

End MessageManagerFacts.

(** ** Frames of the navigator's operations *)

Section AgentFrames.
Context {World Args Brain BrowserState : Type}.
Variable X : Collaborators World Args Brain BrowserState.
Context {V : Type}.
Variable v : TaskContext World -> V.

(** the view does not look at the world, the events or the call log *)
Hypothesis v_world : forall w ctx, v (set_world w ctx) = v ctx.
Hypothesis v_events : forall l ctx, v (set_events l ctx) = v ctx.
Hypothesis v_callLog : forall l ctx, v (set_callLog l ctx) = v ctx.

Lemma preserves_await {A} (f : World -> Completion A * World) :
  preserves v (await f).
Proof.
  intros ctx r ctx'. unfold await.
  destruct (f (world ctx)) as [r0 w]. intros [= _ <-]. apply v_world.
Qed.

Lemma preserves_awaitWith {A} (f : TaskContext World -> Completion A * World) :
  preserves v (awaitWith f).
Proof.
  intros ctx r ctx'. unfold awaitWith.
  destruct (f ctx) as [r0 w]. intros [= _ <-]. apply v_world.
Qed.

Lemma preserves_emitEvent a s d : preserves v (emitEvent a s d).
Proof. intros ctx r ctx' [= _ <-]. apply v_events. Qed.

Lemma preserves_initializeAdvancedModeCheck :
  preserves v (initializeAdvancedModeCheck X).
Proof.
  unfold initializeAdvancedModeCheck.
  apply preserves_bind; [apply preserves_await|intros ?].
  apply preserves_bind; [apply preserves_gets|intros ?]. apply preserves_ret.
Qed.

Lemma preserves_inContext {A} (m : M (TaskContext World) A) :
  preserves v m -> preserves (fun s => v (context s)) (inContext m).
Proof.
  intros Hm s r s'. unfold inContext.
  destruct (m (context s)) as [r0 ctx] eqn:E. intros [= _ <-]. simpl.
  eapply Hm, E.
Qed.

Lemma preserves_callAction i nm (a : Action World Args) args :
  preserves v (callAction i nm a args).
Proof.
  intros ctx r ctx'. unfold callAction.
  destruct (call a args (world ctx)) as [r0 w]. intros [= _ <-].
  rewrite v_callLog. apply v_world.
Qed.

Lemma preserves_push r :
  preserves (fun s : LoopState World => v (context s)) (push r).
Proof. intros s r0 s' [= _ <-]. reflexivity. Qed.

Lemma preserves_settle (f : World -> World) :
  preserves v (modify (fun ctx => set_world (f (world ctx)) ctx)).
Proof. apply preserves_modify. intros ?. apply v_world. Qed.

Lemma preserves_counted :
  preserves (fun s : LoopState World => v (context s))
    (modify (fun s => mkLoop (results s) (Datatypes.S (errCount s)) (context s))).
Proof. apply preserves_modify. reflexivity. Qed.

#[local] Hint Resolve preserves_await preserves_awaitWith preserves_emitEvent
  preserves_inContext preserves_callAction preserves_push preserves_settle
  preserves_counted : frame.

Lemma preserves_tryAction registry cached n i nm args :
  preserves (fun s => v (context s)) (tryAction X registry cached n i nm args).
Proof. unfold tryAction. frame. Qed.

Lemma preserves_catchAction e :
  preserves (fun s : LoopState World => v (context s)) (catchAction e).
Proof. unfold catchAction. destruct e; frame. Qed.

Lemma preserves_iteration registry cached n i action :
  preserves (fun s => v (context s)) (iteration X registry cached n i action).
Proof.
  unfold iteration. frame; auto using preserves_tryAction, preserves_catchAction.
Qed.

Lemma preserves_actionLoop registry cached n actions :
  forall i, preserves (fun s => v (context s))
              (actionLoop X registry cached n i actions).
Proof.
  induction actions as [|action rest IH]; intros i; simpl; frame;
    auto using preserves_iteration.
Qed.

Lemma preserves_doMultiAction registry response :
  preserves v (doMultiAction X registry response).
Proof.
  unfold doMultiAction. frame.
  - intros s r s' [= _ <-]. reflexivity.
  - intros ctx r ctx'.
    destruct (actionLoop _ _ _ _ _ _ _) as [r0 s] eqn:E. intros [= _ <-].
    apply (preserves_actionLoop _ _ _ _ _ _ _ _ E).
Qed.

End AgentFrames.

(** ** The transient state message *)

Section StateMessageFacts.
Context {World Args Brain BrowserState : Type}.
Variable X : Collaborators World Args Brain BrowserState.
Implicit Types ctx : TaskContext World.

Lemma consumed_not_for_memory r : ActionResult.includeInMemory (consumed r) = false.
Proof. unfold consumed. destruct (ActionResult.includeInMemory r) eqn:E; done. Qed.

Lemma foldResults_noop rs :
  Forall (fun r => ActionResult.includeInMemory r = false) rs ->
  forall index ctx, foldResults X index rs ctx = (Normal tt, ctx).
Proof.
  induction 1 as [|r rs Hr _ IH]; intros index ctx; simpl; [done|].
  unfold bind, foldResult. rewrite Hr. simpl. apply IH.
Qed.

Lemma foldResult_memory index r ctx :
  ActionResult.includeInMemory r = true ->
  exists mm',
    foldResult X index r ctx
    = (Normal tt,
       set_actionResults (<[index:=ActionResult.empty]> (actionResults ctx))
         (set_messageManager mm' ctx))
    /\ MessageManager.stateAdds mm' = MessageManager.stateAdds (messageManager ctx)
    /\ MessageManager.stateRemovals mm'
       = MessageManager.stateRemovals (messageManager ctx)
    /\ (MessageManager.snapshots (messageManager ctx) = 0 ->
        MessageManager.snapshots mm' = 0).
Proof.
  intros Hmem. unfold foldResult. rewrite Hmem.
  unfold when, bind, addMessageWithTokens, onMessageManager, modify, ret.
  destruct (JsString.truthy (ActionResult.extractedContent r));
    destruct (JsString.truthy (ActionResult.error r)); simpl;
    eexists; (split; [reflexivity|]); simpl;
    (split; [reflexivity|split; [reflexivity|]]); intros H0;
    repeat apply snapshots_addMessageWithTokens; exact H0.
Qed.

Lemma foldResults_spec rs :
  forall pre ctx,
    actionResults ctx = pre ++ rs ->
    exists mm',
      foldResults X (length pre) rs ctx
      = (Normal tt,
         set_actionResults (pre ++ map consumed rs) (set_messageManager mm' ctx))
      /\ MessageManager.stateAdds mm' = MessageManager.stateAdds (messageManager ctx)
      /\ MessageManager.stateRemovals mm'
         = MessageManager.stateRemovals (messageManager ctx)
      /\ (MessageManager.snapshots (messageManager ctx) = 0 ->
          MessageManager.snapshots mm' = 0).
Proof.
  induction rs as [|r rs IH]; intros pre ctx Hbuf.
  - exists (messageManager ctx). simpl. rewrite <- Hbuf.
    destruct ctx; simpl. done.
  - simpl. unfold bind.
    destruct (ActionResult.includeInMemory r) eqn:Hmem.
    + destruct (foldResult_memory (length pre) r ctx Hmem)
        as (m1 & -> & Ha1 & Hr1 & Hs1).
      rewrite Hbuf, insert_app_r_alt by lia.
      replace (length pre - length pre) with 0 by lia. simpl.
      set (ctx1 := set_actionResults (pre ++ ActionResult.empty :: rs)
                     (set_messageManager m1 ctx)).
      destruct (IH (pre ++ [ActionResult.empty]) ctx1) as (mm' & Hf & Ha & Hr & Hs).
      { subst ctx1. simpl. by rewrite <- app_assoc. }
      exists mm'. rewrite length_app in Hf. simpl in Hf.
      replace (length pre + 1) with (Datatypes.S (length pre)) in Hf by lia.
      rewrite Hf. unfold consumed at 2. rewrite Hmem.
      split; [|split; [|split]].
      * rewrite <- app_assoc. reflexivity.
      * rewrite Ha. exact Ha1.
      * rewrite Hr. exact Hr1.
      * intros H0. apply Hs, Hs1, H0.
    + unfold foldResult. rewrite Hmem. simpl.
      destruct (IH (pre ++ [r]) ctx) as (mm' & Hf & Ha & Hr & Hs).
      { by rewrite <- app_assoc. }
      exists mm'. rewrite length_app in Hf. simpl in Hf.
      replace (length pre + 1) with (Datatypes.S (length pre)) in Hf by lia.
      rewrite Hf. unfold consumed at 2. rewrite Hmem.
      rewrite <- app_assoc. done.
Qed.

Lemma addStateMessageToMemory_added ctx :
  stateMessageAdded ctx = true ->
  addStateMessageToMemory X ctx = (Normal tt, ctx).
Proof.
  intros H. unfold addStateMessageToMemory, bind, gets. by rewrite H.
Qed.

(** What the call does when no state message is pending: the buffer is
    folded into memory, then the state message is asked for and added. *)
Lemma addStateMessageToMemory_fresh ctx :
  stateMessageAdded ctx = false ->
  exists mm',
    MessageManager.stateAdds mm' = MessageManager.stateAdds (messageManager ctx)
    /\ MessageManager.stateRemovals mm'
       = MessageManager.stateRemovals (messageManager ctx)
    /\ (MessageManager.snapshots (messageManager ctx) = 0 ->
        MessageManager.snapshots mm' = 0)
    /\ (Forall (fun r => ActionResult.includeInMemory r = false) (actionResults ctx) ->
        mm' = messageManager ctx)
    /\ let ctx1 := set_actionResults (map consumed (actionResults ctx))
                     (set_messageManager mm' ctx) in
       addStateMessageToMemory X ctx
       = match getUserMessage X ctx1 with
         | (Normal st, w) =>
             (Normal tt,
              set_stateMessageAdded true
                (set_messageManager (MessageManager.addStateMessage st mm')
                   (set_world w ctx1)))
         | (Throw e, w) => (Throw e, set_world w ctx1)
         end.
Proof.
  intros Hflag.
  assert (Hfold : exists mm',
    when (0 <? length (actionResults ctx))%nat (foldResults X 0 (actionResults ctx)) ctx
    = (Normal tt,
       set_actionResults (map consumed (actionResults ctx)) (set_messageManager mm' ctx))
    /\ MessageManager.stateAdds mm' = MessageManager.stateAdds (messageManager ctx)
    /\ MessageManager.stateRemovals mm'
       = MessageManager.stateRemovals (messageManager ctx)
    /\ (MessageManager.snapshots (messageManager ctx) = 0 ->
        MessageManager.snapshots mm' = 0)
    /\ (Forall (fun r => ActionResult.includeInMemory r = false) (actionResults ctx) ->
        mm' = messageManager ctx)).
  { destruct (foldResults_spec (actionResults ctx) [] ctx eq_refl)
      as (mm' & Hf & Ha & Hr & Hs). simpl in Hf.
    destruct (0 <? length (actionResults ctx))%nat eqn:Hlen.
    - exists mm'. unfold when. rewrite Hf. repeat split; try done.
      intros Hall. rewrite (foldResults_noop _ Hall) in Hf.
      injection Hf as Hf. apply (f_equal messageManager) in Hf. simpl in Hf. done.
    - apply Nat.ltb_ge in Hlen.
      assert (Hnil : actionResults ctx = []).
      { destruct (actionResults ctx); [done|simpl in Hlen; lia]. }
      exists (messageManager ctx). unfold when, ret. rewrite Hnil.
      split; [|done]. destruct ctx; simpl in *. by rewrite Hnil. }
  destruct Hfold as (mm' & Hf & Ha & Hr & Hs & Hq).
  exists mm'. repeat split; try done.
  unfold addStateMessageToMemory, bind, gets. rewrite Hflag.
  rewrite Hf. unfold awaitWith.
  destruct (getUserMessage X _) as [[st|e] w]; reflexivity.
Qed.

Lemma removeLastStateMessageFromMemory_spec ctx :
  removeLastStateMessageFromMemory ctx
  = (Normal tt,
     if stateMessageAdded ctx
     then set_stateMessageAdded false
            (set_messageManager
               (MessageManager.removeLastStateMessage (messageManager ctx)) ctx)
     else ctx).
Proof.
  unfold removeLastStateMessageFromMemory, bind, gets.
  destruct (stateMessageAdded ctx); reflexivity.
Qed.

(** Sending a list of messages to the memory, one after the other. *)
Local Abbreviation tell mm msgs :=
  (foldl (fun memory msg =>
            MessageManager.addMessageWithTokens (estimateTokens X) (maxInputTokens X)
              msg memory) mm msgs).

(** One pass of the loop body sends the messages of its result, each once. *)
Lemma foldResult_messages index r ctx :
  exists ctx1,
    foldResult X index r ctx = (Normal tt, ctx1)
    /\ messageManager ctx1 = tell (messageManager ctx) (memoryMessages r).
Proof.
  unfold foldResult, memoryMessages.
  destruct (ActionResult.includeInMemory r); [|by eexists].
  unfold when, bind, addMessageWithTokens, onMessageManager, modify, ret.
  destruct (JsString.truthy (ActionResult.extractedContent r));
    destruct (JsString.truthy (ActionResult.error r)); eexists; split; reflexivity.
Qed.

Lemma foldResults_messages rs :
  forall index ctx,
    exists ctx1,
      foldResults X index rs ctx = (Normal tt, ctx1)
      /\ messageManager ctx1
         = tell (messageManager ctx) (concat (map memoryMessages rs)).
Proof.
  induction rs as [|r rs IH]; intros index ctx; [by eexists|].
  cbn [foldResults map concat]. unfold bind.
  destruct (foldResult_messages index r ctx) as (c1 & -> & H1).
  destruct (IH (Datatypes.S index) c1) as (c2 & -> & H2).
  exists c2. split; [done|]. by rewrite H2, H1, foldl_app.
Qed.

(** What a call that finds no state message pending sends to the memory:
    the messages of the results in the buffer, in buffer order, each once,
    and then the state message, if it could be built. *)
Lemma addStateMessageToMemory_messages ctx r ctx1 :
  stateMessageAdded ctx = false ->
  addStateMessageToMemory X ctx = (r, ctx1) ->
  let told :=
    tell (messageManager ctx) (concat (map memoryMessages (actionResults ctx))) in
  (r = Normal tt /\ exists st, messageManager ctx1 = MessageManager.addStateMessage st told)
  \/ (exists e, r = Throw e /\ messageManager ctx1 = told).
Proof.
  intros Hflag Hrun told.
  unfold addStateMessageToMemory, bind, gets in Hrun. rewrite Hflag in Hrun.
  assert (Hfold : exists c1,
            when (0 <? length (actionResults ctx))%nat
              (foldResults X 0 (actionResults ctx)) ctx = (Normal tt, c1)
            /\ messageManager c1 = told).
  { destruct (actionResults ctx) as [|r0 rs] eqn:E.
    - exists ctx. subst told. by rewrite ?E.
    - destruct (foldResults_messages (r0 :: rs) 0 ctx) as (c1 & Hc & Hm).
      exists c1. subst told. rewrite ?E. done. }
  destruct Hfold as (c1 & Hc1 & Hm1). rewrite Hc1 in Hrun.
  unfold awaitWith, onMessageManager, modify in Hrun.
  destruct (getUserMessage X c1) as [[st|e] w]; injection Hrun as <- <-.
  - left. split; [done|]. exists st. cbn. by rewrite Hm1.
  - right. exists e. split; [done|]. cbn. exact Hm1.
Qed.

(** C8: a call of [addStateMessageToMemory] that finds no state message
    pending sends to the memory the messages of the results in the buffer
    that are kept for memory, in the order of the buffer and each of them
    once (for a result, one message for its content and one for its error,
    where it has them), followed by the state message if that could be
    built.  It leaves an empty [ActionResult] in every slot whose result had
    [includeInMemory] set (and the other slots as they were), whether or not
    the state message could then be built.  From a buffer left that way, a
    later call, whatever else has happened to the context, adds no action
    result or action error to the memory: the history gains nothing, or only
    the state message. *)
Theorem results_consumed_once ctx r ctx1 :
  stateMessageAdded ctx = false ->
  addStateMessageToMemory X ctx = (r, ctx1) ->
  actionResults ctx1 = map consumed (actionResults ctx)
  /\ (let told :=
        foldl (fun memory msg =>
                 MessageManager.addMessageWithTokens (estimateTokens X)
                   (maxInputTokens X) msg memory)
          (messageManager ctx)
          (concat (map memoryMessages (actionResults ctx))) in
      messageManager ctx1 = told
      \/ exists st, messageManager ctx1 = MessageManager.addStateMessage st told)
  /\ (forall r0 : ActionResult.t,
         length (memoryMessages r0) <= 2
         /\ memoryMessages (consumed r0) = [])
  /\ (forall i r0,
         actionResults ctx !! i = Some r0 ->
         ActionResult.includeInMemory r0 = true ->
         actionResults ctx1 !! i = Some ActionResult.empty)
  /\ (forall ctx2 r2 ctx3,
         actionResults ctx2 = actionResults ctx1 ->
         addStateMessageToMemory X ctx2 = (r2, ctx3) ->
         actionResults ctx3 = actionResults ctx2
         /\ (MessageManager.history (messageManager ctx3)
             = MessageManager.history (messageManager ctx2)
             \/ exists st,
                 MessageManager.history (messageManager ctx3)
                 = MessageManager.history (messageManager ctx2)
                   ++ [MessageManager.StateSnapshot st])).
Proof.
  intros Hflag Hrun.
  assert (Hbuf : actionResults ctx1 = map consumed (actionResults ctx)).
  { destruct (addStateMessageToMemory_fresh ctx Hflag) as (mm' & _ & _ & _ & _ & Heq).
    simpl in Heq. rewrite Heq in Hrun.
    destruct (getUserMessage X _) as [[st|e] w]; injection Hrun as _ <-; reflexivity. }
  split; [exact Hbuf|]. split; [|split; [|split]].
  - destruct (addStateMessageToMemory_messages ctx r ctx1 Hflag Hrun)
      as [(_ & st & Hm)|(e & _ & Hm)]; [right; by exists st|by left].
  - intros r0. split.
    + unfold memoryMessages. destruct (ActionResult.includeInMemory r0); [|simpl; lia].
      destruct (JsString.truthy (ActionResult.extractedContent r0));
        destruct (JsString.truthy (ActionResult.error r0)); simpl; lia.
    + unfold memoryMessages. by rewrite consumed_not_for_memory.
  - intros i r0 Hi Hmem. rewrite Hbuf, list_lookup_fmap, Hi. simpl.
    unfold consumed. by rewrite Hmem.
  - intros ctx2 r2 ctx3 Hsame Hrun2.
    destruct (stateMessageAdded ctx2) eqn:Hflag2.
    + rewrite (addStateMessageToMemory_added ctx2 Hflag2) in Hrun2.
      injection Hrun2 as _ <-. auto.
    + destruct (addStateMessageToMemory_fresh ctx2 Hflag2)
        as (mm' & _ & _ & _ & Hq & Heq).
      rewrite Hq in Heq.
      2:{ rewrite Hsame, Hbuf. apply Forall_fmap, Forall_true.
          intros x. apply consumed_not_for_memory. }
      simpl in Heq. rewrite Heq in Hrun2.
      assert (Hid : map consumed (actionResults ctx2) = actionResults ctx2).
      { rewrite Hsame, Hbuf. rewrite <- list_fmap_compose. apply list_fmap_ext.
        intros _ x _. simpl. unfold consumed at 1.
        by rewrite consumed_not_for_memory. }
      destruct (getUserMessage X _) as [[st|e] w]; injection Hrun2 as _ <-; simpl.
      * split; [exact Hid|]. right. by exists st.
      * split; [exact Hid|]. by left.
Qed.

End StateMessageFacts.

(** ** The navigator step *)

Lemma bind_inv {S A B} (m : M S A) (k : A -> M S B) s r s' :
  bind m k s = (r, s') ->
  (exists a s1, m s = (Normal a, s1) /\ k a s1 = (r, s'))
  \/ (exists e, m s = (Throw e, s') /\ r = Throw e).
Proof.
  unfold bind. destruct (m s) as [[a|e] s1].
  - intros H. left. by exists a, s1.
  - intros [= <- <-]. right. by exists e.
Qed.

(** Splits [H : bind m k s = (r, s')] into the run of [m] and the rest. *)
Ltac split_bind H a s1 H1 :=
  let Hr := fresh "Hr" in
  apply bind_inv in H as [(a & s1 & H1 & H)|(? & H1 & Hr)];
  [|first [injection Hr as <- | revert Hr; intros ->]].

(** The same when the whole computation is known to have returned. *)
Ltac split_bind_ok H a s1 H1 :=
  apply bind_inv in H as [(a & s1 & H1 & H)|(? & _ & [=])].

Section NavigatorStepFacts.
Context {World Args Brain BrowserState : Type}.
Variable X : Collaborators World Args Brain BrowserState.
Implicit Types ctx : TaskContext World.

Local Abbreviation pm := pairingState.

Lemma pm_paired ctx ctx' : pm ctx' = pm ctx -> paired ctx -> paired ctx'.
Proof. unfold pm, paired, pending. intros [= -> ->]. done. Qed.

Lemma pm_flag ctx ctx' :
  pm ctx' = pm ctx -> stateMessageAdded ctx' = stateMessageAdded ctx.
Proof. unfold pm. by intros [= -> _]. Qed.

Lemma addStateMessageToMemory_paired ctx r ctx' :
  paired ctx -> addStateMessageToMemory X ctx = (r, ctx') -> paired ctx'.
Proof.
  intros Hp Hrun. destruct (stateMessageAdded ctx) eqn:Hflag.
  - rewrite addStateMessageToMemory_added in Hrun by done.
    by injection Hrun as _ <-.
  - destruct (addStateMessageToMemory_fresh X ctx Hflag)
      as (mm' & Ha & Hr & Hs & _ & Heq).
    simpl in Heq. rewrite Heq in Hrun. clear Heq.
    destruct Hp as [Hp1 Hp2]. unfold pending in *. rewrite Hflag in *.
    destruct (getUserMessage X _) as [[st|e] w]; injection Hrun as _ <-;
      unfold paired, pending; simpl.
    + rewrite snapshots_addStateMessage, Hs by done. lia.
    + rewrite Hflag, Hs by done. lia.
Qed.

Lemma removeLastStateMessageFromMemory_paired ctx r ctx' :
  paired ctx -> removeLastStateMessageFromMemory ctx = (r, ctx') ->
  r = Normal tt /\ paired ctx' /\ stateMessageAdded ctx' = false.
Proof.
  intros [Hp1 Hp2]. rewrite removeLastStateMessageFromMemory_spec.
  intros [= <- <-]. split; [done|]. unfold paired, pending in *.
  destruct (stateMessageAdded ctx) eqn:Hflag; simpl.
  - rewrite snapshots_removeLastStateMessage, Hp2. simpl. split; [|done]. lia.
  - rewrite Hflag. done.
Qed.

Lemma tryExecute_paired registry mode out0 ctx r ctx' :
  paired ctx ->
  tryExecute X registry mode out0 ctx = (r, ctx') ->
  paired ctx'
  /\ (forall out, r = Normal (false, out) -> stateMessageAdded ctx' = false).
Proof.
  intros Hp H. unfold tryExecute in H.
  split_bind H u1 c1 H1; [|discriminate H1].
  injection H1 as _ <-.
  split_bind H u2 c2 H2.
  2:{ split; [|done]. eapply addStateMessageToMemory_paired, H2.
      eapply pm_paired, Hp. reflexivity. }
  assert (Hp2 : paired c2).
  { eapply addStateMessageToMemory_paired, H2. eapply pm_paired, Hp. reflexivity. }
  split_bind H p3 c3 H3; [|discriminate H3]. injection H3 as <- <-.
  destruct (pausedOrStopped X c2).
  { injection H as <- <-. split; [done|]. intros out [=]. }
  split_bind H msgs c4 H4; [|discriminate H4]. injection H4 as _ <-.
  split_bind H mo c5 H5.
  2:{ split; [|done]. eapply pm_paired, Hp2.
      eapply (preserves_await pm), H5. reflexivity. }
  assert (Hp5 : paired c5).
  { eapply pm_paired, Hp2. eapply (preserves_await pm), H5. reflexivity. }
  split_bind H p6 c6 H6; [|discriminate H6]. injection H6 as <- <-.
  destruct (pausedOrStopped X c5).
  { injection H as <- <-. split; [done|]. intros out [=]. }
  split_bind H u7 c7 H7.
  2:{ by destruct (removeLastStateMessageFromMemory_paired _ _ _ Hp5 H7). }
  destruct (removeLastStateMessageFromMemory_paired _ _ _ Hp5 H7) as (_ & Hp7 & Hf7).
  split_bind H u8 c8 H8; [|discriminate H8]. injection H8 as _ <-.
  set (c8 := set_messageManager _ c7) in *.
  assert (Hp8 : paired c8 /\ stateMessageAdded c8 = false).
  { split; [|exact Hf7]. destruct Hp7 as [Ha Hb]. unfold paired, pending in *.
    subst c8. simpl. rewrite snapshots_addModelOutput. done. }
  destruct Hp8 as [Hp8 Hf8].
  split_bind H rs c9 H9.
  2:{ split; [|done]. eapply pm_paired, Hp8.
      eapply (preserves_doMultiAction X pm), H9; reflexivity. }
  assert (Hpm9 : pm c9 = pm c8).
  { eapply (preserves_doMultiAction X pm), H9; reflexivity. }
  split_bind H u10 c10 H10; [|discriminate H10]. injection H10 as _ <-.
  split_bind H p11 c11 H11; [|discriminate H11]. injection H11 as <- <-.
  split_bind H p12 c12 H12.
  2:{ destruct (pausedOrStopped X _); discriminate H12. }
  assert (c12 = set_actionResults rs c9) as ->.
  { destruct (pausedOrStopped X _); by injection H12 as _ <-. }
  assert (Hfin : paired (set_actionResults rs c9)
                 /\ stateMessageAdded (set_actionResults rs c9) = false).
  { split.
    - eapply pm_paired, Hp8. rewrite <- Hpm9. reflexivity.
    - simpl. rewrite (pm_flag _ _ Hpm9). exact Hf8. }
  destruct p12.
  { injection H as <- <-. split; [apply Hfin|]. intros out [=]. }
  split_bind H u13 c13 H13; [|discriminate H13]. injection H13 as _ <-.
  injection H as <- <-. split; [|intros _ _; apply Hfin].
  eapply pm_paired; [|apply Hfin]. reflexivity.
Qed.

Lemma catchExecute_paired out0 e ctx r ctx' :
  paired ctx ->
  catchExecute X out0 e ctx = (r, ctx') ->
  paired ctx' /\ stateMessageAdded ctx' = false.
Proof.
  intros Hp H. unfold catchExecute in H.
  split_bind H u1 c1 H1.
  2:{ by destruct (removeLastStateMessageFromMemory_paired _ _ _ Hp H1). }
  destruct (removeLastStateMessageFromMemory_paired _ _ _ Hp H1) as (_ & Hp1 & Hf1).
  destruct (reclassify X "Navigator" e).
  { by injection H as _ <-. }
  assert (Hgen :
    (let* _ := emitEvent NAVIGATOR STEP_FAIL ("Navigation failed: " +:+ errorMessageOf e) in
     ret (AgentOutput.mk (AgentOutput.id out0) (AgentOutput.result out0)
            (Some (errorMessageOf e)))) c1 = (r, ctx') ->
    paired ctx' /\ stateMessageAdded ctx' = false).
  { intros [= _ <-]. done. }
  destruct e; try (exact (Hgen H)). by injection H as _ <-.
Qed.

Lemma finallyExecute_paired cancelled ctx r ctx' :
  paired ctx ->
  finallyExecute cancelled ctx = (r, ctx') ->
  r = Normal tt /\ paired ctx'
  /\ (if cancelled then stateMessageAdded ctx' = false
      else stateMessageAdded ctx' = stateMessageAdded ctx).
Proof.
  intros Hp H. destruct cancelled; simpl in H.
  - split_bind H u1 c1 H1.
    2:{ by destruct (removeLastStateMessageFromMemory_paired _ _ _ Hp H1). }
    destruct (removeLastStateMessageFromMemory_paired _ _ _ Hp H1) as (_ & Hp1 & Hf1).
    injection H as <- <-. done.
  - injection H as <- <-. done.
Qed.

Lemma initializeAdvancedModeCheck_spec ctx :
  initializeAdvancedModeCheck X ctx
  = match getSettings X (world ctx) with
    | (Normal enabled, w) =>
        (Normal (enabled && match llmProviderType ctx with
                            | Gemini => true
                            | OtherProvider _ => false
                            end), set_world w ctx)
    | (Throw e, w) => (Throw e, set_world w ctx)
    end.
Proof.
  unfold initializeAdvancedModeCheck, bind, await, gets, ret.
  destruct (getSettings X (world ctx)) as [[enabled|e] w]; reflexivity.
Qed.

Lemma andFinally_inv {A} (r0 : Completion A) (f : M (TaskContext World) unit)
    ctx r ctx' :
  andFinally r0 f ctx = (r, ctx') ->
  (exists u, f ctx = (Normal u, ctx') /\ r = r0)
  \/ (exists e, f ctx = (Throw e, ctx') /\ r = Throw e).
Proof.
  unfold andFinally. destruct (f ctx) as [[u|e] c]; intros [= <- <-]; eauto.
Qed.

(** C1: on every way out of [NavigatorAgent.execute] (a returned output,
    be it a success, a caught error or a cancellation, and a re-thrown fatal
    error alike) the counts of state-message additions and removals are
    equal, no state snapshot is left in the message history and
    [stateMessageAdded] is false.  The step starts from a context whose
    flag, counts and history agree ([paired]); when it is entered with a
    message already pending, that message is the one removed, provided the
    settings read that precedes the [try] block succeeds. *)
Theorem state_message_paired registry ctx r ctx' :
  paired ctx ->
  (stateMessageAdded ctx = true ->
   exists enabled w, getSettings X (world ctx) = (Normal enabled, w)) ->
  execute X registry ctx = (r, ctx') ->
  MessageManager.stateAdds (messageManager ctx')
  = MessageManager.stateRemovals (messageManager ctx')
  /\ MessageManager.stateAdds (messageManager ctx')
     + MessageManager.stateRemovals (messageManager ctx) + pending ctx
     = MessageManager.stateRemovals (messageManager ctx')
       + MessageManager.stateAdds (messageManager ctx)
  /\ MessageManager.snapshots (messageManager ctx') = 0
  /\ stateMessageAdded ctx' = false.
Proof.
  intros Hp Hinit H.
  assert (Hgoal : paired ctx' /\ stateMessageAdded ctx' = false).
  { unfold execute in H. split_bind H mode c0 H0.
    - assert (Hp0 : paired c0).
      { eapply pm_paired, Hp.
        eapply (preserves_initializeAdvancedModeCheck X pm), H0; reflexivity. }
      destruct (tryExecute X registry mode _ c0) as [[[cancelled out]|e] c1] eqn:Htry.
      + destruct (tryExecute_paired _ _ _ _ _ _ Hp0 Htry) as [Hp1 Hf1].
        apply andFinally_inv in H as [(u & Hfin & _)|(e & Hfin & _)];
          destruct (finallyExecute_paired _ _ _ _ Hp1 Hfin) as (_ & Hp2 & Hf2);
          (split; [exact Hp2|]);
          (destruct cancelled; [exact Hf2|rewrite Hf2; eapply Hf1; reflexivity]).
      + destruct (tryExecute_paired _ _ _ _ _ _ Hp0 Htry) as [Hp1 _].
        destruct (catchExecute X _ e c1) as [r2 c2] eqn:Hcatch.
        destruct (catchExecute_paired _ _ _ _ _ Hp1 Hcatch) as [Hp2 Hf2].
        apply andFinally_inv in H as [(u & Hfin & _)|(e' & Hfin & _)];
          destruct (finallyExecute_paired _ _ _ _ Hp2 Hfin) as (_ & Hp3 & Hf3);
          (split; [exact Hp3|]); simpl in Hf3; by rewrite Hf3.
    - rewrite initializeAdvancedModeCheck_spec in H0.
      destruct (stateMessageAdded ctx) eqn:Hflag.
      + destruct (Hinit eq_refl) as (enabled & w & Hs). rewrite Hs in H0. discriminate.
      + destruct (getSettings X (world ctx)) as [[enabled|e] w]; [discriminate|].
        injection H0 as _ <-. split; [|exact Hflag].
        eapply pm_paired, Hp. reflexivity. }
  destruct Hgoal as [[Ha Hs] Hf]. destruct Hp as [Ha0 Hs0].
  unfold pending in *. rewrite Hf in *. repeat split; try done; lia.
Qed.

(** *** What the returned output holds *)

Lemma tryExecute_output registry mode out0 ctx cancelled out ctx' :
  tryExecute X registry mode out0 ctx = (Normal (cancelled, out), ctx') ->
  (cancelled = true /\ out = out0)
  \/ (cancelled = false
      /\ (exists d, out = AgentOutput.mk (AgentOutput.id out0)
                            (Some (NavigatorResult.mk d)) (AgentOutput.error out0))
      /\ last (events ctx') = Some (mkEvent NAVIGATOR STEP_OK "Navigation done")).
Proof.
  intros H. unfold tryExecute in H.
  split_bind_ok H u1 c1 H1.
  split_bind_ok H u2 c2 H2.
  split_bind_ok H p3 c3 H3.
  destruct p3. { unfold ret in H. inversion H; subst. by left. }
  split_bind_ok H msgs c4 H4.
  split_bind_ok H mo c5 H5.
  split_bind_ok H p6 c6 H6.
  destruct p6. { unfold ret in H. inversion H; subst. by left. }
  split_bind_ok H u7 c7 H7.
  split_bind_ok H u8 c8 H8.
  split_bind_ok H rs c9 H9.
  split_bind_ok H u10 c10 H10.
  split_bind_ok H p11 c11 H11.
  split_bind_ok H p12 c12 H12.
  destruct p12. { unfold ret in H. inversion H; subst. by left. }
  split_bind_ok H u13 c13 H13.
  injection H13 as _ <-. unfold ret in H. inversion H; subst. right.
  split; [done|]. split; [eauto|]. simpl. apply last_snoc.
Qed.

Lemma plannerTry_output ctx out ctx' :
  plannerTry X ctx = (Normal out, ctx') ->
  exists o, out = AgentOutput.mk "planner" (Some o) None.
Proof.
  intros H. unfold plannerTry in H.
  split_bind_ok H u1 c1 H1.
  split_bind_ok H u2 c2 H2.
  split_bind_ok H u3 c3 H3.
  split_bind_ok H u4 c4 H4.
  destruct u4 as [o|]; [|discriminate H].
  split_bind_ok H u5 c5 H5.
  injection H as <- _. eauto.
Qed.

Lemma validatorTry_output plan ctx out ctx' :
  validatorTry X plan ctx = (Normal out, ctx') ->
  exists o, out = AgentOutput.mk "validator" (Some o) None.
Proof.
  intros H. unfold validatorTry in H.
  split_bind_ok H u1 c1 H1.
  split_bind_ok H u2 c2 H2.
  split_bind_ok H u3 c3 H3.
  split_bind_ok H u4 c4 H4.
  split_bind_ok H u5 c5 H5.
  destruct u5 as [o|]; [|discriminate H].
  split_bind_ok H u6 c6 H6.
  injection H as <- _. eauto.
Qed.

(** C5 (as amended): an output returned by [PlannerAgent.execute] or by
    [ValidatorAgent.execute] holds exactly one of [result] and [error].  An
    output returned by [NavigatorAgent.execute] holds exactly one of them
    too, unless the step was cancelled through the paused or stopped flag:
    the cancelled step, which ends by reporting STEP_CANCEL, returns an
    output with neither field.  No output holds both. *)
Theorem agent_output_fields ctx :
  match plannerExecute X ctx with
  | (Normal out, _) => AgentOutput.exactlyOne out = true
  | (Throw _, _) => True
  end
  /\ (forall plan,
         match validatorExecute X plan ctx with
         | (Normal out, _) => AgentOutput.exactlyOne out = true
         | (Throw _, _) => True
         end)
  /\ (forall registry,
         match execute X registry ctx with
         | (Normal out, ctx') =>
             (last (events ctx')
              = Some (mkEvent NAVIGATOR STEP_CANCEL "Navigation cancelled")
              /\ AgentOutput.neither out = true)
             \/ (last (events ctx')
                 <> Some (mkEvent NAVIGATOR STEP_CANCEL "Navigation cancelled")
                 /\ AgentOutput.exactlyOne out = true)
         | (Throw _, _) => True
         end).
Proof.
  split; [|split].
  - destruct (plannerExecute X ctx) as [[out|e] ctx'] eqn:H; [|done].
    unfold plannerExecute in H. split_bind_ok H u0 c0 H0.
    unfold tryCatch in H.
    destruct (plannerTry X c0) as [[out1|e1] c1] eqn:Htry.
    + injection H as <- _. by destruct (plannerTry_output _ _ _ Htry) as [o ->].
    + unfold plannerCatch in H. destruct (reclassify X "Planner" e1); [discriminate H|].
      by injection H as <- _.
  - intros plan.
    destruct (validatorExecute X plan ctx) as [[out|e] ctx'] eqn:H; [|done].
    unfold validatorExecute in H. split_bind_ok H u0 c0 H0.
    unfold tryCatch in H.
    destruct (validatorTry X plan c0) as [[out1|e1] c1] eqn:Htry.
    + injection H as <- _. by destruct (validatorTry_output _ _ _ _ Htry) as [o ->].
    + unfold validatorCatch in H.
      destruct (reclassify X "Validator" e1); [discriminate H|].
      by injection H as <- _.
  - intros registry.
    destruct (execute X registry ctx) as [[out|e] ctx'] eqn:H; [|done].
    unfold execute in H. split_bind_ok H mode c0 H0.
    destruct (tryExecute X registry mode _ c0) as [[[cancelled out1]|e1] c1] eqn:Htry.
    + apply andFinally_inv in H as [(u & Hfin & Hr)|(e & _ & Hr)]; [|discriminate Hr].
      injection Hr as ->.
      destruct (tryExecute_output _ _ _ _ _ _ _ Htry) as [[-> ->]|(-> & [d ->] & Hev)].
      * simpl in Hfin. split_bind_ok Hfin u1 c2 H1.
        injection Hfin as _ <-. simpl. rewrite last_snoc. by left.
      * injection Hfin as _ <-. rewrite Hev. by right.
    + destruct (catchExecute X _ e1 c1) as [r2 c2] eqn:Hcatch.
      apply andFinally_inv in H as [(u & Hfin & Hr)|(e & _ & Hr)]; [|discriminate Hr].
      subst r2. injection Hfin as _ <-.
      unfold catchExecute in Hcatch. split_bind_ok Hcatch u1 c3 H1.
      destruct (reclassify X "Navigator" e1); [discriminate Hcatch|].
      assert (Hgen :
        (let* _ := emitEvent NAVIGATOR STEP_FAIL
                     ("Navigation failed: " +:+ errorMessageOf e1) in
         ret (AgentOutput.mk "navigator" (@None NavigatorResult.t)
                (Some (errorMessageOf e1)))) c3 = (Normal out, c2) ->
        (last (events c2)
         = Some (mkEvent NAVIGATOR STEP_CANCEL "Navigation cancelled")
         /\ AgentOutput.neither out = true)
        \/ (last (events c2)
            <> Some (mkEvent NAVIGATOR STEP_CANCEL "Navigation cancelled")
            /\ AgentOutput.exactlyOne out = true)).
      { intros [= <- <-]. simpl. rewrite last_snoc. by right. }
      destruct e1; try (exact (Hgen Hcatch)). discriminate Hcatch.
Qed.

Lemma consumed_nothing (rs : list ActionResult.t) :
  Forall (fun r => ActionResult.includeInMemory r = false) rs ->
  map consumed rs = rs.
Proof.
  induction 1 as [|r rs Hr _ IH]; simpl; [done|].
  unfold consumed at 1. by rewrite Hr, IH.
Qed.

(** C7 (as amended): when the paused or stopped flag is set at the check
    that precedes the model invocation, the step returns an output without
    result or error, calls no action and does not invoke the model (the
    world stays as the state-message injection left it).  The result buffer
    is not assigned, but it is not always left as it was: the injection that
    runs before the check has put an empty [ActionResult] in every slot kept
    for memory, unless a state message was already pending.  The buffer is
    unchanged when no slot was kept for memory or a message was pending. *)
Theorem paused_before_model registry ctx mode c0 c1 :
  initializeAdvancedModeCheck X ctx = (Normal mode, c0) ->
  addStateMessageToMemory X
    (set_events (events c0 ++ [mkEvent NAVIGATOR STEP_START "Navigating..."]) c0)
  = (Normal tt, c1) ->
  pausedOrStopped X c1 = true ->
  exists ctx',
    execute X registry ctx = (Normal (AgentOutput.mk "navigator" None None), ctx')
    /\ callLog ctx' = callLog ctx
    /\ world ctx' = world c1
    /\ actionResults ctx'
       = (if stateMessageAdded ctx then actionResults ctx
          else map consumed (actionResults ctx))
    /\ (Forall (fun r => ActionResult.includeInMemory r = false) (actionResults ctx) ->
        actionResults ctx' = actionResults ctx).
Proof.
  intros Hinit Hadd Hpause.
  set (out0 := AgentOutput.mk "navigator" (@None NavigatorResult.t) None).
  assert (Htry : tryExecute X registry mode out0 c0 = (Normal (true, out0), c1)).
  { unfold tryExecute, bind. unfold emitEvent at 1, modify at 1.
    rewrite Hadd. unfold gets. rewrite Hpause. reflexivity. }
  assert (Hc1 : callLog c1 = callLog ctx
                /\ actionResults c1
                   = (if stateMessageAdded ctx then actionResults ctx
                      else map consumed (actionResults ctx))).
  { rewrite initializeAdvancedModeCheck_spec in Hinit.
    destruct (getSettings X (world ctx)) as [[enabled|e] w]; [|discriminate].
    injection Hinit as _ <-.
    destruct (stateMessageAdded ctx) eqn:Hflag.
    - rewrite addStateMessageToMemory_added in Hadd by done.
      injection Hadd as <-. done.
    - match type of Hadd with
      | addStateMessageToMemory X ?c = _ =>
          destruct (addStateMessageToMemory_fresh X c Hflag)
            as (mm' & _ & _ & _ & _ & Heq)
      end.
      cbv zeta in Heq. rewrite Heq in Hadd. clear Heq.
      destruct (getUserMessage X _) as [[st|e] w']; [|discriminate].
      injection Hadd as <-. done. }
  destruct Hc1 as [Hlog Hbuf].
  unfold execute, bind. rewrite Hinit. fold out0. rewrite Htry.
  unfold andFinally, finallyExecute, when, bind.
  rewrite removeLastStateMessageFromMemory_spec. simpl.
  eexists. split; [reflexivity|].
  assert (Hres : forall c : TaskContext World,
            callLog c = callLog c1 -> world c = world c1 ->
            actionResults c = actionResults c1 ->
            callLog c = callLog ctx /\ world c = world c1
            /\ actionResults c
               = (if stateMessageAdded ctx then actionResults ctx
                  else map consumed (actionResults ctx))
            /\ (Forall (fun r => ActionResult.includeInMemory r = false)
                  (actionResults ctx) -> actionResults c = actionResults ctx)).
  { intros c H1 H2 H3. rewrite H1, H3, Hlog, Hbuf. repeat split; try done.
    intros Hall. rewrite (consumed_nothing _ Hall). by destruct (stateMessageAdded ctx). }
  destruct (stateMessageAdded c1); apply Hres; reflexivity.
Qed.

End NavigatorStepFacts.

(** ** The action loop *)

Section LoopFacts.
Context {World Args Brain BrowserState : Type}.
Variable X : Collaborators World Args Brain BrowserState.
Variable registry : gmap string (Action World Args).
Variable cached : gset string.
Variable n : nat.
Implicit Types s : LoopState World.

Local Abbreviation produced := producedSoFar.

Lemma preserves_inContext_world {A} (f : World -> Completion A * World) :
  preserves produced (inContext (await f)).
Proof.
  intros s r s'. unfold inContext, await.
  destruct (f (world (context s))) as [r0 w]. intros [= _ <-]. reflexivity.
Qed.

Lemma produced_inv s s' :
  produced s' = produced s ->
  results s' = results s /\ errCount s' = errCount s
  /\ events (context s') = events (context s)
  /\ callLog (context s') = callLog (context s).
Proof. unfold produced. intros [= -> -> -> ->]. done. Qed.

(** The ways out of the [try] block: stopped by a flag at its start,
    stopped by page drift, a call that returned a result, or an exception
    (which leaves the results as they were). *)
Lemma tryAction_cases i nm args s r s' :
  tryAction X registry cached n i nm args s = (r, s') ->
  errCount s' = errCount s
  /\ events (context s') = events (context s)
  /\ ((r = Normal Halt /\ results s' = results s
       /\ callLog (context s') = callLog (context s))
      \/ (r = Normal Halt /\ results s' = results s ++ [driftResult i n]
          /\ callLog (context s') = callLog (context s))
      \/ (exists x flow,
             r = Normal flow /\ results s' = results s ++ [x]
             /\ callLog (context s') = callLog (context s) ++ [mkCall i nm (Some x)])
      \/ (exists e calls,
             r = Throw e /\ results s' = results s
             /\ callLog (context s') = callLog (context s) ++ calls
             /\ Forall (fun c => returned c = None /\ callIndex c = i) calls)).
Proof.
  intros H. unfold tryAction in H.
  split_bind H p c1 H1; [|discriminate H1]. injection H1 as <- <-.
  destruct (pausedOrStopped X (context s)).
  { injection H as <- <-. repeat split; try done. by left. }
  destruct (getAction nm registry) as [a| |].
  2,3: injection H as <- <-; repeat split; try done;
    right; right; right; eexists; exists []; rewrite app_nil_r; by repeat split.
  split_bind H drift c2 H2.
  2:{ assert (Hv : produced s' = produced s).
      { revert H2. destruct (_ && _); [|discriminate].
        intros H2. split_bind H2 vis c3 H3; [|discriminate H3]. injection H3 as _ <-.
        split_bind H2 ns c4 H4; [discriminate H2|].
        eapply preserves_inContext_world, H4. }
      apply produced_inv in Hv as (Hr & He & Hev & Hl).
      repeat split; try done. right; right; right.
      eexists; exists []. rewrite app_nil_r. by repeat split. }
  assert (Hv : produced c2 = produced s).
  { revert H2. destruct (_ && _); [|by intros [= _ <-]].
    intros H2. split_bind_ok H2 vis c3 H3. injection H3 as _ <-.
    split_bind_ok H2 ns c4 H4. injection H2 as _ <-.
    eapply preserves_inContext_world, H4. }
  apply produced_inv in Hv as (Hr & He & Hev & Hl).
  destruct drift.
  { injection H as <- <-. simpl. rewrite Hr, He, Hev, Hl.
    repeat split; try done. right; left. done. }
  unfold bind at 1, inContext at 1, callAction in H.
  destruct (call a args (world (context c2))) as [[[x|]|e] w]; simpl in H.
  - unfold bind, push, modify, gets in H. simpl in H.
    destruct (pausedOrStopped X _); injection H as <- <-; simpl;
      rewrite Hr, He, Hev, Hl; (repeat split; try done);
      right; right; left; eauto.
  - injection H as <- <-. simpl. rewrite Hr, He, Hev, Hl.
    repeat split; try done. right; right; right.
    eexists; exists [mkCall i nm None]. repeat split; try done. by repeat constructor.
  - injection H as <- <-. simpl. rewrite Hr, He, Hev, Hl.
    repeat split; try done. right; right; right.
    eexists; exists [mkCall i nm None]. repeat split; try done. by repeat constructor.
Qed.

(** The [catch] block: a disallowed navigation is thrown on untouched; any
    other error is reported, counted, and then either recorded or, past the
    budget, replaced by the fatal failure. *)
Lemma catchAction_spec e s :
  catchAction e s
  = match e with
    | URLNotAllowedError _ => (Throw e, s)
    | _ =>
        let ctx' := set_events
                      (events (context s)
                       ++ [mkEvent NAVIGATOR ACT_FAIL (errorMessageOf e)])
                      (context s) in
        if (3 <? Datatypes.S (errCount s))%nat
        then (Throw tooManyErrors,
              mkLoop (results s) (Datatypes.S (errCount s)) ctx')
        else (Normal Continue,
              mkLoop (results s ++ [errorResult (errorMessageOf e)])
                (Datatypes.S (errCount s)) ctx')
    end.
Proof.
  destruct e; try reflexivity;
    unfold catchAction, bind, inContext, emitEvent, modify, gets, push, throw, ret;
    simpl; destruct (errCount s) as [|[|[|k]]]; reflexivity.
Qed.

Lemma catchAction_cases e s r s' :
  errCount s <= 3 ->
  catchAction e s = (r, s') ->
  callLog (context s') = callLog (context s)
  /\ ((exists m, e = URLNotAllowedError m /\ r = Throw e /\ s' = s)
      \/ ((forall m, e <> URLNotAllowedError m)
          /\ events (context s')
             = events (context s) ++ [mkEvent NAVIGATOR ACT_FAIL (errorMessageOf e)]
          /\ errCount s' = Datatypes.S (errCount s)
          /\ ((errCount s < 3 /\ r = Normal Continue
               /\ results s' = results s ++ [errorResult (errorMessageOf e)])
              \/ (errCount s = 3 /\ r = Throw tooManyErrors
                  /\ results s' = results s)))).
Proof.
  intros Hle. rewrite catchAction_spec.
  destruct e; [intros [= <- <-]; split; [done|]; left; eauto|..];
    cbv zeta;
    (destruct (3 <? Datatypes.S (errCount s))%nat eqn:Hb;
     [apply Nat.ltb_lt in Hb|apply Nat.ltb_ge in Hb]);
    intros [= <- <-]; simpl; (split; [done|]); right;
    (split; [done|]); (split; [done|]); (split; [done|]);
    [right|left|right|left|right|left|right|left|right|left];
    (repeat split; try done; lia).
Qed.

Lemma actionLoop_app pre rest :
  forall i s,
    actionLoop X registry cached n i (pre ++ rest) s
    = match actionLoop X registry cached n i pre s with
      | (Normal Continue, s1) =>
          actionLoop X registry cached n (i + length pre) rest s1
      | other => other
      end.
Proof.
  induction pre as [|a pre IH]; intros i s; simpl.
  - unfold ret. by rewrite Nat.add_0_r.
  - unfold bind. destruct (iteration _ _ _ _ i a s) as [[[|]|e] s1]; try done.
    rewrite IH. by replace (Datatypes.S i + length pre) with (i + Datatypes.S (length pre)) by lia.
Qed.

Lemma omap_returned_none (calls : list CallRecord) i :
  Forall (fun c => returned c = None /\ callIndex c = i) calls ->
  omap returned calls = [] /\ Forall (fun c => callIndex c = i) calls.
Proof.
  induction 1 as [|c calls [Hc Hi] _ [IH1 IH2]]; [done|].
  split; [|by constructor]. simpl. unfold omap in IH1. by rewrite Hc, IH1.
Qed.

(** What one iteration adds: ACT_FAIL events [msgs], action calls [calls],
    and results.  Unless it ends in the fatal failure the count stays
    within the budget; the fatal failure comes with the count at 4 and with
    no result for the last message. *)
Lemma iteration_produced i a s r s' :
  errCount s <= 3 ->
  iteration X registry cached n i a s = (r, s') ->
  exists msgs calls,
    events (context s') = events (context s) ++ map (mkEvent NAVIGATOR ACT_FAIL) msgs
    /\ callLog (context s') = callLog (context s) ++ calls
    /\ Forall (fun c => callIndex c = i) calls
    /\ errCount s' = errCount s + length msgs
    /\ (r <> Throw tooManyErrors -> errCount s' <= 3)
    /\ match r with
       | Normal Continue =>
           results s' ≡ₚ results s ++ map errorResult msgs ++ omap returned calls
       | Normal Halt => True
       | Throw e =>
           e = tooManyErrors ->
           errCount s' = 4
           /\ exists front m,
               msgs = front ++ [m]
               /\ results s' ≡ₚ results s ++ map errorResult front ++ omap returned calls
       end.
Proof.
  intros Hle H. destruct a as [keys|].
  2:{ injection H as <- <-. exists [], []. simpl. rewrite !app_nil_r, Nat.add_0_r.
      repeat split; try done; try lia. }
  unfold iteration, tryCatch in H.
  destruct (tryAction _ _ _ _ _ _ _ s) as [[flow|e] s1] eqn:Htry.
  - injection H as <- <-.
    destruct (tryAction_cases _ _ _ _ _ _ Htry)
      as (He & Hev & [(Hr & Hres & Hl)|[(Hr & Hres & Hl)|[(x & fl & Hr & Hres & Hl)
                      |(e & calls & Hr & _)]]]); try discriminate Hr.
    + injection Hr as ->. exists [], []. simpl. rewrite !app_nil_r, Nat.add_0_r.
      repeat split; try done; lia.
    + injection Hr as ->. exists [], []. simpl. rewrite !app_nil_r, Nat.add_0_r.
      repeat split; try done; lia.
    + injection Hr as ->. exists [], [mkCall i (actionNameOf keys) (Some x)].
      simpl. rewrite app_nil_r, Nat.add_0_r. repeat split; try done; try lia.
      * by repeat constructor.
      * destruct fl; [|done]. rewrite Hres. done.
  - destruct (tryAction_cases _ _ _ _ _ _ Htry)
      as (He & Hev & [(Hr & _)|[(Hr & _)|[(x & fl & Hr & _)
                      |(e' & calls & Hr & Hres & Hl & Hall)]]]); try discriminate Hr.
    injection Hr as <-.
    destruct (omap_returned_none _ _ Hall) as [Hnone Hidx].
    assert (Hle1 : errCount s1 <= 3) by lia.
    destruct (catchAction_cases _ _ _ _ Hle1 H)
      as (Hl' & [(m & -> & -> & ->)
                |(Hnot & Hev' & He' & [(Hlt & -> & Hres')|(H3 & -> & Hres')])]).
    + exists [], calls. simpl. rewrite !app_nil_r, Nat.add_0_r.
      repeat split; try done; lia.
    + exists [errorMessageOf e], calls. simpl.
      rewrite Hnone, Hev', Hl', Hres', Hev, Hl, Hres, He', He.
      repeat split; try done; lia.
    + exists [errorMessageOf e], calls. simpl.
      rewrite Hnone, Hev', Hl', Hres', Hev, Hl, Hres, He', He.
      repeat split; try done; try lia.
      exists [], (errorMessageOf e).
      split; [done|]. simpl. by rewrite app_nil_r.
Qed.

(** The same for a run of the loop from action [i] on. *)
Lemma actionLoop_produced actions :
  forall i s r s',
    errCount s <= 3 ->
    actionLoop X registry cached n i actions s = (r, s') ->
    exists msgs calls,
      events (context s') = events (context s) ++ map (mkEvent NAVIGATOR ACT_FAIL) msgs
      /\ callLog (context s') = callLog (context s) ++ calls
      /\ Forall (fun c => i <= callIndex c < i + length actions) calls
      /\ errCount s' = errCount s + length msgs
      /\ (r <> Throw tooManyErrors -> errCount s' <= 3)
      /\ match r with
         | Normal Continue =>
             results s' ≡ₚ results s ++ map errorResult msgs ++ omap returned calls
         | Normal Halt => True
         | Throw e =>
             e = tooManyErrors ->
             errCount s' = 4
             /\ exists front m,
                 msgs = front ++ [m]
                 /\ results s' ≡ₚ results s ++ map errorResult front
                                 ++ omap returned calls
         end.
Proof.
  induction actions as [|a rest IH]; intros i s r s' Hle H.
  - injection H as <- <-. exists [], []. rewrite !app_nil_r.
    repeat split; try done; lia.
  - simpl in H. unfold bind in H.
    destruct (iteration _ _ _ _ i a s) as [r1 s1] eqn:Hit.
    destruct (iteration_produced _ _ _ _ _ Hle Hit)
      as (m1 & c1 & Hev1 & Hl1 & Hi1 & He1 & Hb1 & Hp1).
    assert (Hidx : Forall (fun c => i <= callIndex c < i + length (a :: rest)) c1).
    { eapply Forall_impl; [exact Hi1|]. simpl. intros c ->. lia. }
    destruct r1 as [[|]|e].
    + assert (Hle1 : errCount s1 <= 3) by (apply Hb1; discriminate).
      destruct (IH _ _ _ _ Hle1 H) as (m2 & c2 & Hev2 & Hl2 & Hi2 & He2 & Hb2 & Hp2).
      exists (m1 ++ m2), (c1 ++ c2).
      rewrite Hev2, Hev1, Hl2, Hl1, He2, He1, map_app, length_app, <- !app_assoc.
      repeat split; try done; try lia.
      * apply Forall_app. split; [exact Hidx|].
        eapply Forall_impl; [exact Hi2|]. simpl. intros c. lia.
      * intros Hr. specialize (Hb2 Hr). lia.
      * destruct r as [[|]|e]; [| done |].
        -- rewrite Hp2, Hp1, omap_app, map_app. solve_Permutation.
        -- intros Hfatal. destruct (Hp2 Hfatal) as (H4 & front & m & -> & Hperm).
           split; [lia|]. exists (m1 ++ front), m. split; [by rewrite app_assoc|].
           rewrite Hperm, Hp1, omap_app, map_app. solve_Permutation.
    + injection H as <- <-. exists m1, c1. repeat split; try done.
    + injection H as <- <-. exists m1, c1.
      repeat split; try done; by apply Hp1.
Qed.

End LoopFacts.

(** ** The batch of actions *)

Section BatchFacts.
Context {World Args Brain BrowserState : Type}.
Variable X : Collaborators World Args Brain BrowserState.
Variable registry : gmap string (Action World Args).
Implicit Types s : LoopState World.
Implicit Types ctx : TaskContext World.

(** [doMultiAction] runs the loop on the normalised list, with the
    fingerprint taken before the first action. *)
Lemma doMultiAction_runs response ctx l bs w0 w1 :
  normalizeActions X (action response) = Normal (ActionList l) ->
  getState X (useVision (options ctx)) (world ctx) = (Normal bs, w0) ->
  removeHighlight X w0 = (Normal tt, w1) ->
  doMultiAction X registry response ctx
  = let '(r, s) := actionLoop X registry (calcBranchPathHashSet X bs) (length l) 0 l
                     (mkLoop [] 0 (set_world w1 ctx)) in
    (match r with
     | Normal _ => Normal (results s)
     | Throw e => Throw e
     end, context s).
Proof.
  intros Hn Hs Hh. unfold doMultiAction, bind, gets, await. rewrite Hn.
  simpl. rewrite Hs. simpl. rewrite Hh. reflexivity.
Qed.


(** The batch ends where an iteration stops or throws. *)
Lemma actionLoop_stops_at (cached : gset string) (n : nat) pre a rest s s1 r s2 :
  actionLoop X registry cached n 0 pre s = (Normal Continue, s1) ->
  iteration X registry cached n (length pre) a s1 = (r, s2) ->
  r <> Normal Continue ->
  actionLoop X registry cached n 0 (pre ++ a :: rest) s = (r, s2).
Proof.
  intros Hpre Hit Hr. rewrite actionLoop_app, Hpre.
  change (0 + length pre) with (length pre). cbn [actionLoop]. unfold bind.
  rewrite Hit. by destruct r as [[|]|e].
Qed.

(** C9 (as amended): when the budget is exceeded the exception is thrown
    before any result is pushed for the failing action.  At that moment
    the count is 4, four ACT_FAIL events have been emitted, and the results
    list consists of exactly the three results the handler made for the
    first three failures together with the results that action calls
    returned (which may carry an error of their own); the message of the
    fourth failure is in the fourth ACT_FAIL event and in no result made by
    the handler.  The exception is the fixed 'Too many errors in actions';
    it does not carry the message of the failing action. *)
Theorem fatal_failure_results (cached : gset string) (n : nat) actions ctx s' :
  actionLoop X registry cached n 0 actions (mkLoop [] 0 ctx)
  = (Throw tooManyErrors, s') ->
  errCount s' = 4
  /\ errorMessageOf tooManyErrors = "Too many errors in actions"
  /\ exists m1 m2 m3 m4 calls,
      events (context s')
      = events ctx ++ map (mkEvent NAVIGATOR ACT_FAIL) [m1; m2; m3; m4]
      /\ callLog (context s') = callLog ctx ++ calls
      /\ results s' ≡ₚ map errorResult [m1; m2; m3] ++ omap returned calls.
Proof.
  intros H.
  destruct (actionLoop_produced X registry cached n actions 0 (mkLoop [] 0 ctx)
              _ s' (Nat.le_0_l 3) H)
    as (msgs & calls & Hev & Hl & Hi & He & Hb & Hp). simpl in *.
  destruct (Hp eq_refl) as (H4 & front & m & -> & Hperm).
  split; [exact H4|]. split; [reflexivity|].
  rewrite H4, length_app in He. simpl in He.
  destruct front as [|m1 [|m2 [|m3 [|m4 front]]]]; simpl in He; try lia.
  exists m1, m2, m3, m, calls. done.
Qed.

(** C3: at an action index [i > 0] whose resolved action has a target
    element index, the page fingerprint is taken again; when it is not a
    subset of the fingerprint taken before the batch, [doMultiAction]
    returns the results of the actions before [i] followed by one result
    that holds the drift message as [extractedContent] and no [error], and
    every action call made has an index below [i]: neither action [i] nor a
    later one is called. *)
Theorem page_drift_stops_batch response ctx pre keys rest bs w0 w1 s1
    actionInstance newState w2 :
  let actions := pre ++ Some keys :: rest in
  let cachedPathHashes := calcBranchPathHashSet X bs in
  let i := length pre in
  normalizeActions X (action response) = Normal (ActionList actions) ->
  getState X (useVision (options ctx)) (world ctx) = (Normal bs, w0) ->
  removeHighlight X w0 = (Normal tt, w1) ->
  actionLoop X registry cachedPathHashes (length actions) 0 pre
    (mkLoop [] 0 (set_world w1 ctx)) = (Normal Continue, s1) ->
  0 < i ->
  pausedOrStopped X (context s1) = false ->
  getAction (actionNameOf keys) registry = Registered actionInstance ->
  is_Some (getIndexArg actionInstance (actionArgsOf keys)) ->
  getState X (useVision (options (context s1))) (world (context s1))
  = (Normal newState, w2) ->
  ~ calcBranchPathHashSet X newState ⊆ cachedPathHashes ->
  doMultiAction X registry response ctx
  = (Normal (results s1 ++ [driftResult i (length actions)]),
     set_world w2 (context s1))
  /\ ActionResult.extractedContent (driftResult i (length actions))
     = Some (driftMessage i (length actions))
  /\ ActionResult.error (driftResult i (length actions)) = None
  /\ exists calls,
      callLog (set_world w2 (context s1)) = callLog ctx ++ calls
      /\ Forall (fun c => callIndex c < i) calls.
Proof.
  intros actions cachedPathHashes i Hn Hs Hh Hpre Hi Hp Ha Hidx Hnew Hsub.
  assert (Hit : iteration X registry cachedPathHashes (length actions) i (Some keys) s1
                = (Normal Halt,
                   mkLoop (results s1 ++ [driftResult i (length actions)])
                     (errCount s1) (set_world w2 (context s1)))).
  { unfold iteration, tryCatch, tryAction, bind, gets. rewrite Hp, Ha.
    assert ((0 <? i)%nat = true) as -> by by apply Nat.ltb_lt.
    rewrite (bool_decide_eq_true_2 _ Hidx). simpl.
    unfold inContext, await. rewrite Hnew. simpl.
    rewrite (bool_decide_eq_false_2 _ Hsub). reflexivity. }
  split; [|split; [done|split; [done|]]].
  - rewrite (doMultiAction_runs _ _ _ _ _ _ Hn Hs Hh).
    pose proof (actionLoop_stops_at _ _ _ _ rest _ _ _ _ Hpre Hit) as Hstop.
    fold actions in Hstop. fold cachedPathHashes. rewrite Hstop by done.
    reflexivity.
  - destruct (actionLoop_produced X registry cachedPathHashes (length actions) pre 0
                (mkLoop [] 0 (set_world w1 ctx)) _ s1 (Nat.le_0_l 3) Hpre)
      as (msgs & calls & _ & Hl & Hc & _). simpl in *.
    exists calls. split; [exact Hl|].
    eapply Forall_impl; [exact Hc|]. simpl. intros c. unfold i. lia.
Qed.

(** C4: a [URLNotAllowedError] raised while an action is tried leaves
    [doMultiAction] at once as that same exception: it is not counted, no
    result is recorded for it, no ACT_FAIL is reported, and the actions
    that follow in the batch are not run.  [NavigatorAgent.execute] then
    throws as well and returns no output: it throws the exception itself,
    unless one of the three classifiers that are consulted first claims it,
    in which case it throws the fatal error of that class. *)
Theorem disallowed_navigation_propagates response ctx pre keys rest bs w0 w1 s1 s2 m :
  let actions := pre ++ Some keys :: rest in
  let cachedPathHashes := calcBranchPathHashSet X bs in
  normalizeActions X (action response) = Normal (ActionList actions) ->
  getState X (useVision (options ctx)) (world ctx) = (Normal bs, w0) ->
  removeHighlight X w0 = (Normal tt, w1) ->
  actionLoop X registry cachedPathHashes (length actions) 0 pre
    (mkLoop [] 0 (set_world w1 ctx)) = (Normal Continue, s1) ->
  tryAction X registry cachedPathHashes (length actions) (length pre)
    (actionNameOf keys) (actionArgsOf keys) s1
  = (Throw (URLNotAllowedError m), s2) ->
  (doMultiAction X registry response ctx
   = (Throw (URLNotAllowedError m), context s2)
   /\ errCount s2 = errCount s1
   /\ results s2 = results s1
   /\ events (context s2) = events (context s1)
   /\ exists calls,
       callLog (context s2) = callLog ctx ++ calls
       /\ Forall (fun c => callIndex c <= length pre) calls)
  /\ (forall ctx0 mode c0 c1 mo w3,
         initializeAdvancedModeCheck X ctx0 = (Normal mode, c0) ->
         addStateMessageToMemory X
           (set_events (events c0 ++ [mkEvent NAVIGATOR STEP_START "Navigating..."]) c0)
         = (Normal tt, c1) ->
         pausedOrStopped X c1 = false ->
         invoke X mode (MessageManager.getMessages (messageManager c1)) (world c1)
         = (Normal mo, w3) ->
         pausedOrStopped X (set_world w3 c1) = false ->
         mo = response ->
         snd (addModelOutputToMemory X mo
                (snd (removeLastStateMessageFromMemory (set_world w3 c1)))) = ctx ->
         exists fatal ctx',
           execute X registry ctx0 = (Throw fatal, ctx')
           /\ (reclassify X "Navigator" (URLNotAllowedError m) = None ->
               fatal = URLNotAllowedError m)).
Proof.
  intros actions cachedPathHashes Hn Hs Hh Hpre Htry.
  assert (Hit : iteration X registry cachedPathHashes (length actions) (length pre)
                  (Some keys) s1 = (Throw (URLNotAllowedError m), s2)).
  { unfold iteration, tryCatch. rewrite Htry. reflexivity. }
  assert (Hrun : doMultiAction X registry response ctx
                 = (Throw (URLNotAllowedError m), context s2)).
  { rewrite (doMultiAction_runs _ _ _ _ _ _ Hn Hs Hh).
    pose proof (actionLoop_stops_at _ _ _ _ rest _ _ _ _ Hpre Hit) as Hstop.
    fold actions in Hstop. fold cachedPathHashes. rewrite Hstop by done.
    reflexivity. }
  assert (Hcatch : forall out0 c,
            exists fatal c',
              catchExecute X out0 (URLNotAllowedError m) c = (Throw fatal, c')
              /\ (reclassify X "Navigator" (URLNotAllowedError m) = None ->
                  fatal = URLNotAllowedError m)).
  { intros out0 c. unfold catchExecute, bind.
    rewrite removeLastStateMessageFromMemory_spec.
    destruct (reclassify X "Navigator" (URLNotAllowedError m)) as [fatal|].
    - eexists _, _. split; [reflexivity|]. done.
    - eexists _, _. split; [reflexivity|]. done. }
  split.
  - split; [exact Hrun|].
    destruct (tryAction_cases _ _ _ _ _ _ _ _ _ _ Htry)
      as (He & Hev & [(Hr & _)|[(Hr & _)|[(x & fl & Hr & _)
                      |(e' & calls2 & Hr & Hres & Hl2 & Hall)]]]); try discriminate Hr.
    repeat split; try done.
    destruct (actionLoop_produced X registry cachedPathHashes (length actions) pre 0
                (mkLoop [] 0 (set_world w1 ctx)) _ s1 (Nat.le_0_l 3) Hpre)
      as (msgs & calls & _ & Hl & Hc & _). simpl in *.
    exists (calls ++ calls2). rewrite Hl2, Hl, app_assoc. split; [done|].
    apply Forall_app. split.
    + eapply Forall_impl; [exact Hc|]. simpl. intros c. lia.
    + eapply Forall_impl; [exact Hall|]. simpl. intros c [_ ->]. lia.
  - intros ctx0 mode c0 c1 mo w3 Hinit Hadd Hp1 Hinv Hp2 -> Hctx.
    set (out0 := AgentOutput.mk "navigator" (@None NavigatorResult.t) None).
    assert (Htr : tryExecute X registry mode out0 c0
                  = (Throw (URLNotAllowedError m), context s2)).
    { unfold tryExecute, bind. unfold emitEvent at 1, modify at 1.
      rewrite Hadd. unfold gets at 1. rewrite Hp1. unfold gets at 1.
      unfold await. rewrite Hinv. unfold gets at 1. rewrite Hp2.
      rewrite removeLastStateMessageFromMemory_spec in Hctx |- *.
      unfold addModelOutputToMemory, onMessageManager, modify in Hctx |- *.
      cbn [snd] in Hctx. rewrite Hctx, Hrun. reflexivity. }
    destruct (Hcatch out0 (context s2)) as (fatal & c' & Hc & Hf).
    exists fatal, c'. split; [|exact Hf].
    unfold execute, bind. rewrite Hinit. fold out0. rewrite Htr, Hc. reflexivity.
Qed.

End BatchFacts.

(** ** Runs on the scripted world *)

Section ScriptedRuns.
Import Scripted.

Lemma run_eq {A B} (p : A * B) : p = (fst p, snd p).
Proof. by destruct p. Defined.

(** The helpers and the steps at work. *)
Example trim_and_last_line :
  JsString.lastLine (JsString.trim (" Error: first" +:+ lineFeed +:+ "  at last  "))
  = "  at last".
Proof. reflexivity. Qed.

Example results_are_folded_into_memory :
  MessageManager.getMessages
    (messageManager
       (snd (addStateMessageToMemory collaborators
               (contextOf [found; errorResult ("TypeError: x" +:+ lineFeed +:+ " at y ")]
                  (quiet [])))))
  = [mkMessage SystemMessageType (Text "system");
     HumanMessage (Text "Action result: headline");
     HumanMessage (Text "Action error:  at y");
     HumanMessage (Text "page state")].
Proof. reflexivity. Qed.

Example step_done :
  fst (execute collaborators registry
         (contextOf [] (quiet [act "run" (Extract "x"); act "click" (Finish "y")])))
  = Normal (AgentOutput.mk "navigator" (Some (NavigatorResult.mk true)) None).
Proof. reflexivity. Qed.

Example step_fails_on_fourth_error :
  fst (execute collaborators registry (contextOf [] (quiet failures)))
  = Normal (AgentOutput.mk "navigator" None (Some "Too many errors in actions")).
Proof. reflexivity. Qed.

Example unknown_action_is_an_action_error :
  fst (doMultiAction collaborators registry
         (mkModelOutput tt (ActionArray [None; act "scroll" Nothing; Some []]))
         (atActions []))
  = Normal [errorResult "Action scroll not exists";
            errorResult "Action undefined not exists"].
Proof. reflexivity. Qed.

Lemma results_consumed_once_witness :
  let ctx := contextOf [found; note] (quiet []) in
  stateMessageAdded ctx = false
  /\ actionResults (snd (addStateMessageToMemory collaborators ctx))
     = [ActionResult.empty; note]
  /\ exists st,
      messageManager (snd (addStateMessageToMemory collaborators ctx))
      = MessageManager.addStateMessage st
          (MessageManager.addMessageWithTokens (estimateTokens collaborators)
             (maxInputTokens collaborators)
             (HumanMessage (Text "Action result: headline")) emptyMemory).
Proof.
  intros ctx. split; [reflexivity|].
  destruct (results_consumed_once collaborators ctx _ _ eq_refl (run_eq _))
    as (Hbuf & Hsent & _).
  split; [exact Hbuf|].
  destruct Hsent as [Hnone|Hstate]; [|exact Hstate].
  vm_compute in Hnone. discriminate Hnone.
Defined.

Lemma state_message_paired_witness :
  let ctx := contextOf [found] (quiet [act "run" (Fail "boom"); act "click" (Finish "y")]) in
  paired ctx
  /\ stateMessageAdded (snd (execute collaborators registry ctx)) = false
  /\ MessageManager.stateAdds (messageManager (snd (execute collaborators registry ctx)))
     = MessageManager.stateRemovals
         (messageManager (snd (execute collaborators registry ctx))).
Proof.
  intros ctx.
  assert (Hp : paired ctx) by (split; reflexivity).
  assert (Hs : stateMessageAdded ctx = true ->
               exists enabled w,
                 getSettings collaborators (world ctx) = (Normal enabled, w)).
  { intros H. discriminate H. }
  split; [exact Hp|].
  destruct (state_message_paired collaborators registry ctx _ _ Hp Hs (run_eq _))
    as (H1 & _ & _ & H4).
  split; [exact H4|exact H1].
Defined.

Lemma paused_before_model_witness :
  let ctx := contextOf [note] (halted [act "run" (Extract "x")]) in
  pausedOrStopped collaborators ctx = true
  /\ fst (execute collaborators registry ctx)
     = Normal (AgentOutput.mk "navigator" None None)
  /\ callLog (snd (execute collaborators registry ctx)) = []
  /\ actionResults (snd (execute collaborators registry ctx)) = [note].
Proof.
  intros ctx. split; [reflexivity|].
  destruct (paused_before_model collaborators registry ctx false ctx
              (snd (addStateMessageToMemory collaborators
                      (set_events (events ctx ++ [mkEvent NAVIGATOR STEP_START "Navigating..."])
                         ctx))) eq_refl eq_refl eq_refl)
    as (ctx' & Hrun & Hlog & _ & Hbuf & _).
  rewrite Hrun. simpl. split; [reflexivity|]. split; [exact Hlog|exact Hbuf].
Defined.

(** C7, as stated, fails: with a result kept for memory in the buffer, a
    step that finds the paused flag set before the model is invoked calls no
    action, yet leaves the buffer changed. *)
Lemma paused_step_changes_buffer :
  let ctx := contextOf [found] (halted [act "run" (Extract "x")]) in
  pausedOrStopped collaborators ctx = true
  /\ callLog (snd (execute collaborators registry ctx)) = []
  /\ actionResults ctx = [found]
  /\ actionResults (snd (execute collaborators registry ctx)) = [ActionResult.empty]
  /\ actionResults (snd (execute collaborators registry ctx)) <> actionResults ctx.
Proof. intros ctx. vm_compute. repeat split. discriminate. Qed.

(** C5, as stated, fails: a cancelled navigator step returns an output with
    neither [result] nor [error]. *)
Lemma cancelled_output_has_neither :
  match execute collaborators registry (contextOf [] (halted [act "run" (Extract "x")])) with
  | (Normal out, ctx') =>
      AgentOutput.result out = None
      /\ AgentOutput.error out = None
      /\ AgentOutput.exactlyOne out = false
      /\ last (events ctx') = Some (mkEvent NAVIGATOR STEP_CANCEL "Navigation cancelled")
  | (Throw _, _) => False
  end.
Proof. vm_compute. repeat split. Qed.


Lemma fatal_failure_results_witness :
  let batch := act "run" (Extract "ok") :: failures in
  let run := actionLoop collaborators registry (list_to_set ["a"; "b"]) 5 0 batch
               (mkLoop [] 0 (atActions batch)) in
  fst run = Throw tooManyErrors
  /\ errCount (snd run) = 4
  /\ results (snd run)
     = [ActionResult.mk (Some "ok") None false true;
        errorResult "e1"; errorResult "e2"; errorResult "e3"].
Proof.
  intros batch run.
  assert (Hrun : run = (Throw tooManyErrors, snd run)) by (vm_compute; reflexivity).
  split; [by rewrite Hrun|].
  split; [|vm_compute; reflexivity].
  exact (proj1 (fatal_failure_results collaborators registry _ _ _ _ _ Hrun)).
Defined.

(** C9, as stated, fails: a result returned by an action may carry an error
    without the action having thrown, so the results list at the fatal
    failure can hold more than three entries with an error; and the
    exception thrown carries its own fixed message, not the message of the
    fourth failing action. *)
Lemma four_error_entries_at_failure :
  let batch := act "run" (Report "e0") :: failures in
  let run := actionLoop collaborators registry (list_to_set ["a"; "b"]) 5 0 batch
               (mkLoop [] 0 (atActions batch)) in
  fst run = Throw tooManyErrors
  /\ omap ActionResult.error (results (snd run)) = ["e0"; "e1"; "e2"; "e3"]
  /\ last (events (context (snd run))) = Some (mkEvent NAVIGATOR ACT_FAIL "e4")
  /\ errorMessageOf tooManyErrors = "Too many errors in actions".
Proof. intros batch run. vm_compute. repeat split. Qed.

Lemma page_drift_stops_batch_witness :
  let batch := [act "run" (Insert "c"); act "click" (Finish "y"); act "run" (Extract "z")] in
  let ctx := atActions batch in
  fst (doMultiAction collaborators registry (mkModelOutput tt (ActionArray batch)) ctx)
  = Normal [ActionResult.mk None None false false;
            ActionResult.mk (Some "Something new appeared after action 1 / 3")
              None false true]
  /\ callLog (snd (doMultiAction collaborators registry
                     (mkModelOutput tt (ActionArray batch)) ctx))
     = [mkCall 0 "run" (Some (ActionResult.mk None None false false))].
Proof.
  intros batch ctx.
  assert (Hsub : ~ calcBranchPathHashSet collaborators ["a"; "b"; "c"]
                   ⊆ calcBranchPathHashSet collaborators ["a"; "b"]).
  { intros H. apply (bool_decide_eq_true_2 _) in H. vm_compute in H. discriminate H. }
  destruct (page_drift_stops_batch collaborators registry
              (mkModelOutput tt (ActionArray batch)) ctx
              [act "run" (Insert "c")] [("click", Finish "y")]
              [act "run" (Extract "z")] ["a"; "b"] (quiet batch) (quiet batch)
              (snd (actionLoop collaborators registry (list_to_set ["a"; "b"]) 3 0
                      [act "run" (Insert "c")] (mkLoop [] 0 ctx)))
              click ["a"; "b"; "c"]
              (mkWorld false false ["a"; "b"; "c"] (Some batch))
              eq_refl eq_refl eq_refl eq_refl (Nat.lt_0_succ 0) eq_refl eq_refl
              (ex_intro _ 0%Z eq_refl) eq_refl Hsub)
    as (Hrun & _).
  rewrite Hrun. split; vm_compute; reflexivity.
Defined.

Lemma disallowed_navigation_propagates_witness :
  let batch := [act "run" (Extract "x"); act "run" (Navigate "http://bad.example");
                act "run" (Extract "never")] in
  let ctx0 := contextOf [] (quiet batch) in
  fst (execute collaborators registry ctx0)
  = Throw (URLNotAllowedError "URL not allowed: http://bad.example")
  /\ callLog (snd (doMultiAction collaborators registry
                     (mkModelOutput tt (ActionArray batch)) (atActions batch)))
     = [mkCall 0 "run" (Some (ActionResult.mk (Some "x") None false true));
        mkCall 1 "run" None].
Proof.
  intros batch ctx0.
  set (s1 := snd (actionLoop collaborators registry (list_to_set ["a"; "b"]) 3 0
                    [act "run" (Extract "x")] (mkLoop [] 0 (atActions batch)))).
  set (s2 := snd (tryAction collaborators registry (list_to_set ["a"; "b"]) 3 1
                    "run" (Some (Navigate "http://bad.example")) s1)).
  destruct (disallowed_navigation_propagates collaborators registry
              (mkModelOutput tt (ActionArray batch)) (atActions batch)
              [act "run" (Extract "x")] [("run", Navigate "http://bad.example")]
              [act "run" (Extract "never")] ["a"; "b"] (quiet batch) (quiet batch)
              s1 s2 "URL not allowed: http://bad.example"
              eq_refl eq_refl eq_refl eq_refl eq_refl)
    as ((Hrun & _) & Hexec).
  destruct (Hexec ctx0 false ctx0
              (snd (addStateMessageToMemory collaborators
                      (set_events (events ctx0 ++ [mkEvent NAVIGATOR STEP_START "Navigating..."])
                         ctx0)))
              (mkModelOutput tt (ActionArray batch)) (quiet batch)
              eq_refl eq_refl eq_refl eq_refl eq_refl eq_refl eq_refl)
    as (fatal & ctx' & Hex & Hf).
  rewrite Hex, Hrun. simpl. split; [|vm_compute; reflexivity].
  f_equal. apply Hf. reflexivity.
Defined.

End ScriptedRuns.


(** ** Updating, removing and looking up favourite prompts *)

Section FavoritesStoreFacts.
Import Favorites FavoritesStore.

Lemma mapUpdated_fst change i ps u :
  fst (mapUpdated change i ps u)
  = map (fun p => if (id p =? i)%Z then change p else p) ps.
Proof.
  revert u. induction ps as [|a ps IH]; intros u; simpl; [done|].
  destruct (id a =? i)%Z.
  - specialize (IH (Some (change a))).
    destruct (mapUpdated change i ps (Some (change a))). simpl in *. by rewrite IH.
  - specialize (IH u). destruct (mapUpdated change i ps u). simpl in *. by rewrite IH.
Qed.

Lemma mapUpdated_snd change i ps :
  forall u,
    (snd (mapUpdated change i ps u) = u /\ forall p, p ∈ ps -> id p <> i)
    \/ (exists q, q ∈ ps /\ id q = i
                  /\ snd (mapUpdated change i ps u) = Some (change q)).
Proof.
  induction ps as [|a ps IH]; intros u; simpl.
  - left. split; [done|]. intros p Hp. by apply elem_of_nil in Hp.
  - destruct (Z.eqb_spec (id a) i) as [Ha|Ha].
    + right. destruct (IH (Some (change a))) as [[Hs Hn]|(q & Hq & Hi & Hs)];
        destruct (mapUpdated change i ps (Some (change a))); simpl in *.
      * exists a. split; [left|done].
      * exists q. split; [by right|done].
    + destruct (IH u) as [[Hs Hn]|(q & Hq & Hi & Hs)];
        destruct (mapUpdated change i ps u); simpl in *.
      * left. split; [done|]. intros p [->|Hp]%elem_of_cons; [done|by apply Hn].
      * right. exists q. split; [by right|done].
Qed.

Lemma map_unchanged (change : FavoritePrompt -> FavoritePrompt) i ps :
  (forall p, p ∈ ps -> id p <> i) ->
  map (fun p => if (id p =? i)%Z then change p else p) ps = ps.
Proof.
  induction ps as [|a ps IH]; intros H; simpl; [done|].
  destruct (Z.eqb_spec (id a) i) as [Ha|Ha].
  - destruct (H a); [left|done].
  - rewrite IH; [done|]. intros p Hp. apply H. by right.
Qed.

Lemma updateWith_spec change i st :
  (forall p, id (change p) = id p) ->
  ((forall p, p ∈ prompts st -> id p <> i) -> updateWith change i st = (None, st))
  /\ ((exists p, p ∈ prompts st /\ id p = i) ->
      exists q, q ∈ prompts st /\ id q = i
                /\ updateWith change i st
                   = (Some (change q),
                      mkStorage (nextId st)
                        (map (fun p => if (id p =? i)%Z then change p else p)
                           (prompts st)))).
Proof.
  intros Hid. unfold updateWith.
  pose proof (mapUpdated_fst change i (prompts st) None) as Hf.
  destruct (mapUpdated_snd change i (prompts st) None) as [[Hs Hn]|(q & Hq & Hi & Hs)];
    destruct (mapUpdated change i (prompts st) None) as [l u]; simpl in *; subst.
  - split.
    + intros _. by destruct st.
    + intros (p & Hp & Hi). by destruct (Hn p Hp).
  - split.
    + intros Hn. by destruct (Hn q Hq).
    + intros _. exists q. done.
Qed.

Lemma find_by_id_map (u : FavoritePrompt) i ps :
  id u = i ->
  (exists p, p ∈ ps /\ id p = i) ->
  List.find (fun prompt => (id prompt =? i)%Z)
    (map (fun p => if (id p =? i)%Z then u else p) ps) = Some u.
Proof.
  intros Hu. induction ps as [|a ps IH]; intros (p & Hp & Hi).
  - by apply elem_of_nil in Hp.
  - simpl. destruct (Z.eqb_spec (id a) i) as [Ha|Ha].
    + simpl. by rewrite Hu, Z.eqb_refl.
    + simpl. destruct (Z.eqb_spec (id a) i); [done|].
      apply IH. apply elem_of_cons in Hp as [->|Hp]; [done|eauto].
Qed.

(** X1: [updatePrompt] with an id that no stored prompt has returns
    [undefined] and leaves the storage as it is.  With an id that is stored it
    returns the prompt with that id and the new title and content, replaces
    every prompt of that id and no other, keeps the ids, their order and
    [nextId], and a lookup of the id then gives the updated prompt. *)
Theorem updatePrompt_by_id (st : FavoritesStorage) (i : Z) (t c : string) :
  ((forall p, p ∈ prompts st -> id p <> i) -> updatePrompt i t c st = (None, st))
  /\ ((exists p, p ∈ prompts st /\ id p = i) ->
      let st' := snd (updatePrompt i t c st) in
      fst (updatePrompt i t c st) = Some (mkPrompt i t c)
      /\ nextId st' = nextId st
      /\ prompts st' = map (fun p => if (id p =? i)%Z then mkPrompt i t c else p) (prompts st)
      /\ map id (prompts st') = map id (prompts st)
      /\ getPromptById i st' = Some (mkPrompt i t c)).
Proof.
  destruct (updateWith_spec (fun prompt => mkPrompt (id prompt) t c) i st
              (fun _ => eq_refl)) as [Habs Hpres].
  split; [exact Habs|]. intros Hex. destruct (Hpres Hex) as (q & Hq & Hi & Heq).
  unfold updatePrompt. rewrite Heq. simpl. subst i.
  assert (Hmap : map (fun p => if (id p =? id q)%Z then mkPrompt (id p) t c else p) (prompts st)
                 = map (fun p => if (id p =? id q)%Z then mkPrompt (id q) t c else p) (prompts st)).
  { apply map_ext. intros a. destruct (Z.eqb_spec (id a) (id q)) as [->|]; done. }
  rewrite Hmap. repeat split.
  - rewrite map_map. apply map_ext. intros a.
    destruct (Z.eqb_spec (id a) (id q)) as [->|]; done.
  - unfold getPromptById. simpl. by apply find_by_id_map.
Qed.

Lemma updatePrompt_by_id_witness :
  updatePrompt 7 "Work" "find work" sample = (None, sample)
  /\ getPromptById 1 (snd (updatePrompt 1 "Work" "find work" sample))
     = Some (mkPrompt 1 "Work" "find work").
Proof.
  split.
  - apply (proj1 (updatePrompt_by_id sample 7 "Work" "find work")).
    intros p Hp. apply (proj1 (Forall_forall (fun q => id q <> 7%Z) (prompts sample)));
      [|exact Hp].
    repeat constructor; discriminate.
  - apply (proj2 (updatePrompt_by_id sample 1 "Work" "find work")).
    exists (mkPrompt 1 "Jobs" "find jobs"). split; [|reflexivity].
    apply (list_elem_of_lookup_2 _ 1%nat). reflexivity.
Defined.

(** X2: [updatePromptTitle] with an id that is not stored returns
    [undefined] and changes nothing; otherwise it returns a stored prompt of
    that id with the new title and its own content, and keeps every content,
    every id and [nextId]. *)
Theorem updatePromptTitle_by_id (st : FavoritesStorage) (i : Z) (t : string) :
  ((forall p, p ∈ prompts st -> id p <> i) -> updatePromptTitle i t st = (None, st))
  /\ ((exists p, p ∈ prompts st /\ id p = i) ->
      let st' := snd (updatePromptTitle i t st) in
      (exists q, q ∈ prompts st /\ id q = i
                 /\ fst (updatePromptTitle i t st) = Some (mkPrompt i t (content q)))
      /\ nextId st' = nextId st
      /\ map content (prompts st') = map content (prompts st)
      /\ map id (prompts st') = map id (prompts st)
      /\ (forall k p, prompts st !! k = Some p -> id p <> i -> prompts st' !! k = Some p)).
Proof.
  destruct (updateWith_spec (fun prompt => mkPrompt (id prompt) t (content prompt)) i st
              (fun _ => eq_refl)) as [Habs Hpres].
  split; [exact Habs|]. intros Hex. destruct (Hpres Hex) as (q & Hq & Hi & Heq).
  unfold updatePromptTitle. rewrite Heq. simpl. repeat split.
  - exists q. by subst i.
  - rewrite map_map. apply map_ext. intros a. by destruct (id a =? i)%Z.
  - rewrite map_map. apply map_ext. intros a. by destruct (id a =? i)%Z.
  - intros k p Hk Hne. change (map ?f ?l) with (f <$> l).
    rewrite list_lookup_fmap, Hk. simpl.
    destruct (Z.eqb_spec (id p) i); done.
Qed.

Lemma updatePromptTitle_by_id_witness :
  updatePromptTitle 7 "Work" sample = (None, sample)
  /\ map content (prompts (snd (updatePromptTitle 1 "Work" sample)))
     = map content (prompts sample).
Proof.
  split.
  - apply (proj1 (updatePromptTitle_by_id sample 7 "Work")).
    intros p Hp. apply (proj1 (Forall_forall (fun q => id q <> 7%Z) (prompts sample)));
      [|exact Hp].
    repeat constructor; discriminate.
  - apply (proj2 (updatePromptTitle_by_id sample 1 "Work")).
    exists (mkPrompt 1 "Jobs" "find jobs"). split; [|reflexivity].
    apply (list_elem_of_lookup_2 _ 1%nat). reflexivity.
Defined.

Lemma find_by_id_None i ps :
  List.find (fun prompt => (id prompt =? i)%Z) ps = None
  <-> forall p, p ∈ ps -> id p <> i.
Proof.
  split.
  - intros H p Hp Hi. apply list_elem_of_In in Hp.
    pose proof (find_none _ _ H p Hp) as Hn. simpl in Hn.
    apply Z.eqb_neq in Hn. done.
  - intros H. destruct (find _ ps) as [p|] eqn:E; [|done].
    apply find_some in E as [Hin Heq]. apply Z.eqb_eq in Heq.
    apply list_elem_of_In in Hin. by destruct (H p Hin).
Qed.

Lemma find_by_id_filter i j ps :
  j <> i ->
  List.find (fun prompt => (id prompt =? j)%Z) (filter (fun prompt => id prompt <> i) ps)
  = List.find (fun prompt => (id prompt =? j)%Z) ps.
Proof.
  intros Hne. induction ps as [|a ps IH]; [done|].
  rewrite filter_cons. destruct (decide (id a <> i)) as [Ha|Ha]; simpl.
  - destruct (id a =? j)%Z; [done|exact IH].
  - destruct (Z.eqb_spec (id a) j) as [Hj|Hj]; [|exact IH].
    destruct Ha. intros Hi. apply Hne. by rewrite <- Hj, Hi.
Qed.

(** X3: after [removePrompt] the id is not found any more, every other
    lookup answers as before, the prompts that stay keep their order,
    [nextId] is kept, and removing an id that is not stored changes nothing.
    The id is not given out again: in a storage whose ids are below
    [nextId], a prompt added after the removal gets an id different from
    the removed one. *)
Theorem removePrompt_by_id (st : FavoritesStorage) (i : Z) :
  getPromptById i (removePrompt i st) = None
  /\ (forall j, j <> i -> getPromptById j (removePrompt i st) = getPromptById j st)
  /\ prompts (removePrompt i st) = filter (fun p => id p <> i) (prompts st)
  /\ nextId (removePrompt i st) = nextId st
  /\ ((forall p, p ∈ prompts st -> id p <> i) -> removePrompt i st = st)
  /\ (forall t c p new st',
         wellNumbered st -> p ∈ prompts st -> id p = i ->
         (forall q, q ∈ prompts st -> content q <> c) ->
         addPrompt t c (removePrompt i st) = (Some new, st') ->
         id new = nextId st /\ id new <> i).
Proof.
  split; [|split; [|split; [|split; [|split]]]]; try done.
  - unfold getPromptById, removePrompt. simpl. apply find_by_id_None.
    intros p [Hp _]%list_elem_of_filter. done.
  - intros j Hj. unfold getPromptById, removePrompt. simpl.
    by apply find_by_id_filter.
  - intros Hn. unfold removePrompt. destruct st as [n ps]. simpl in *. f_equal.
    induction ps as [|a ps IH]; [done|].
    rewrite filter_cons. destruct (decide (id a <> i)) as [Ha|Ha].
    + f_equal. apply IH. intros p Hp. apply Hn. by right.
    + destruct Ha. apply Hn. left.
  - intros t c p new st' [_ Hlt] Hp Hi Hc Hadd.
    unfold addPrompt in Hadd.
    rewrite (proj2 (findByContent_None c (prompts (removePrompt i st)))) in Hadd.
    2:{ intros q [_ Hq]%list_elem_of_filter. by apply Hc. }
    injection Hadd as <- _. simpl. split; [done|].
    rewrite Forall_forall in Hlt. specialize (Hlt p Hp). lia.
Qed.

Lemma removePrompt_by_id_witness :
  removePrompt 7 sample = sample
  /\ fst (addPrompt "Prices" "compare prices" (removePrompt 2 sample))
     = Some (mkPrompt 3 "Prices" "compare prices")
  /\ id (mkPrompt 3 "Prices" "compare prices") <> 2%Z.
Proof.
  destruct (removePrompt_by_id sample 7) as (_ & _ & _ & _ & Hsame & _).
  destruct (removePrompt_by_id sample 2) as (_ & _ & _ & _ & _ & Hfresh).
  split; [|split; [reflexivity|]].
  - apply Hsame. intros p Hp.
    apply (proj1 (Forall_forall (fun q => id q <> 7%Z) (prompts sample))); [|exact Hp].
    repeat constructor; discriminate.
  - apply (Hfresh "Prices" "compare prices" (mkPrompt 2 "News" "summarize the news")
             (mkPrompt 3 "Prices" "compare prices")
             (snd (addPrompt "Prices" "compare prices" (removePrompt 2 sample))));
      [| |reflexivity| |reflexivity].
    + split; [apply (bool_decide_unpack _); vm_compute; exact I|repeat constructor].
    + apply (list_elem_of_lookup_2 _ 0%nat). reflexivity.
    + intros q Hq.
      apply (proj1 (Forall_forall (fun q => content q <> "compare prices")
                      (prompts sample))); [|exact Hq].
      repeat constructor; discriminate.
Defined.

(** X4: in a storage whose ids are distinct, the prompt that [addPrompt]
    returns, new or already stored, is the one a lookup of its id finds
    afterwards. *)
Theorem addPrompt_then_getPromptById (st : FavoritesStorage) (t c : string) p st' :
  NoDup (map id (prompts st)) ->
  addPrompt t c st = (Some p, st') ->
  getPromptById (id p) st' = Some p.
Proof.
  intros Hnd Hadd. unfold addPrompt in Hadd.
  destruct (findByContent c (prompts st)) as [q|] eqn:E.
  - injection Hadd as <- <-. apply findByContent_Some in E as [Hq _].
    unfold getPromptById. revert Hnd Hq.
    induction (prompts st) as [|a ps IH]; intros Hnd Hq.
    + by apply elem_of_nil in Hq.
    + simpl in *. apply NoDup_cons in Hnd as [Ha Hnd].
      apply elem_of_cons in Hq as [->|Hq]; [by rewrite Z.eqb_refl|].
      destruct (Z.eqb_spec (id a) (id q)) as [Heq|_]; [|by apply IH].
      destruct Ha. rewrite Heq. apply list_elem_of_fmap. by exists q.
  - injection Hadd as <- <-. unfold getPromptById. simpl. by rewrite Z.eqb_refl.
Qed.

Lemma addPrompt_then_getPromptById_witness :
  getPromptById 3 (snd (addPrompt "Prices" "compare prices" sample))
  = Some (mkPrompt 3 "Prices" "compare prices").
Proof.
  apply (addPrompt_then_getPromptById sample "Prices" "compare prices"
           (mkPrompt 3 "Prices" "compare prices")
           (snd (addPrompt "Prices" "compare prices" sample))).
  - apply (bool_decide_unpack _). vm_compute. exact I.
  - reflexivity.
Defined.

(** *** Reordering *)

Lemma findIndex_Some i ps k :
  findIndex i ps = Some k ->
  exists p, ps !! k = Some p /\ id p = i.
Proof.
  unfold findIndex. destruct (list_find _ ps) as [[k' p]|] eqn:E; [|done].
  intros [= <-]. apply list_find_Some in E as (Hk & Hp & _). eauto.
Qed.

Lemma findIndex_None i ps :
  findIndex i ps = None <-> forall p, p ∈ ps -> id p <> i.
Proof.
  unfold findIndex. destruct (list_find _ ps) as [[k' p]|] eqn:E.
  - split; [done|]. intros H. apply list_find_Some in E as (Hk & Hp & _).
    destruct (H p); [|done]. by eapply list_elem_of_lookup_2.
  - split; [|done]. intros _. apply list_find_None in E.
    rewrite Forall_forall in E. exact E.
Qed.

Lemma renumber_lookup l k :
  renumber l !! k
  = (fun p => mkPrompt (Z.of_nat (length l) - Z.of_nat k) (title p) (content p))
      <$> l !! k.
Proof. unfold renumber. apply list_lookup_imap. Qed.

Lemma renumber_length l : length (renumber l) = length l.
Proof. unfold renumber. apply length_imap. Qed.

Lemma renumber_text l : map text (renumber l) = map text l.
Proof.
  apply list_eq. intros k. change (map ?f ?x) with (f <$> x).
  rewrite !list_lookup_fmap, renumber_lookup. by destruct (l !! k).
Qed.

Lemma renumber_wellNumbered l :
  wellNumbered (mkStorage (Z.of_nat (length l) + 1) (renumber l)).
Proof.
  split; simpl.
  - apply NoDup_alt. intros a b x Ha Hb.
    change (map ?f ?y) with (f <$> y) in *.
    rewrite list_lookup_fmap, renumber_lookup in Ha, Hb.
    destruct (l !! a) eqn:Ea; [|done]. destruct (l !! b) eqn:Eb; [|done].
    apply lookup_lt_Some in Ea, Eb. simpl in *. simplify_eq. lia.
  - apply Forall_forall. intros p Hp.
    apply list_elem_of_lookup in Hp as [k Hk]. rewrite renumber_lookup in Hk.
    destruct (l !! k) eqn:Ek; [|done]. simpl in Hk. simplify_eq. simpl. lia.
Qed.

Lemma spliceIn_delete k x (l : list FavoritePrompt) :
  k <= length l -> delete k (spliceIn k x l) = l.
Proof.
  intros Hk. unfold spliceIn.
  rewrite <- (length_take_le l k Hk) at 1.
  rewrite delete_middle. apply take_drop.
Qed.

Lemma spliceIn_lookup k x (l : list FavoritePrompt) :
  k <= length l -> spliceIn k x l !! k = Some x.
Proof.
  intros Hk. unfold spliceIn.
  apply list_lookup_middle. by rewrite length_take_le.
Qed.

Lemma spliceIn_length k x (l : list FavoritePrompt) :
  length (spliceIn k x l) = Datatypes.S (length l).
Proof.
  unfold spliceIn. rewrite length_app. simpl.
  rewrite <- (take_drop k l) at 3. rewrite length_app. lia.
Qed.

Lemma spliceIn_Permutation k x (l : list FavoritePrompt) :
  spliceIn k x l ≡ₚ x :: l.
Proof.
  unfold spliceIn. rewrite <- Permutation_middle. by rewrite take_drop.
Qed.

Lemma delete_text k (l : list FavoritePrompt) :
  map text (delete k l) = delete k (map text l).
Proof.
  revert k. induction l as [|a l IH]; intros [|k]; simpl; try done.
  f_equal. apply IH.
Qed.

(** X5: [reorderPrompts] leaves the storage alone when one of the two ids
    is not stored.  Otherwise the dragged prompt (the first one with that id)
    ends at the index the target had and the other prompts keep their order;
    titles and contents are the same ones as before; the ids are renumbered
    n, n-1, ..., 1 from the front, [nextId] becomes n + 1, and the ids are
    distinct and below [nextId], whatever they were before. *)
Theorem reorderPrompts_moves (st : FavoritesStorage) (d t : Z) :
  ((forall p, p ∈ prompts st -> id p <> d) \/ (forall p, p ∈ prompts st -> id p <> t) ->
   reorderPrompts d t st = st)
  /\ (forall sourceIndex targetIndex,
         findIndex d (prompts st) = Some sourceIndex ->
         findIndex t (prompts st) = Some targetIndex ->
         let st' := reorderPrompts d t st in
         let n := length (prompts st) in
         length (prompts st') = n
         /\ nextId st' = (Z.of_nat n + 1)%Z
         /\ (forall k p, prompts st' !! k = Some p -> id p = (Z.of_nat n - Z.of_nat k)%Z)
         /\ text <$> prompts st' !! targetIndex = text <$> prompts st !! sourceIndex
         /\ delete targetIndex (map text (prompts st'))
            = delete sourceIndex (map text (prompts st))
         /\ map text (prompts st') ≡ₚ map text (prompts st)
         /\ wellNumbered st').
Proof.
  split.
  - intros H. unfold reorderPrompts.
    destruct H as [H|H]; apply findIndex_None in H; rewrite H; [done|].
    by destruct (findIndex d (prompts st)).
  - intros si ti Hs Ht st' n. subst st'. unfold reorderPrompts. rewrite Hs, Ht.
    destruct (findIndex_Some _ _ _ Hs) as (moved & Hm & _).
    destruct (findIndex_Some _ _ _ Ht) as (target & Htg & _).
    rewrite Hm.
    assert (Hlen : length (delete si (prompts st)) = n - 1).
    { apply length_delete. eauto. }
    assert (Hn : 0 < n) by (apply lookup_lt_Some in Hm; lia).
    assert (Hti : ti <= length (delete si (prompts st))).
    { apply lookup_lt_Some in Htg. fold n in Htg. lia. }
    set (reordered := spliceIn ti moved (delete si (prompts st))).
    assert (Hrl : length reordered = n).
    { unfold reordered. rewrite spliceIn_length. lia. }
    cbn [prompts nextId]. rewrite Hrl.
    split; [by rewrite renumber_length|]. split; [done|]. split; [|split; [|split; [|split]]].
    + intros k p Hk. rewrite renumber_lookup in Hk.
      destruct (reordered !! k); [|done]. simpl in Hk. simplify_eq. simpl. by rewrite Hrl.
    + rewrite renumber_lookup. unfold reordered.
      rewrite (spliceIn_lookup _ _ _ Hti). reflexivity.
    + rewrite renumber_text, <- !delete_text. f_equal. by apply spliceIn_delete.
    + rewrite renumber_text. unfold reordered.
      rewrite spliceIn_Permutation. by rewrite <- (delete_Permutation _ _ _ Hm).
    + rewrite <- Hrl. apply renumber_wellNumbered.
Qed.

Lemma reorderPrompts_moves_witness :
  findIndex 1 (prompts sample) = Some 1
  /\ findIndex 2 (prompts sample) = Some 0
  /\ text <$> prompts (reorderPrompts 1 2 sample) !! 0 = Some ("Jobs", "find jobs").
Proof.
  split; [reflexivity|]. split; [reflexivity|].
  exact (proj1 (proj2 (proj2 (proj2
           (proj2 (reorderPrompts_moves sample 1 2) 1 0 eq_refl eq_refl))))).
Defined.

(** *** The numbering of the prompts *)

Lemma wellNumbered_ids st st' :
  map id (prompts st') = map id (prompts st) ->
  nextId st' = nextId st ->
  wellNumbered st -> wellNumbered st'.
Proof.
  unfold wellNumbered. intros Hi Hn [Hd Hlt]. rewrite Hi, Hn. split; [done|].
  rewrite Forall_forall in Hlt. apply Forall_forall. intros p Hp.
  assert (Hin : id p ∈ map id (prompts st')).
  { change (id p ∈ id <$> prompts st'). by apply list_elem_of_fmap_2. }
  rewrite Hi in Hin. change (id p ∈ id <$> prompts st) in Hin.
  apply list_elem_of_fmap in Hin as (q & -> & Hq). by apply Hlt.
Qed.

Lemma updateWith_wellNumbered change i st :
  (forall p, id (change p) = id p) ->
  wellNumbered st -> wellNumbered (snd (updateWith change i st)).
Proof.
  intros Hid Hw. unfold updateWith.
  pose proof (mapUpdated_fst change i (prompts st) None) as Hf.
  destruct (mapUpdated change i (prompts st) None) as [l [u|]]; simpl in *; [|done].
  apply (wellNumbered_ids st); [|done|done]. simpl. rewrite Hf, map_map.
  apply map_ext. intros a. by destruct (id a =? i)%Z.
Qed.

Lemma getAllPrompts_state st :
  snd (getAllPrompts st)
  = if (length (prompts st) =? 0)%nat && (nextId st =? 1)%Z
    then mkStorage 5 (prompts (snd (getAllPrompts initialState)))
    else st.
Proof.
  unfold getAllPrompts.
  destruct (Nat.eqb_spec (length (prompts st)) 0) as [Hl|Hl]; [|done].
  destruct (Z.eqb_spec (nextId st) 1) as [Hn|Hn]; [|done]. simpl.
  destruct st as [n [|p ps]]; [|done]. simpl in Hn. subst n. reflexivity.
Qed.

(** X6: the operations keep the numbering sound, as long as [nextId] can
    be incremented.  The initial state has distinct ids below [nextId].
    From storage of that kind, [updatePrompt], [updatePromptTitle],
    [removePrompt], [reorderPrompts] and the seeding done by [getAllPrompts]
    leave storage of that kind, and so does [addPrompt] when the content is
    already stored or [nextId] is an integer from -2^53 to 2^53 - 1.  At
    2^53 it does not: the prompt added gets the id 2^53 and [nextId] stays
    2^53, so the id is not below [nextId] any more. *)
Theorem numbering_kept (st : FavoritesStorage) :
  wellNumbered initialState
  /\ (wellNumbered st ->
      (forall t c,
          (- 2 ^ 53 <= nextId st < 2 ^ 53)%Z
          \/ (exists p, p ∈ prompts st /\ content p = c) ->
          wellNumbered (snd (addPrompt t c st)))
      /\ (forall t c,
             nextId st = (2 ^ 53)%Z ->
             (forall p, p ∈ prompts st -> content p <> c) ->
             ~ wellNumbered (snd (addPrompt t c st)))
      /\ (forall i t c, wellNumbered (snd (updatePrompt i t c st)))
      /\ (forall i t, wellNumbered (snd (updatePromptTitle i t st)))
      /\ (forall i, wellNumbered (removePrompt i st))
      /\ (forall d t, wellNumbered (reorderPrompts d t st))
      /\ wellNumbered (snd (getAllPrompts st))).
Proof.
  split.
  { split; simpl; [apply NoDup_nil_2|constructor]. }
  intros Hw. split; [|split; [|split; [|split; [|split; [|split]]]]].
  - intros t c Hcase. unfold addPrompt.
    destruct (findByContent c (prompts st)) as [q|] eqn:E; [done|].
    destruct Hcase as [Hsafe|(p & Hp & Hc)].
    2:{ by destruct (proj1 (findByContent_None _ _) E p Hp). }
    cbn [snd]. unfold prepend. cbv zeta. rewrite (add_one_exact _ Hsafe).
    destruct Hw as [Hd Hlt]. split; cbn [prompts nextId map].
    + apply NoDup_cons. split; [|done]. intros Hin.
      change (map id (prompts st)) with (id <$> prompts st) in Hin.
      apply list_elem_of_fmap in Hin as (p & Hp & Hin).
      rewrite Forall_forall in Hlt. specialize (Hlt p Hin). cbn [id] in Hp. lia.
    + constructor; [cbn [id]; lia|].
      eapply Forall_impl; [exact Hlt|]. cbn beta. intros p. lia.
  - intros t c Hn Hnew [_ Hlt]. unfold addPrompt in Hlt.
    rewrite (proj2 (findByContent_None c (prompts st))) in Hlt by done.
    cbn [snd] in Hlt. unfold prepend in Hlt. cbv zeta in Hlt.
    cbn [prompts nextId] in Hlt. rewrite Hn in Hlt.
    inversion Hlt as [|? ? Hhead _]; subst. cbn [id] in Hhead.
    vm_compute in Hhead. discriminate Hhead.
  - intros i t c. by apply updateWith_wellNumbered.
  - intros i t. by apply updateWith_wellNumbered.
  - intros i. destruct Hw as [Hd Hlt]. split; simpl.
    + eapply sublist_NoDup; [exact Hd|].
      change (map id ?l) with (id <$> l). apply fmap_sublist, sublist_filter.
    + apply Forall_forall. intros p [_ Hp]%list_elem_of_filter.
      rewrite Forall_forall in Hlt. by apply Hlt.
  - intros d t. unfold reorderPrompts.
    destruct (findIndex d (prompts st)) as [si|]; [|done].
    destruct (findIndex t (prompts st)) as [ti|]; [|done].
    destruct (prompts st !! si) as [moved|]; [|done].
    apply renumber_wellNumbered.
  - rewrite getAllPrompts_state. destruct (_ && _); [|done].
    split; simpl.
    + apply (bool_decide_unpack _). vm_compute. exact I.
    + repeat constructor.
Qed.

Lemma numbering_kept_witness :
  wellNumbered sample
  /\ (- 2 ^ 53 <= nextId sample < 2 ^ 53)%Z
  /\ wellNumbered (removePrompt 1 (snd (addPrompt "Prices" "compare prices" sample)))
  /\ ~ wellNumbered (snd (addPrompt "Prices" "compare prices" (mkStorage (2 ^ 53) []))).
Proof.
  assert (Hs : wellNumbered sample).
  { split; [apply (bool_decide_unpack _); vm_compute; exact I|repeat constructor]. }
  assert (Hsafe : (- 2 ^ 53 <= nextId sample < 2 ^ 53)%Z)
    by (split; [discriminate|reflexivity]).
  split; [exact Hs|]. split; [exact Hsafe|]. split.
  - destruct (proj2 (numbering_kept sample) Hs) as (Hadd & _).
    destruct (proj2 (numbering_kept (snd (addPrompt "Prices" "compare prices" sample)))
                (Hadd "Prices" "compare prices" (or_introl Hsafe)))
      as (_ & _ & _ & _ & Hrem & _).
    apply Hrem.
  - assert (Hfull : wellNumbered (mkStorage (2 ^ 53) [])).
    { split; [apply NoDup_nil_2|constructor]. }
    destruct (proj2 (numbering_kept (mkStorage (2 ^ 53) [])) Hfull) as (_ & Hstuck & _).
    apply Hstuck; [reflexivity|]. intros p Hp. by apply elem_of_nil in Hp.
Defined.

(** *** Listing *)

Lemma insertById_Permutation x l : insertById x l ≡ₚ x :: l.
Proof.
  induction l as [|y l IH]; simpl; [done|].
  destruct (id y <=? id x)%Z; [done|]. rewrite IH. apply Permutation_swap.
Qed.

Lemma sortByIdDescending_Permutation l : sortByIdDescending l ≡ₚ l.
Proof.
  induction l as [|x l IH]; simpl; [done|].
  rewrite insertById_Permutation. by rewrite IH.
Qed.

Lemma insertById_sorted x l :
  StronglySorted (fun a b => (id b <= id a)%Z) l ->
  StronglySorted (fun a b => (id b <= id a)%Z) (insertById x l).
Proof.
  induction 1 as [|y l Hs IH Hy]; simpl.
  - repeat constructor.
  - destruct (Z.leb_spec (id y) (id x)) as [Hle|Hgt].
    + constructor; [by constructor|]. constructor; [done|].
      eapply Forall_impl; [exact Hy|]. simpl. intros z. lia.
    + constructor; [exact IH|].
      rewrite insertById_Permutation. constructor; [lia|done].
Qed.

Lemma sortByIdDescending_sorted l :
  StronglySorted (fun a b => (id b <= id a)%Z) (sortByIdDescending l).
Proof.
  induction l as [|x l IH]; simpl; [constructor|]. by apply insertById_sorted.
Qed.

(** X7: [getAllPrompts] seeds the four default prompts only into storage
    that is empty with [nextId] 1, giving them the ids 1 to 4 in template
    order and setting [nextId] to 5; any other storage, also one emptied by
    removals, is left as it is.  What it returns is the stored prompts in
    descending order of id, each exactly once. *)
Theorem getAllPrompts_lists (st : FavoritesStorage) :
  (prompts st <> [] \/ nextId st <> 1%Z -> snd (getAllPrompts st) = st)
  /\ (prompts st = [] -> nextId st = 1%Z ->
      nextId (snd (getAllPrompts st)) = 5%Z
      /\ map id (prompts (snd (getAllPrompts st))) = [4; 3; 2; 1]%Z
      /\ map text (prompts (snd (getAllPrompts st)))
         = rev defaultFavoritePrompts)
  /\ fst (getAllPrompts st) ≡ₚ prompts (snd (getAllPrompts st))
  /\ StronglySorted (fun a b => (id b <= id a)%Z) (fst (getAllPrompts st))
  /\ snd (getAllPrompts (snd (getAllPrompts st))) = snd (getAllPrompts st).
Proof.
  split; [|split; [|split; [|split]]].
  - intros H. rewrite getAllPrompts_state.
    destruct (Nat.eqb_spec (length (prompts st)) 0) as [Hl|Hl]; [|done].
    destruct (Z.eqb_spec (nextId st) 1) as [Hn|Hn]; [|done].
    destruct H as [H|H]; [|done]. destruct (prompts st); [done|discriminate Hl].
  - intros Hp Hn. rewrite getAllPrompts_state, Hp, Hn. simpl. done.
  - unfold getAllPrompts. destruct (_ && _); cbv zeta; cbn [fst snd];
      apply sortByIdDescending_Permutation.
  - unfold getAllPrompts. destruct (_ && _); cbv zeta; cbn [fst snd];
      apply sortByIdDescending_sorted.
  - rewrite (getAllPrompts_state st).
    destruct (_ && _) eqn:E; [reflexivity|].
    rewrite getAllPrompts_state, E. reflexivity.
Qed.

Lemma getAllPrompts_lists_witness :
  snd (getAllPrompts (mkStorage 5 [])) = mkStorage 5 []
  /\ nextId (snd (getAllPrompts initialState)) = 5%Z.
Proof.
  destruct (getAllPrompts_lists (mkStorage 5 [])) as (Hkeep & _).
  destruct (getAllPrompts_lists initialState) as (_ & Hseed & _).
  split.
  - apply Hkeep. right. discriminate.
  - exact (proj1 (Hseed eq_refl eq_refl)).
Defined.

End FavoritesStoreFacts.

(** ** The order in which the prompts are listed *)

Section FavoritesListingFacts.
Import Favorites FavoritesStore.

Lemma sorted_by_lookup {A} (R : A -> A -> Prop) (l : list A) :
  (forall i j a b, i < j -> l !! i = Some a -> l !! j = Some b -> R a b) ->
  StronglySorted R l.
Proof.
  induction l as [|x l IH]; intros H; [constructor|]. constructor.
  - apply IH. intros i j a b Hij Ha Hb.
    apply (H (Datatypes.S i) (Datatypes.S j)); [lia|done|done].
  - apply Forall_lookup. intros k b Hb.
    apply (H 0 (Datatypes.S k)); [lia|done|done].
Qed.

Lemma insertById_front x l :
  (forall y, head l = Some y -> (id y <= id x)%Z) -> insertById x l = x :: l.
Proof.
  destruct l as [|y l]; [done|]. intros H. cbn [insertById].
  by rewrite (proj2 (Z.leb_le _ _) (H y eq_refl)).
Qed.

Lemma sortByIdDescending_sorted_id l :
  StronglySorted (fun a b => (id b < id a)%Z) l -> sortByIdDescending l = l.
Proof.
  induction 1 as [|x l Hs IH Hx]; [done|].
  unfold sortByIdDescending in *. cbn [foldr]. rewrite IH.
  apply insertById_front. intros y Hy. destruct l as [|z l]; [done|].
  injection Hy as <-. inversion Hx; subst. lia.
Qed.

Lemma renumber_descending l :
  StronglySorted (fun a b => (id b < id a)%Z) (renumber l).
Proof.
  apply sorted_by_lookup. intros i j a b Hij Ha Hb.
  rewrite renumber_lookup in Ha, Hb.
  destruct (l !! i); [|done]. destruct (l !! j); [|done].
  simpl in *. simplify_eq. simpl. lia.
Qed.

Lemma getAllPrompts_stored st :
  prompts st <> [] ->
  getAllPrompts st = (sortByIdDescending (prompts st), st).
Proof.
  intros H. unfold getAllPrompts. by destruct (prompts st).
Qed.

(** X23: the list shown is the stored order after a reordering, and a new
    prompt comes first.  After [reorderPrompts] has moved a prompt,
    [getAllPrompts] returns the prompts in exactly the stored order and
    changes nothing.  After [addPrompt] has added a prompt to storage whose
    ids are below [nextId], [getAllPrompts] returns the new prompt followed
    by the others in descending order of id; this holds for empty storage
    too, which is then not seeded with the default prompts. *)
Theorem listing_follows_order (st : FavoritesStorage) :
  (forall d t sourceIndex targetIndex,
      findIndex d (prompts st) = Some sourceIndex ->
      findIndex t (prompts st) = Some targetIndex ->
      getAllPrompts (reorderPrompts d t st)
      = (prompts (reorderPrompts d t st), reorderPrompts d t st))
  /\ (forall t c p st',
         wellNumbered st ->
         (forall q, q ∈ prompts st -> content q <> c) ->
         addPrompt t c st = (Some p, st') ->
         getAllPrompts st' = (p :: sortByIdDescending (prompts st), st')).
Proof.
  split.
  - intros d t si ti Hs Ht. unfold reorderPrompts. rewrite Hs, Ht.
    destruct (findIndex_Some _ _ _ Hs) as (moved & Hm & _). rewrite Hm.
    set (reordered := spliceIn ti moved (delete si (prompts st))).
    assert (Hne : renumber reordered <> []).
    { intros Hnil. apply (f_equal length) in Hnil.
      rewrite renumber_length in Hnil. unfold reordered in Hnil.
      rewrite spliceIn_length in Hnil. simpl in Hnil. lia. }
    rewrite getAllPrompts_stored by done. cbn [prompts].
    by rewrite (sortByIdDescending_sorted_id _ (renumber_descending reordered)).
  - intros t c p st' [_ Hlt] Hc Hadd. unfold addPrompt in Hadd.
    rewrite (proj2 (findByContent_None c (prompts st))) in Hadd by done.
    injection Hadd as <- <-. rewrite getAllPrompts_stored by done.
    cbn [prompts prepend]. f_equal.
    unfold sortByIdDescending. cbn [foldr]. apply insertById_front.
    intros y Hy. cbn [id].
    assert (Hin : y ∈ prompts st).
    { rewrite <- (sortByIdDescending_Permutation (prompts st)).
      unfold sortByIdDescending. destruct (foldr insertById [] (prompts st)); [done|].
      injection Hy as <-. by left. }
    rewrite Forall_forall in Hlt. specialize (Hlt y Hin). lia.
Qed.

Lemma listing_follows_order_witness :
  getAllPrompts (reorderPrompts 1 2 sample)
  = (prompts (reorderPrompts 1 2 sample), reorderPrompts 1 2 sample)
  /\ fst (getAllPrompts (snd (addPrompt "Prices" "compare prices" initialState)))
     = [mkPrompt 1 "Prices" "compare prices"].
Proof.
  split.
  - apply (proj1 (listing_follows_order sample) 1%Z 2%Z 1 0); reflexivity.
  - rewrite (proj2 (listing_follows_order initialState) "Prices" "compare prices"
               (mkPrompt 1 "Prices" "compare prices")
               (snd (addPrompt "Prices" "compare prices" initialState))).
    + reflexivity.
    + split; [apply NoDup_nil_2|constructor].
    + intros q Hq. by apply elem_of_nil in Hq.
    + reflexivity.
Defined.

End FavoritesListingFacts.

(** ** The action registry *)

Section RegistryFacts.
Context {World Args : Type}.
Implicit Types actions : gmap string (Action World Args).

Lemma registered_from (l : list (Action World Args)) actions nm :
  foldl (fun acts a => registerAction a acts) actions l !! nm
  = match last (filter (fun a => name a = nm) l) with
    | Some a => Some a
    | None => actions !! nm
    end.
Proof.
  revert actions. induction l as [|a l IH]; intros actions; [done|].
  cbn [foldl]. rewrite IH, filter_cons. unfold registerAction.
  destruct (decide (name a = nm)) as [Heq|Hne].
  - rewrite last_cons, lookup_insert. destruct (last _); [done|].
    by rewrite decide_True.
  - by rewrite lookup_insert_ne.
Qed.

Lemma newRegistry_lookup (l : list (Action World Args)) nm :
  newRegistry l !! nm = last (filter (fun b => name b = nm) l).
Proof.
  unfold newRegistry. rewrite registered_from, lookup_empty. by destruct (last _).
Qed.

Lemma newRegistry_lookup_None (l : list (Action World Args)) nm :
  (forall b, b ∈ l -> name b <> nm) -> newRegistry l !! nm = None.
Proof.
  intros Hno. rewrite newRegistry_lookup.
  destruct (last _) as [b|] eqn:E; [|done].
  apply last_Some in E as [front E].
  assert (Hin : b ∈ filter (fun b => name b = nm) l).
  { rewrite E. apply elem_of_app. right. by left. }
  apply list_elem_of_filter in Hin as [Hn Hin]. by destruct (Hno b Hin).
Qed.

Lemma getAction_Registered nm actions b :
  getAction nm actions = Registered b <-> actions !! nm = Some b.
Proof.
  unfold getAction. destruct (actions !! nm) as [a|].
  - split; by intros [= ->].
  - split; [|discriminate]. destruct (bool_decide _); [discriminate|].
    destruct (_ && _); discriminate.
Qed.

Lemma getAction_own_None nm actions :
  actions !! nm = None -> forall b, getAction nm actions <> Registered b.
Proof. intros H b Hb. apply getAction_Registered in Hb. congruence. Qed.

(** X8: the registry built from a list of actions answers a name with the
    last action of the list that carries it, which is an action of that
    name taken from the list.  A name that no action of the list carries is
    answered with an inherited member, not an action, when it is one of the
    names of [Object.prototype], and otherwise with [undefined], provided no
    action of the list is named [__proto__].  Registering an action makes
    its name answer with it, and touches no other name unless the action is
    named [__proto__]; unregistering a name touches no other name, leaves no
    registered action under it (except under [__proto__], which it leaves as
    it is), and changes nothing when the name held no registered action. *)
Theorem registry_lookup (l : list (Action World Args)) (a : Action World Args)
    (nm : string) actions :
  (forall b, last (filter (fun b => name b = nm) l) = Some b ->
             getAction nm (newRegistry l) = Registered b)
  /\ (forall b, getAction nm (newRegistry l) = Registered b -> name b = nm /\ b ∈ l)
  /\ ((forall b, b ∈ l -> name b <> nm) ->
      (nm ∈ objectPrototypeNames -> getAction nm (newRegistry l) = Inherited)
      /\ (nm ∉ objectPrototypeNames ->
          (forall b, b ∈ l -> name b <> "__proto__") ->
          getAction nm (newRegistry l) = Undefined))
  /\ getAction (name a) (registerAction a actions) = Registered a
  /\ (nm <> name a ->
      (name a <> "__proto__" ->
       getAction nm (registerAction a actions) = getAction nm actions)
      /\ getAction (name a) (unregisterAction nm actions) = getAction (name a) actions)
  /\ (nm <> "__proto__" ->
      forall b, getAction nm (unregisterAction nm actions) <> Registered b)
  /\ unregisterAction "__proto__" actions = actions
  /\ ((forall b, getAction nm actions <> Registered b) ->
      unregisterAction nm actions = actions).
Proof.
  split; [|split; [|split; [|split; [|split; [|split; [|split]]]]]].
  - intros b Hb. apply getAction_Registered. by rewrite newRegistry_lookup.
  - intros b Hb. apply getAction_Registered in Hb. rewrite newRegistry_lookup in Hb.
    apply last_Some in Hb as [front Hb].
    assert (Hin : b ∈ filter (fun b => name b = nm) l).
    { rewrite Hb. apply elem_of_app. right. by left. }
    apply list_elem_of_filter in Hin as [Hn Hin]. done.
  - intros Hno. unfold getAction. rewrite (newRegistry_lookup_None l nm Hno). split.
    + intros Hin. by rewrite bool_decide_eq_true_2.
    + intros Hout Hproto. rewrite bool_decide_eq_false_2 by done.
      rewrite (newRegistry_lookup_None l "__proto__" Hproto).
      rewrite (bool_decide_eq_false_2 (is_Some None)); [done|]. by intros [? ?].
  - apply getAction_Registered. unfold registerAction.
    by rewrite lookup_insert, decide_True.
  - intros Hne. split.
    + intros Hproto. unfold getAction, registerAction.
      by rewrite !lookup_insert_ne.
    + unfold unregisterAction. destruct (String.eqb_spec nm "__proto__") as [->|Hp]; [done|].
      unfold getAction. rewrite lookup_delete_ne by done.
      by rewrite (lookup_delete_ne actions nm "__proto__").
  - intros Hp. apply getAction_own_None. unfold unregisterAction.
    destruct (String.eqb_spec nm "__proto__") as [->|_]; [done|].
    by rewrite lookup_delete, decide_True.
  - reflexivity.
  - intros Hno. unfold unregisterAction.
    destruct (String.eqb nm "__proto__"); [done|]. apply delete_id.
    destruct (actions !! nm) as [b|] eqn:E; [|done].
    destruct (Hno b). by apply getAction_Registered.
Qed.

End RegistryFacts.

Lemma registry_lookup_witness :
  (forall b, b ∈ [Scripted.run; Scripted.click] -> name b <> "scroll")
  /\ getAction "scroll" Scripted.registry = Undefined
  /\ getAction "toString" Scripted.registry = Inherited
  /\ getAction "click" (unregisterAction "run" Scripted.registry)
     = Registered Scripted.click.
Proof.
  assert (Hno : forall nm, nm <> "run" -> nm <> "click" ->
                forall b, b ∈ [Scripted.run; Scripted.click] -> name b <> nm).
  { intros nm H1 H2 b Hb.
    apply (proj1 (Forall_forall (fun b => name b <> nm)
                    [Scripted.run; Scripted.click])); [|exact Hb].
    repeat constructor; cbn; congruence. }
  assert (Hscroll := Hno "scroll" ltac:(discriminate) ltac:(discriminate)).
  destruct (registry_lookup [Scripted.run; Scripted.click] Scripted.click "run"
              Scripted.registry) as (_ & _ & _ & _ & Hother & _).
  destruct (registry_lookup [Scripted.run; Scripted.click] Scripted.click "scroll"
              Scripted.registry) as (_ & _ & Hnone & _).
  destruct (registry_lookup [Scripted.run; Scripted.click] Scripted.click "toString"
              Scripted.registry) as (_ & _ & Hproto & _).
  split; [exact Hscroll|]. split; [|split].
  - apply (proj2 (Hnone Hscroll)).
    + intros Hin. apply (bool_decide_eq_true_2 _) in Hin. vm_compute in Hin.
      discriminate Hin.
    + apply Hno; discriminate.
  - apply (proj1 (Hproto (Hno "toString" ltac:(discriminate) ltac:(discriminate)))).
    apply (bool_decide_unpack _). vm_compute. exact I.
  - change "click" with (name Scripted.click).
    rewrite (proj2 (Hother ltac:(discriminate))). reflexivity.
Defined.

(** ** What the boolean-like fields accept *)

Section SchemaAcceptance.
Import JsString Schemas.

Lemma lowerAscii_idempotent c : lowerAscii (lowerAscii c) = lowerAscii c.
Proof. destruct c as [[|] [|] [|] [|] [|] [|] [|] [|]]; reflexivity. Qed.

Lemma toLowerCase_idempotent s : toLowerCase (toLowerCase s) = toLowerCase s.
Proof.
  induction s as [|c s IH]; [done|]. cbn [toLowerCase].
  by rewrite lowerAscii_idempotent, IH.
Qed.

Lemma parseField_union (f : BoolField) :
  parseField f = zUnion zBoolean (zStringTransform booleanString).
Proof. by destruct f. Qed.

Lemma booleanString_Ok s b :
  booleanString s = Ok b <-> toLowerCase s = (if b then "true" else "false").
Proof.
  unfold booleanString.
  destruct (String.eqb_spec (toLowerCase s) "true") as [->|Ht].
  { destruct b; split; intros H; try done; discriminate. }
  destruct (String.eqb_spec (toLowerCase s) "false") as [->|Hf].
  { destruct b; split; intros H; try done; discriminate. }
  destruct b; split; intros H; try done.
Qed.

(** X9: a boolean-like field accepts a value exactly when it is a boolean
    or a string whose lower-case form is "true" or "false"; a value that is
    neither a boolean nor a string (undefined, null, a number) is refused by
    both members of the union, which is a validation issue and not the
    error thrown for an unknown string.  The three fields treat every value
    alike, and the outcome for a string depends on its lower-case form
    only. *)
Theorem boolean_like_acceptance (f g : BoolField) (v : JsValue) :
  (forall b : bool,
      parseField f v = Ok b
      <-> v = JsBoolean b
          \/ exists s, v = JsStr s /\ toLowerCase s = (if b then "true" else "false"))
  /\ (parseField f v = InvalidInput
      <-> (forall b, v <> JsBoolean b) /\ (forall s, v <> JsStr s))
  /\ (forall m, parseField f v = Thrown m ->
                m = "Invalid boolean string" /\ exists s, v = JsStr s)
  /\ parseField f v = parseField g v
  /\ (forall s, parseField f (JsStr (toLowerCase s)) = parseField f (JsStr s)).
Proof.
  rewrite !parseField_union. split; [|split; [|split; [|split]]].
  - intros b. destruct v as [| |b'|n|s]; simpl; try (split; [discriminate|]);
      try (intros [H|(s' & H & _)]; discriminate).
    + split; [intros [= ->]; by left|]. intros [[= ->]|(s & H & _)]; [done|discriminate].
    + unfold zUnion, zStringTransform. simpl.
      destruct (booleanString s) as [b0| |m] eqn:E.
      * split.
        -- intros [= ->]. right. exists s. split; [done|]. by apply booleanString_Ok.
        -- intros [H|(s' & [= <-] & H)]; [discriminate|].
           apply booleanString_Ok in H. congruence.
      * split; [discriminate|]. intros [H|(s' & [= <-] & H)]; [discriminate|].
        apply booleanString_Ok in H. congruence.
      * split; [discriminate|]. intros [H|(s' & [= <-] & H)]; [discriminate|].
        apply booleanString_Ok in H. congruence.
  - destruct v as [| |b'|n|s]; simpl; try (split; [by intros _; split|done]).
    + split; [discriminate|]. intros [H _]. by destruct (H b').
    + unfold zUnion, zStringTransform, booleanString. simpl.
      split; [|intros [_ H]; by destruct (H s)].
      destruct (String.eqb _ "true"); [discriminate|].
      destruct (String.eqb _ "false"); discriminate.
  - intros m. destruct v as [| |b'|n|s]; simpl; try discriminate.
    unfold zUnion, zStringTransform, booleanString. simpl.
    destruct (String.eqb _ "true"); [discriminate|].
    destruct (String.eqb _ "false"); [discriminate|].
    intros [= <-]. eauto.
  - reflexivity.
  - intros s. unfold zUnion, zStringTransform, booleanString. simpl.
    by rewrite toLowerCase_idempotent.
Qed.

End SchemaAcceptance.

(** ** The last line of an error text *)

Section ErrorTextFacts.
Import JsString.

Lemma append_cons c s t : String c s +:+ t = String c (s +:+ t).
Proof. reflexivity. Qed.

Lemma append_empty_l t : "" +:+ t = t.
Proof. reflexivity. Qed.

Lemma append_empty_r s : s +:+ "" = s.
Proof. induction s as [|c s IH]; [done|]. by rewrite append_cons, IH. Qed.

Lemma append_assoc_string a b c : (a +:+ b) +:+ c = a +:+ (b +:+ c).
Proof. induction a as [|x a IH]; [done|]. by rewrite !append_cons, IH. Qed.

Lemma lastLineFrom_cases s :
  forall acc,
    (~ In lineFeedChar (list_ascii_of_string s)
     /\ lastLineFrom acc s = acc +:+ s)
    \/ (exists front,
           s = front +:+ String lineFeedChar (lastLineFrom acc s)
           /\ ~ In lineFeedChar (list_ascii_of_string (lastLineFrom acc s))).
Proof.
  induction s as [|c s IH]; intros acc.
  - left. split; [by intros []|]. cbn [lastLineFrom]. by rewrite append_empty_r.
  - cbn [lastLineFrom]. fold lineFeedChar.
    destruct (Ascii.eqb_spec c lineFeedChar) as [->|Hc].
    + right. destruct (IH "") as [[Hno Heq]|(front & Heq & Hno)].
      * exists "". rewrite Heq, !append_empty_l. done.
      * exists (String lineFeedChar front). by rewrite append_cons, <- Heq.
    + destruct (IH (acc +:+ String c "")) as [[Hno Heq]|(front & Heq & Hno)].
      * left. split; [simpl; intros [H|H]; [by destruct Hc|done]|].
        by rewrite Heq, append_assoc_string.
      * right. exists (String c front). by rewrite append_cons, <- Heq.
Qed.

Lemma lastLine_text (text : string) :
  ~ In lineFeedChar (list_ascii_of_string (lastLine text))
  /\ (~ In lineFeedChar (list_ascii_of_string text) -> lastLine text = text)
  /\ (In lineFeedChar (list_ascii_of_string text) ->
      exists front, text = front +:+ String lineFeedChar (lastLine text)).
Proof.
  unfold lastLine.
  destruct (lastLineFrom_cases text "") as [[Hno Heq]|(front & Heq & Hno)].
  - split; [by rewrite Heq|]. split; [by intros _|]. intros Hin. by destruct Hno.
  - split; [exact Hno|]. split; [|by intros _; exists front].
    intros Hnone. destruct Hnone. rewrite Heq at 1.
    clear. induction front as [|c front IH]; [by left|].
    rewrite append_cons. by right.
Qed.

Context {World Args Brain BrowserState : Type}.
Variable X : Collaborators World Args Brain BrowserState.

(** X10: what [addStateMessageToMemory] puts into the memory for the error
    of a result kept for memory.  The error text is trimmed first; the
    message is 'Action error: ' followed by the last line of the trimmed
    text, and it is the last message sent for the result.  That line holds
    no line feed: it is the whole trimmed text when that has no line feed,
    and otherwise what follows its last line feed.  A call that finds the
    result alone in the buffer, with no state message pending, sends the
    messages of the result and then, if it could be built, the state
    message. *)
Theorem last_line_of_error (r : ActionResult.t) (errorText : string) :
  ActionResult.includeInMemory r = true ->
  ActionResult.error r = Some errorText ->
  errorText <> "" ->
  let line := lastLine (trim errorText) in
  last (memoryMessages r) = Some (HumanMessage (Text ("Action error: " +:+ line)))
  /\ ~ In lineFeedChar (list_ascii_of_string line)
  /\ (~ In lineFeedChar (list_ascii_of_string (trim errorText)) ->
      line = trim errorText)
  /\ (In lineFeedChar (list_ascii_of_string (trim errorText)) ->
      exists front, trim errorText = front +:+ String lineFeedChar line)
  /\ (forall (ctx : TaskContext World) res ctx1,
         stateMessageAdded ctx = false ->
         actionResults ctx = [r] ->
         addStateMessageToMemory X ctx = (res, ctx1) ->
         let told :=
           foldl (fun memory msg =>
                    MessageManager.addMessageWithTokens (estimateTokens X)
                      (maxInputTokens X) msg memory)
             (messageManager ctx) (memoryMessages r) in
         messageManager ctx1 = told
         \/ exists st, messageManager ctx1 = MessageManager.addStateMessage st told).
Proof.
  intros Hmem Herr Hne line.
  destruct (lastLine_text (trim errorText)) as (Hno & Hwhole & Hcut).
  split; [|split; [exact Hno|split; [exact Hwhole|split; [exact Hcut|]]]].
  - unfold memoryMessages. rewrite Hmem, Herr. cbn [truthy default from_option id].
    destruct (String.eqb_spec errorText "") as [->|_]; [done|]. cbn [negb].
    by destruct (truthy (ActionResult.extractedContent r)).
  - intros ctx res ctx1 Hflag Hbuf Hrun.
    destruct (addStateMessageToMemory_messages X ctx res ctx1 Hflag Hrun)
      as [(_ & st & Hm)|(e & _ & Hm)]; rewrite Hbuf in Hm;
      cbn [map concat] in Hm; rewrite app_nil_r in Hm.
    + right. by exists st.
    + by left.
Qed.

End ErrorTextFacts.

Lemma last_line_of_error_witness :
  let errorText := "a" +:+ lineFeed +:+ "b" +:+ lineFeed in
  let r := ActionResult.mk None (Some errorText) false true in
  errorText <> ""
  /\ last (memoryMessages r) = Some (HumanMessage (Text "Action error: b"))
  /\ memoryMessages (ActionResult.mk None (Some " x ") false true)
     = [HumanMessage (Text "Action error: x")].
Proof.
  intros errorText r.
  assert (Hne : errorText <> "") by discriminate.
  split; [exact Hne|]. split.
  - exact (proj1 (last_line_of_error Scripted.collaborators r errorText
                    eq_refl eq_refl Hne)).
  - reflexivity.
Defined.

(** ** The planner's and the validator's steps *)

Section ReviewerFacts.
Context {World Args Brain BrowserState : Type}.
Variable X : Collaborators World Args Brain BrowserState.
Implicit Types ctx : TaskContext World.

Lemma reclassify_fatal agent e0 e :
  reclassify X agent e0 = Some e -> fatal e = true.
Proof.
  unfold reclassify.
  destruct (isAuthenticationError X e0); [by intros [= <-]|].
  destruct (isForbiddenError X e0); [by intros [= <-]|].
  destruct (isAbortedError X e0); [by intros [= <-]|done].
Qed.

(** The [try] block of the planner, by what its model answers. *)
Lemma plannerTry_spec ctx :
  plannerTry X ctx
  = let started := events ctx ++ [mkEvent PLANNER STEP_START "Planning..."] in
    match plannerInvoke X
            (plannerMessages X (options ctx)
               (MessageManager.getMessages (messageManager ctx)))
            (world ctx) with
    | (Normal (Some output), w) =>
        (Normal (AgentOutput.mk "planner" (Some output) None),
         set_events (started ++ [mkEvent PLANNER STEP_OK (next_steps output)])
           (set_world w ctx))
    | (Normal None, w) =>
        (Throw (Error "Error" "Failed to validate planner output"),
         set_events started (set_world w ctx))
    | (Throw e, w) => (Throw e, set_events started (set_world w ctx))
    end.
Proof.
  unfold plannerTry, plannerMessages, bind, emitEvent, modify, gets, await, ret, throw.
  cbn. destruct (plannerInvoke X _ (world ctx)) as [[[output|]|e] w]; reflexivity.
Qed.

Lemma plannerCatch_spec e ctx :
  plannerCatch X e ctx
  = match reclassify X "Planner" e with
    | Some fatalError => (Throw fatalError, ctx)
    | None =>
        (Normal (AgentOutput.mk "planner" None (Some (errorMessageOf e))),
         set_events
           (events ctx
            ++ [mkEvent PLANNER STEP_FAIL ("Planning failed: " +:+ errorMessageOf e)])
           ctx)
    end.
Proof. unfold plannerCatch. by destruct (reclassify X "Planner" e). Qed.

Lemma plannerExecute_spec ctx :
  plannerExecute X ctx
  = match getSettings X (world ctx) with
    | (Normal _, w) =>
        match plannerTry X (set_world w ctx) with
        | (Normal out, c) => (Normal out, c)
        | (Throw e, c) => plannerCatch X e c
        end
    | (Throw e, w) => (Throw e, set_world w ctx)
    end.
Proof.
  unfold plannerExecute, bind. rewrite initializeAdvancedModeCheck_spec.
  destruct (getSettings X (world ctx)) as [[enabled|e] w]; reflexivity.
Qed.

(** X11: a planner step leaves the result buffer, the message history, the
    state-message flag and the record of action calls as they were.  When it
    returns, it has reported exactly two events, STEP_START and then either
    STEP_OK with the [next_steps] of the result it returns, or STEP_FAIL with
    the text 'Planning failed: ' before the error message it returns.  When
    it throws it has reported STEP_START at most. *)
Theorem planner_step ctx :
  let '(r, ctx') := plannerExecute X ctx in
  actionResults ctx' = actionResults ctx
  /\ pairingState ctx' = pairingState ctx
  /\ callLog ctx' = callLog ctx
  /\ match r with
     | Normal out =>
         exists d,
           events ctx'
           = events ctx ++ [mkEvent PLANNER STEP_START "Planning..."; mkEvent PLANNER (fst d) (snd d)]
           /\ match AgentOutput.result out, AgentOutput.error out with
              | Some o, None => d = (STEP_OK, next_steps o)
              | None, Some m => d = (STEP_FAIL, "Planning failed: " +:+ m)
              | _, _ => False
              end
     | Throw e =>
         events ctx' = events ctx
         \/ events ctx' = events ctx ++ [mkEvent PLANNER STEP_START "Planning..."]
     end.
Proof.
  rewrite plannerExecute_spec.
  destruct (getSettings X (world ctx)) as [[enabled|e] w]; [|by repeat split; auto].
  rewrite plannerTry_spec. cbv zeta. cbn [options messageManager world set_world].
  destruct (plannerInvoke X _ w) as [[[output|]|e] w1].
  - repeat split. exists (STEP_OK, next_steps output). cbn.
    by rewrite <- app_assoc.
  - rewrite plannerCatch_spec. destruct (reclassify _ _ _); cbn.
    + repeat split; auto.
    + repeat split. eexists (STEP_FAIL, _). cbn. by rewrite <- app_assoc.
  - rewrite plannerCatch_spec. destruct (reclassify _ _ _); cbn.
    + repeat split; auto.
    + repeat split. eexists (STEP_FAIL, _). cbn. by rewrite <- app_assoc.
Qed.

Lemma validatorCatch_spec e ctx :
  validatorCatch X e ctx
  = match reclassify X "Validator" e with
    | Some fatalError => (Throw fatalError, ctx)
    | None =>
        (Normal (AgentOutput.mk "validator" None
                   (Some ("Validation failed: " +:+ errorMessageOf e))),
         set_events
           (events ctx
            ++ [mkEvent VALIDATOR STEP_FAIL ("Validation failed: " +:+ errorMessageOf e)])
           ctx)
    end.
Proof. unfold validatorCatch. by destruct (reclassify X "Validator" e). Qed.

Lemma validatorExecute_spec plan ctx :
  validatorExecute X plan ctx
  = match getSettings X (world ctx) with
    | (Normal _, w) =>
        match validatorTry X plan (set_world w ctx) with
        | (Normal out, c) => (Normal out, c)
        | (Throw e, c) => validatorCatch X e c
        end
    | (Throw e, w) => (Throw e, set_world w ctx)
    end.
Proof.
  unfold validatorExecute, bind. rewrite initializeAdvancedModeCheck_spec.
  destruct (getSettings X (world ctx)) as [[enabled|e] w]; reflexivity.
Qed.

(** The ways out of the validator's [try] block. *)
Lemma validatorTry_cases plan ctx r ctx' :
  validatorTry X plan ctx = (r, ctx') ->
  pairingState ctx' = pairingState ctx
  /\ callLog ctx' = callLog ctx
  /\ match r with
     | Normal out =>
         exists o,
           out = AgentOutput.mk "validator" (Some o) None
           /\ if is_valid o
              then actionResults ctx' = actionResults ctx
                   /\ last (events ctx') = Some (mkEvent VALIDATOR STEP_OK (answer o))
              else let msg := "The answer is not yet correct. " +:+ reason o +:+ "." in
                   actionResults ctx' = [ActionResult.mk (Some msg) None false true]
                   /\ last (events ctx') = Some (mkEvent VALIDATOR STEP_FAIL msg)
     | Throw e => actionResults ctx' = actionResults ctx
     end.
Proof.
  unfold validatorTry, bind, emitEvent, modify, gets, await, awaitWith, ret, throw.
  cbn. destruct (getUserMessageContent X _) as [[raw|e] w]; [|by intros [= <- <-]].
  cbn. destruct (validatorInvoke X _ w) as [[[o|]|e] w1];
    [|by intros [= <- <-]|by intros [= <- <-]].
  destruct (is_valid o) eqn:Hv; cbn; intros [= <- <-]; cbn;
    (split; [done|]); (split; [done|]); exists o; rewrite Hv;
    (split; [done|]); (split; [done|]); apply last_snoc.
Qed.

(** X12: a validator step leaves the message history, the state-message
    flag and the record of action calls as they were.  The result buffer is
    replaced exactly when the step returns a result that is not valid: it
    then holds one result kept for memory whose text is 'The answer is not
    yet correct. ' followed by the reason and a full stop, and the same text
    is reported with STEP_FAIL.  A valid result is returned with the buffer
    untouched and its answer reported with STEP_OK.  An error that is caught
    is returned, and reported with STEP_FAIL, with 'Validation failed: '
    before its message; then, and when the step throws, the buffer is
    untouched. *)
Theorem validator_step (plan : option string) ctx :
  let '(r, ctx') := validatorExecute X plan ctx in
  pairingState ctx' = pairingState ctx
  /\ callLog ctx' = callLog ctx
  /\ match r with
     | Normal out =>
         match AgentOutput.result out, AgentOutput.error out with
         | Some o, None =>
             if is_valid o
             then actionResults ctx' = actionResults ctx
                  /\ last (events ctx') = Some (mkEvent VALIDATOR STEP_OK (answer o))
             else let msg := "The answer is not yet correct. " +:+ reason o +:+ "." in
                  actionResults ctx' = [ActionResult.mk (Some msg) None false true]
                  /\ last (events ctx') = Some (mkEvent VALIDATOR STEP_FAIL msg)
         | None, Some m =>
             actionResults ctx' = actionResults ctx
             /\ last (events ctx') = Some (mkEvent VALIDATOR STEP_FAIL m)
             /\ exists cause, m = "Validation failed: " +:+ cause
         | _, _ => False
         end
     | Throw e => actionResults ctx' = actionResults ctx
     end.
Proof.
  rewrite validatorExecute_spec.
  destruct (getSettings X (world ctx)) as [[enabled|e] w]; [|by repeat split].
  destruct (validatorTry X plan (set_world w ctx)) as [[out|e] c] eqn:Htry;
    destruct (validatorTry_cases _ _ _ _ Htry) as (Hp & Hl & Hr).
  - split; [exact Hp|]. split; [exact Hl|]. destruct Hr as (o & -> & Hr). exact Hr.
  - rewrite validatorCatch_spec. destruct (reclassify _ _ _).
    + split; [exact Hp|]. split; [exact Hl|]. exact Hr.
    + split; [exact Hp|]. split; [exact Hl|]. cbn. split; [exact Hr|].
      split; [apply last_snoc|]. eauto.
Qed.

(** X13: an exception leaves a planner step or a validator step only as an
    authentication, forbidden-access or cancellation error made by the
    [catch] block from an error it classified as such, or because the
    settings could not be read before the [try] block was entered. *)
Theorem reviewers_throw_fatal_only ctx e ctx' :
  (plannerExecute X ctx = (Throw e, ctx') ->
   (fatal e = true /\ exists cause, reclassify X "Planner" cause = Some e)
   \/ exists w, getSettings X (world ctx) = (Throw e, w))
  /\ (forall plan,
         validatorExecute X plan ctx = (Throw e, ctx') ->
         (fatal e = true /\ exists cause, reclassify X "Validator" cause = Some e)
         \/ exists w, getSettings X (world ctx) = (Throw e, w)).
Proof.
  split; [|intros plan].
  - rewrite plannerExecute_spec.
    destruct (getSettings X (world ctx)) as [[enabled|e0] w].
    2:{ intros [= -> _]. right. eauto. }
    destruct (plannerTry X _) as [[out|e0] c]; [discriminate|].
    rewrite plannerCatch_spec. destruct (reclassify _ _ e0) as [f|] eqn:Hc; [|discriminate].
    intros [= -> _]. left. split; [by eapply reclassify_fatal|eauto].
  - rewrite validatorExecute_spec.
    destruct (getSettings X (world ctx)) as [[enabled|e0] w].
    2:{ intros [= -> _]. right. eauto. }
    destruct (validatorTry X _ _) as [[out|e0] c]; [discriminate|].
    rewrite validatorCatch_spec. destruct (reclassify _ _ e0) as [f|] eqn:Hc; [|discriminate].
    intros [= -> _]. left. split; [by eapply reclassify_fatal|eauto].
Qed.

(** X24: a rejection by the validator reaches the navigator's memory.  When
    the validator returns a result that is not valid and no state message is
    pending, the next [addStateMessageToMemory] adds the human message
    'Action result: The answer is not yet correct. ', the reason and a full
    stop to the memory the validator step started with, leaves one empty
    [ActionResult] in the buffer, and then asks for the state message and
    adds it. *)
Theorem rejection_reaches_memory (plan : option string) ctx out ctx1 o :
  validatorExecute X plan ctx = (Normal out, ctx1) ->
  AgentOutput.result out = Some o ->
  is_valid o = false ->
  stateMessageAdded ctx = false ->
  let msg := "The answer is not yet correct. " +:+ reason o +:+ "." in
  let told :=
    MessageManager.addMessageWithTokens (estimateTokens X) (maxInputTokens X)
      (HumanMessage (Text ("Action result: " +:+ msg))) (messageManager ctx) in
  let ctx2 := set_actionResults [ActionResult.empty] (set_messageManager told ctx1) in
  actionResults ctx1 = [ActionResult.mk (Some msg) None false true]
  /\ addStateMessageToMemory X ctx1
     = match getUserMessage X ctx2 with
       | (Normal st, w) =>
           (Normal tt,
            set_stateMessageAdded true
              (set_messageManager (MessageManager.addStateMessage st told)
                 (set_world w ctx2)))
       | (Throw e, w) => (Throw e, set_world w ctx2)
       end.
Proof.
  intros Hrun Hres Hinvalid Hflag msg told ctx2.
  rewrite validatorExecute_spec in Hrun.
  destruct (getSettings X (world ctx)) as [[enabled|e] w]; [|discriminate].
  destruct (validatorTry X plan (set_world w ctx)) as [[out1|e] c] eqn:Htry.
  2:{ rewrite validatorCatch_spec in Hrun. destruct (reclassify _ _ _); [discriminate|].
      injection Hrun as <- _. discriminate Hres. }
  injection Hrun as -> ->.
  destruct (validatorTry_cases _ _ _ _ Htry) as (Hp & _ & o' & -> & Hcase).
  injection Hres as ->. rewrite Hinvalid in Hcase. cbv zeta in Hcase.
  destruct Hcase as [Hbuf _]. fold msg in Hbuf.
  injection Hp as Hf Hmm. cbn in Hf, Hmm.
  split; [exact Hbuf|].
  unfold addStateMessageToMemory, bind, gets. rewrite Hf, Hflag, Hbuf.
  cbn [length Nat.ltb Nat.leb when foldResults]. unfold bind, foldResult.
  cbn [ActionResult.includeInMemory ActionResult.extractedContent ActionResult.error
       when].
  change (JsString.truthy (Some msg)) with true.
  change (JsString.truthy None) with false. cbn [when].
  unfold bind, addMessageWithTokens, onMessageManager, modify, ret, awaitWith.
  cbn. rewrite Hmm, Hbuf. cbn [insert list_insert]. fold told.
  change (set_actionResults [ActionResult.empty] (set_messageManager told ctx1))
    with ctx2.
  destruct (getUserMessage X ctx2) as [[st|e] w1]; reflexivity.
Qed.

End ReviewerFacts.

(** ** How a navigator step ends *)

Section NavigatorOutcomeFacts.
Context {World Args Brain BrowserState : Type}.
Variable X : Collaborators World Args Brain BrowserState.
Implicit Types ctx : TaskContext World.

Lemma finallyExecute_spec cancelled ctx :
  finallyExecute cancelled ctx
  = (Normal tt,
     if cancelled
     then set_events
            (events ctx ++ [mkEvent NAVIGATOR STEP_CANCEL "Navigation cancelled"])
            (if stateMessageAdded ctx
             then set_stateMessageAdded false
                    (set_messageManager
                       (MessageManager.removeLastStateMessage (messageManager ctx)) ctx)
             else ctx)
     else ctx).
Proof.
  destruct cancelled; [|reflexivity].
  unfold finallyExecute, when, bind. rewrite removeLastStateMessageFromMemory_spec.
  by destruct (stateMessageAdded ctx).
Qed.

Lemma andFinally_spec {A} (r : Completion A) cancelled ctx :
  andFinally r (finallyExecute cancelled) ctx
  = (r, snd (finallyExecute cancelled ctx)).
Proof. unfold andFinally. by rewrite finallyExecute_spec. Qed.

Lemma catchExecute_cases out0 e ctx r ctx' :
  catchExecute X out0 e ctx = (r, ctx') ->
  actionResults ctx' = actionResults ctx
  /\ ((exists fatalError,
          reclassify X "Navigator" e = Some fatalError /\ r = Throw fatalError)
      \/ (reclassify X "Navigator" e = None
          /\ exists m, e = URLNotAllowedError m /\ r = Throw e)
      \/ (reclassify X "Navigator" e = None
          /\ r = Normal (AgentOutput.mk (AgentOutput.id out0) (AgentOutput.result out0)
                           (Some (errorMessageOf e)))
          /\ last (events ctx')
             = Some (mkEvent NAVIGATOR STEP_FAIL
                       ("Navigation failed: " +:+ errorMessageOf e)))).
Proof.
  unfold catchExecute, bind. rewrite removeLastStateMessageFromMemory_spec.
  set (c := if stateMessageAdded ctx then _ else ctx).
  assert (Hc : actionResults c = actionResults ctx).
  { subst c. by destruct (stateMessageAdded ctx). }
  destruct (reclassify X "Navigator" e) as [f|].
  { intros [= <- <-]. split; [exact Hc|]. left. eauto. }
  destruct e; intros [= <- <-]; (split; [exact Hc|]); right;
    try (right; split; [done|]; split; [done|]; apply last_snoc).
  left. eauto.
Qed.


(** X14: an exception leaves a navigator step only as an authentication,
    forbidden-access or cancellation error made by the [catch] block from an
    error it classified as such, as a disallowed-navigation error, or
    because the settings could not be read before the [try] block was
    entered. *)
Theorem navigator_throws_fatal_only registry ctx e ctx' :
  execute X registry ctx = (Throw e, ctx') ->
  (fatal e = true /\ exists cause, reclassify X "Navigator" cause = Some e)
  \/ (exists m, e = URLNotAllowedError m)
  \/ exists w, getSettings X (world ctx) = (Throw e, w).
Proof.
  unfold execute, bind. rewrite initializeAdvancedModeCheck_spec.
  destruct (getSettings X (world ctx)) as [[enabled|e0] w].
  2:{ intros [= -> _]. right; right. eauto. }
  destruct (tryExecute X _ _ _ _) as [[[cancelled out]|e0] c1].
  { rewrite andFinally_spec. discriminate. }
  destruct (catchExecute X _ e0 c1) as [r2 c2] eqn:Hcatch.
  rewrite andFinally_spec. intros [= -> _].
  destruct (catchExecute_cases _ _ _ _ _ Hcatch)
    as (_ & [(f & Hc & Hr)|[(_ & m & He & Hr)|(_ & Hr & _)]]).
  - injection Hr as ->. left. split; [by eapply reclassify_fatal|eauto].
  - injection Hr as ->. right; left. eauto.
  - discriminate Hr.
Qed.


End NavigatorOutcomeFacts.

(** ** The shape of the action field, and the order of the calls *)

Section BatchShapeFacts.
Context {World Args Brain BrowserState : Type}.
Variable X : Collaborators World Args Brain BrowserState.
Variable registry : gmap string (Action World Args).
Implicit Types s : LoopState World.
Implicit Types ctx : TaskContext World.

Lemma doMultiAction_normalised r1 r2 :
  normalizeActions X (action r1) = normalizeActions X (action r2) ->
  doMultiAction X registry r1 = doMultiAction X registry r2.
Proof. intros H. unfold doMultiAction. by rewrite H. Qed.

Lemma filter_is_Some_id {A} (l : list (option A)) :
  Forall is_Some l -> filter (fun item => is_Some item) l = l.
Proof.
  induction 1 as [|x l Hx _ IH]; [done|].
  rewrite filter_cons, decide_True by done. by rewrite IH.
Qed.

(** X16: the batch that is run is the same whether the model gave the
    action list as an array, as a string that parses to that array, or as a
    string that parses to it only once repaired, provided the list has no
    null entry; a single action object runs as the list of that one action;
    and an array runs as the array without its null entries. *)
Theorem action_shapes_agree (b : Brain) (l : list (option RawAction))
    (text : string) (keys : RawAction) :
  (Forall is_Some l ->
   JSON_parse X text = Some (ParsedArray l)
   \/ (JSON_parse X text = None
       /\ exists fixedAction,
           repairJsonString X text = Some fixedAction
           /\ JSON_parse X fixedAction = Some (ParsedArray l)) ->
   doMultiAction X registry (mkModelOutput b (ActionString text))
   = doMultiAction X registry (mkModelOutput b (ActionArray l)))
  /\ doMultiAction X registry (mkModelOutput b (ActionOther (Some keys)))
     = doMultiAction X registry (mkModelOutput b (ActionArray [Some keys]))
  /\ doMultiAction X registry (mkModelOutput b (ActionArray l))
     = doMultiAction X registry
         (mkModelOutput b (ActionArray (filter (fun item => is_Some item) l))).
Proof.
  split; [|split].
  - intros Hl Hparse. apply doMultiAction_normalised.
    cbn [action normalizeActions]. rewrite (filter_is_Some_id l Hl).
    destruct Hparse as [->|(-> & fixedAction & -> & ->)]; reflexivity.
  - apply doMultiAction_normalised. cbn [action normalizeActions].
    rewrite filter_cons, decide_True by done. reflexivity.
  - apply doMultiAction_normalised. cbn [action normalizeActions]. f_equal. f_equal.
    symmetry. apply filter_is_Some_id.
    apply Forall_forall. by intros x [Hx _]%list_elem_of_filter.
Qed.

(** X17: a string that neither parses nor can be repaired into something
    that parses makes [doMultiAction] throw 'Invalid action output format'
    before anything is asked of the browser: the context is as it was.  A
    null entry, which only a parsed string or a null action field can bring
    into the list, is not an action error: when the loop reaches it, it
    throws a TypeError at once, with nothing reported, counted or recorded
    for it and none of the later actions tried. *)
Theorem malformed_action_field (b : Brain) (text : string) ctx
    (cached : gset string) (n i : nat) pre rest s s1 :
  (JSON_parse X text = None ->
   repairJsonString X text = None
   \/ (exists fixedAction,
          repairJsonString X text = Some fixedAction
          /\ JSON_parse X fixedAction = None) ->
   doMultiAction X registry (mkModelOutput b (ActionString text)) ctx
   = (Throw (Error "Error" "Invalid action output format"), ctx))
  /\ (actionLoop X registry cached n i pre s = (Normal Continue, s1) ->
      actionLoop X registry cached n i (pre ++ None :: rest) s
      = (Throw (Error "TypeError" "Cannot convert undefined or null to object"), s1))
  /\ normalizeActions X (ActionOther None) = Normal (ActionList [None]).
Proof.
  split; [|split; [|done]].
  - intros Hparse Hrepair. unfold doMultiAction, bind. cbn. rewrite Hparse.
    destruct Hrepair as [->|(fixedAction & -> & ->)]; reflexivity.
  - intros Hpre. rewrite actionLoop_app, Hpre. reflexivity.
Qed.

Section Order.
Variable cached : gset string.
Variable n : nat.

(** One run of the [try] block makes at most one call, of the action that
    the registry holds under the name, and none when it starts with a flag
    set; it adds at most one result. *)
Lemma tryAction_calls i nm args s r s' :
  tryAction X registry cached n i nm args s = (r, s') ->
  (callLog (context s') = callLog (context s)
   \/ exists act ret,
       getAction nm registry = Registered act
       /\ pausedOrStopped X (context s) = false
       /\ callLog (context s') = callLog (context s) ++ [mkCall i nm ret])
  /\ length (results s') <= length (results s) + 1
  /\ (forall e, r = Throw e -> results s' = results s).
Proof.
  intros H.
  destruct (tryAction_cases X registry cached n _ _ _ _ _ _ H)
    as (_ & _ & Hcases).
  assert (Hres : length (results s') <= length (results s) + 1
                 /\ (forall e, r = Throw e -> results s' = results s)).
  { destruct Hcases as [(-> & -> & _)|[(-> & -> & _)|[(x & fl & -> & -> & _)
                       |(e & calls & -> & -> & _)]]];
      rewrite ?length_app; simpl; (split; [lia|]); try done. }
  split; [|exact Hres]. clear Hcases Hres.
  unfold tryAction in H.
  split_bind H p c1 H1; [|discriminate H1]. injection H1 as <- <-.
  destruct (pausedOrStopped X (context s)) eqn:Hp.
  { injection H as _ <-. by left. }
  destruct (getAction nm registry) as [a| |] eqn:Ha.
  2,3: injection H as _ <-; by left.
  assert (Hlog : forall (m : M (LoopState World) bool) d c,
            m s = (d, c) ->
            m = (if (0 <? i)%nat && bool_decide (is_Some (getIndexArg a args))
                 then
                   let* vision := gets (fun s => useVision (options (context s))) in
                   let* newState := inContext (await (getState X vision)) in
                   ret (negb (bool_decide (calcBranchPathHashSet X newState ⊆ cached)))
                 else ret false) ->
            callLog (context c) = callLog (context s)).
  { intros m d c Hm ->. destruct (_ && _); [|by injection Hm as _ <-].
    unfold bind, gets, inContext, await in Hm.
    destruct (getState X _ _) as [[ns|e] w]; by injection Hm as _ <-. }
  split_bind H drift c2 H2.
  2:{ left. eapply Hlog; [exact H2|reflexivity]. }
  pose proof (Hlog _ _ _ H2 eq_refl) as Hl2.
  destruct drift. { injection H as _ <-. by left. }
  right. exists a.
  unfold bind at 1, inContext at 1, callAction in H.
  destruct (call a args (world (context c2))) as [[[x|]|e] w]; simpl in H.
  - unfold bind, push, modify, gets in H. simpl in H.
    exists (Some x). split; [done|]. split; [done|]. clear Hp.
    destruct (pausedOrStopped X _); injection H as _ <-; simpl; by rewrite Hl2.
  - exists None. injection H as _ <-. simpl. by rewrite Hl2.
  - exists None. injection H as _ <-. simpl. by rewrite Hl2.
Qed.

Lemma catchAction_keeps e s r s' :
  catchAction e s = (r, s') ->
  callLog (context s') = callLog (context s)
  /\ length (results s') <= length (results s) + 1.
Proof.
  rewrite catchAction_spec.
  destruct e; [intros [= _ <-]; split; [done|lia]|..]; cbv zeta;
    (destruct (3 <? Datatypes.S (errCount s))%nat; intros [= _ <-]; cbn;
     rewrite ?length_app; simpl; (split; [done|lia])).
Qed.

Lemma callIndex_sorted_snoc (calls : list CallRecord) i c :
  StronglySorted (fun a b => callIndex a < callIndex b) calls ->
  Forall (fun a => callIndex a < i) calls ->
  callIndex c = i ->
  StronglySorted (fun a b => callIndex a < callIndex b) (calls ++ [c]).
Proof.
  induction 1 as [|a calls Hs IH Ha]; intros Hlt Hc; simpl.
  - repeat constructor.
  - inversion Hlt as [|? ? Hai Hrest]; subst. constructor; [by apply IH|].
    apply Forall_app. split; [done|]. by repeat constructor.
Qed.

(** What a run of the loop from action [i] adds to the record of calls and
    to the results. *)
Lemma actionLoop_calls actions :
  forall i s r s',
    actionLoop X registry cached n i actions s = (r, s') ->
    exists calls,
      callLog (context s') = callLog (context s) ++ calls
      /\ StronglySorted (fun a b => callIndex a < callIndex b) calls
      /\ Forall (fun c =>
                   i <= callIndex c
                   /\ exists keys act,
                       actions !! (callIndex c - i) = Some (Some keys)
                       /\ callName c = actionNameOf keys
                       /\ getAction (callName c) registry = Registered act) calls
      /\ length (results s') <= length (results s) + length actions.
Proof.
  induction actions as [|a rest IH]; intros i s r s' H.
  - injection H as _ <-. exists []. rewrite app_nil_r.
    repeat split; try constructor. simpl. lia.
  - cbn [actionLoop] in H. split_bind H flow s1 H1.
    + assert (Hit : exists c1,
                callLog (context s1) = callLog (context s) ++ c1
                /\ (c1 = []
                    \/ exists keys act ret,
                        a = Some keys /\ getAction (actionNameOf keys) registry = Registered act
                        /\ c1 = [mkCall i (actionNameOf keys) ret])
                /\ length (results s1) <= length (results s) + 1).
      { destruct a as [keys|]; [|discriminate H1].
        unfold iteration, tryCatch in H1.
        destruct (tryAction _ _ _ _ _ _ _ s) as [[fl|e] s0] eqn:Htry;
          destruct (tryAction_calls _ _ _ _ _ _ Htry) as (Hc & Hlen & Hthrow).
        - injection H1 as _ <-.
          destruct Hc as [Hc|(act & ret & Ha & _ & Hc)].
          + exists []. rewrite app_nil_r. repeat split; auto.
          + eexists. split; [exact Hc|]. split; [right; eauto 6|done].
        - destruct (catchAction_keeps _ _ _ _ H1) as (Hl & Hlen').
          rewrite (Hthrow e eq_refl) in Hlen'.
          destruct Hc as [Hc|(act & ret & Ha & _ & Hc)].
          + exists []. rewrite app_nil_r, Hl. repeat split; auto.
          + eexists. rewrite Hl. split; [exact Hc|]. split; [right; eauto 6|done]. }
      destruct Hit as (c1 & Hl1 & Hc1 & Hr1).
      assert (Hrest : exists c2,
                callLog (context s') = callLog (context s1) ++ c2
                /\ StronglySorted (fun a b => callIndex a < callIndex b) c2
                /\ Forall (fun c =>
                             Datatypes.S i <= callIndex c
                             /\ exists keys act,
                                 rest !! (callIndex c - Datatypes.S i) = Some (Some keys)
                                 /\ callName c = actionNameOf keys
                                 /\ getAction (callName c) registry = Registered act) c2
                /\ length (results s') <= length (results s1) + length rest).
      { destruct flow; [by apply (IH _ _ _ _ H)|].
        injection H as _ <-. exists []. rewrite app_nil_r.
        repeat split; try constructor. lia. }
      destruct Hrest as (c2 & Hl2 & Hs2 & Hf2 & Hr2).
      exists (c1 ++ c2). rewrite Hl2, Hl1, <- app_assoc.
      split; [done|]. split; [|split; [|simpl; lia]].
      * destruct Hc1 as [->|(keys & act & ret & _ & _ & ->)]; [done|].
        simpl. constructor; [done|].
        eapply Forall_impl; [exact Hf2|]. simpl. intros c [Hc _]. lia.
      * apply Forall_app. split.
        -- destruct Hc1 as [->|(keys & act & ret & -> & Ha & ->)]; [constructor|].
           repeat constructor; simpl. exists keys, act.
           rewrite Nat.sub_diag. done.
        -- eapply Forall_impl; [exact Hf2|]. simpl.
           intros c (Hc & keys & act & Hk & Hn & Ha). split; [lia|].
           exists keys, act. split; [|done].
           replace (callIndex c - i) with (Datatypes.S (callIndex c - Datatypes.S i)) by lia.
           done.
    + destruct a as [keys|].
      2:{ injection H1 as _ <-. exists []. rewrite app_nil_r.
          repeat split; try constructor. lia. }
      unfold iteration, tryCatch in H1.
      destruct (tryAction _ _ _ _ _ _ _ s) as [[fl|e] s0] eqn:Htry; [discriminate H1|].
      destruct (tryAction_calls _ _ _ _ _ _ Htry) as (Hc & Hlen & Hthrow).
      destruct (catchAction_keeps _ _ _ _ H1) as (Hl & Hlen').
      rewrite (Hthrow e eq_refl) in Hlen'.
      destruct Hc as [Hc|(act & ret & Ha & _ & Hc)].
      * exists []. rewrite app_nil_r, Hl. repeat split; try constructor; auto.
        simpl. lia.
      * eexists. rewrite Hl. split; [exact Hc|].
        split; [repeat constructor|]. split; [|simpl; lia].
        repeat constructor; simpl. exists keys, act. rewrite Nat.sub_diag. done.
Qed.

End Order.

Lemma doMultiAction_calls response ctx l r ctx' :
  normalizeActions X (action response) = Normal (ActionList l) ->
  doMultiAction X registry response ctx = (r, ctx') ->
  (exists calls,
      callLog ctx' = callLog ctx ++ calls
      /\ StronglySorted (fun a b => callIndex a < callIndex b) calls
      /\ Forall (fun c =>
                   exists keys act,
                     l !! callIndex c = Some (Some keys)
                     /\ callName c = actionNameOf keys
                     /\ getAction (callName c) registry = Registered act) calls)
  /\ (forall rs, r = Normal rs -> length rs <= length l).
Proof.
  intros Hn H.
  assert (Hnone : forall c : TaskContext World,
            callLog c = callLog ctx ->
            exists calls,
              callLog c = callLog ctx ++ calls
              /\ StronglySorted (fun a b => callIndex a < callIndex b) calls
              /\ Forall (fun c =>
                           exists keys act,
                             l !! callIndex c = Some (Some keys)
                             /\ callName c = actionNameOf keys
                             /\ getAction (callName c) registry = Registered act) calls).
  { intros c Hc. exists []. rewrite app_nil_r. repeat split; try constructor. done. }
  unfold doMultiAction, bind, gets, await in H. rewrite Hn in H. cbn in H.
  destruct (getState X _ (world ctx)) as [[bs|e] w0].
  2:{ injection H as <- <-. split; [by apply Hnone|discriminate]. }
  cbn in H. destruct (removeHighlight X w0) as [[u|e] w1].
  2:{ injection H as <- <-. split; [by apply Hnone|discriminate]. }
  cbn in H.
  destruct (actionLoop X registry _ (length l) 0 l _) as [r0 s0] eqn:Hloop.
  injection H as <- <-.
  destruct (actionLoop_calls _ _ _ _ _ _ _ Hloop) as (calls & Hl & Hs & Hf & Hlen).
  cbn in Hl, Hlen. split.
  - exists calls. split; [exact Hl|]. split; [exact Hs|].
    eapply Forall_impl; [exact Hf|]. cbn. intros c (_ & keys & act & Hk & Hrest).
    exists keys, act. by rewrite Nat.sub_0_r in Hk.
  - intros rs Hrs. destruct r0 as [fl|e]; [|discriminate].
    injection Hrs as <-. exact Hlen.
Qed.

Lemma increasing_calls_bounded (calls : list CallRecord) :
  StronglySorted (fun a b => callIndex a < callIndex b) calls ->
  forall lo hi,
    Forall (fun c => lo <= callIndex c < hi) calls -> length calls <= hi - lo.
Proof.
  induction 1 as [|c calls Hs IH Hc]; intros lo hi Hall; simpl; [lia|].
  inversion Hall as [|? ? Hb Hrest]; subst.
  assert (Hnext : Forall (fun a => Datatypes.S (callIndex c) <= callIndex a < hi) calls).
  { apply Forall_forall. intros a Ha. rewrite Forall_forall in Hc, Hrest.
    specialize (Hc a Ha). specialize (Hrest a Ha). lia. }
  specialize (IH _ _ Hnext). lia.
Qed.

(** X18: the calls that [doMultiAction] makes follow the normalised list:
    their indices increase strictly, so no action is called twice or out of
    turn, and each call is of the action that the registry holds under the
    first key of the list element at that index.  There are no more calls,
    and no more results returned, than the list has elements. *)
Theorem calls_follow_the_list response ctx l r ctx' :
  normalizeActions X (action response) = Normal (ActionList l) ->
  doMultiAction X registry response ctx = (r, ctx') ->
  (exists calls,
      callLog ctx' = callLog ctx ++ calls
      /\ StronglySorted (fun a b => callIndex a < callIndex b) calls
      /\ Forall (fun c =>
                   exists keys act,
                     l !! callIndex c = Some (Some keys)
                     /\ callName c = actionNameOf keys
                     /\ getAction (callName c) registry = Registered act) calls
      /\ length calls <= length l)
  /\ (forall rs, r = Normal rs -> length rs <= length l).
Proof.
  intros Hn H.
  destruct (doMultiAction_calls _ _ _ _ _ Hn H) as [(calls & Hl & Hs & Hall) Hres].
  split; [|exact Hres]. exists calls. split; [exact Hl|]. split; [exact Hs|].
  split; [exact Hall|].
  pose proof (increasing_calls_bounded calls Hs 0 (length l)) as Hbound.
  rewrite Nat.sub_0_r in Hbound. apply Hbound.
  eapply Forall_impl; [exact Hall|]. cbn. intros c (keys & act & Hk & _).
  apply lookup_lt_Some in Hk. lia.
Qed.

(** X19: the flags are polled before each action and after each call.  When
    a flag is set as the loop comes to an action, [doMultiAction] returns
    the results gathered so far and leaves the context as it is: the action
    is not looked up, and nothing is called.  When a flag is set once a call
    has returned its result, that result is the last one returned, the wait
    that follows a call is skipped, and the actions after it are not tried;
    this holds for every call, whether it is made straight away (the first
    action, or an action without a target element) or after the page
    fingerprint was taken again and found to be within the one taken before
    the batch. *)
Theorem pause_stops_batch response ctx pre keys rest bs w0 w1 s1 :
  let actions := pre ++ Some keys :: rest in
  let cachedPathHashes := calcBranchPathHashSet X bs in
  let i := length pre in
  normalizeActions X (action response) = Normal (ActionList actions) ->
  getState X (useVision (options ctx)) (world ctx) = (Normal bs, w0) ->
  removeHighlight X w0 = (Normal tt, w1) ->
  actionLoop X registry cachedPathHashes (length actions) 0 pre
    (mkLoop [] 0 (set_world w1 ctx)) = (Normal Continue, s1) ->
  (pausedOrStopped X (context s1) = true ->
   doMultiAction X registry response ctx = (Normal (results s1), context s1))
  /\ (forall actionInstance x wc w2,
         pausedOrStopped X (context s1) = false ->
         getAction (actionNameOf keys) registry = Registered actionInstance ->
         ((i = 0 \/ getIndexArg actionInstance (actionArgsOf keys) = None)
          /\ wc = world (context s1))
         \/ (0 < i
             /\ is_Some (getIndexArg actionInstance (actionArgsOf keys))
             /\ exists newState,
                 getState X (useVision (options (context s1))) (world (context s1))
                 = (Normal newState, wc)
                 /\ calcBranchPathHashSet X newState ⊆ cachedPathHashes) ->
         call actionInstance (actionArgsOf keys) wc = (Normal (Some x), w2) ->
         paused X w2 || stopped X w2 = true ->
         doMultiAction X registry response ctx
         = (Normal (results s1 ++ [x]),
            set_callLog
              (callLog (context s1) ++ [mkCall i (actionNameOf keys) (Some x)])
              (set_world w2 (context s1)))).
Proof.
  intros actions cachedPathHashes i Hn Hs Hh Hpre. split.
  - intros Hp.
    assert (Hit : iteration X registry cachedPathHashes (length actions) i (Some keys) s1
                  = (Normal Halt, s1)).
    { unfold iteration, tryCatch, tryAction, bind, gets. by rewrite Hp. }
    rewrite (doMultiAction_runs X registry _ _ _ _ _ _ Hn Hs Hh).
    pose proof (actionLoop_stops_at X registry _ _ _ _ rest _ _ _ _ Hpre Hit) as Hstop.
    fold actions in Hstop. fold cachedPathHashes. rewrite Hstop by done.
    reflexivity.
  - intros actionInstance x wc w2 Hp Ha Hcheck Hcall Hafter.
    assert (Hit : iteration X registry cachedPathHashes (length actions) i (Some keys) s1
                  = (Normal Halt,
                     mkLoop (results s1 ++ [x]) (errCount s1)
                       (set_callLog
                          (callLog (context s1) ++ [mkCall i (actionNameOf keys) (Some x)])
                          (set_world w2 (context s1))))).
    { unfold iteration, tryCatch, tryAction, bind, gets. rewrite Hp, Ha.
      destruct Hcheck as [[Hidx ->]|(Hi & Hidx & newState & Hnew & Hsub)].
      - assert ((0 <? i)%nat
                && bool_decide (is_Some (getIndexArg actionInstance (actionArgsOf keys)))
                = false) as ->.
        { destruct Hidx as [->| ->]; [done|].
          rewrite bool_decide_eq_false_2; [by rewrite andb_false_r|].
          by intros [? ?]. }
        cbn. unfold inContext, callAction. rewrite Hcall. cbn.
        unfold pausedOrStopped. cbn. rewrite Hafter. reflexivity.
      - assert ((0 <? i)%nat = true) as -> by by apply Nat.ltb_lt.
        rewrite (bool_decide_eq_true_2 _ Hidx). cbn [andb].
        unfold inContext at 1, await. rewrite Hnew. cbn.
        rewrite (bool_decide_eq_true_2 _ Hsub). cbn.
        unfold inContext, callAction. cbn. rewrite Hcall. cbn.
        unfold pausedOrStopped. cbn. rewrite Hafter. reflexivity. }
    rewrite (doMultiAction_runs X registry _ _ _ _ _ _ Hn Hs Hh).
    pose proof (actionLoop_stops_at X registry _ _ _ _ rest _ _ _ _ Hpre Hit) as Hstop.
    fold actions in Hstop. fold cachedPathHashes. rewrite Hstop by done.
    reflexivity.
Qed.

End BatchShapeFacts.

(** ** What the planner's model is asked *)

Section PlannerInputFacts.
Context {World Args Brain BrowserState : Type}.
Variable X : Collaborators World Args Brain BrowserState.

Lemma textOfParts_from (ps : list ContentPart) :
  forall acc,
    foldl (fun newMsg msg =>
             match msg with
             | TextPart text => newMsg +:+ text
             | ImageUrlPart _ => newMsg
             end) acc ps
    = acc +:+ textOfParts ps.
Proof.
  unfold textOfParts. induction ps as [|p ps IH]; intros acc; cbn [foldl].
  - by rewrite append_empty_r.
  - destruct p as [t|u]; [|apply IH].
    by rewrite (IH (acc +:+ t)), (IH ("" +:+ t)), append_empty_l, append_assoc_string.
Qed.

Lemma textOfParts_app ps1 ps2 :
  textOfParts (ps1 ++ ps2) = textOfParts ps1 +:+ textOfParts ps2.
Proof. unfold textOfParts at 1. by rewrite foldl_app, textOfParts_from. Qed.

Lemma unstripped_length (messages : list BaseMessage) :
  length (plannerSystemMessage X :: drop 1 messages) = max 1 (length messages).
Proof. cbn [length]. rewrite length_drop. lia. Qed.

(** X20: the messages handed to the planner's model.  They are as many as
    the history holds, and one when the history is empty; from the second
    to the one before the last they are those of the history; without image
    stripping they are the planner's system message followed by the history
    without its first message.  With stripping (vision on, but not for the
    planner) the last message is replaced by a human message that holds
    text only: the text itself, or the text parts joined in their order with
    the image parts left out.  When the history holds no more than one
    message, that last message is the planner's system message itself, which
    is then sent as a human message.  The planner's [try] block ends by what
    the model answers to these messages. *)
Theorem planner_input (opts : AgentOptions) (messages : list BaseMessage) :
  let input := plannerMessages X opts messages in
  let strip := negb (useVisionForPlanner opts) && useVision opts in
  length input = max 1 (length messages)
  /\ (forall k, 0 < k -> Datatypes.S k < length input -> input !! k = messages !! k)
  /\ (1 < length messages -> input !! 0 = Some (plannerSystemMessage X))
  /\ (strip = false -> input = plannerSystemMessage X :: drop 1 messages)
  /\ (strip = true ->
      last input = withoutImages <$> last (plannerSystemMessage X :: drop 1 messages)
      /\ (length messages <= 1 -> input = [withoutImages (plannerSystemMessage X)]))
  /\ (forall m,
         messageType (withoutImages m) = HumanMessageType
         /\ (forall t, content m = Text t -> content (withoutImages m) = Text t)
         /\ (forall ps, content m = Parts ps ->
                        content (withoutImages m) = Text (textOfParts ps)))
  /\ (forall t u ps1 ps2,
         textOfParts (ps1 ++ ps2) = textOfParts ps1 +:+ textOfParts ps2
         /\ textOfParts [TextPart t] = t
         /\ textOfParts [ImageUrlPart u] = "")
  /\ (forall ctx : TaskContext World,
         fst (plannerTry X ctx)
         = match fst (plannerInvoke X
                        (plannerMessages X (options ctx)
                           (MessageManager.getMessages (messageManager ctx)))
                        (world ctx)) with
           | Normal (Some output) => Normal (AgentOutput.mk "planner" (Some output) None)
           | Normal None => Throw (Error "Error" "Failed to validate planner output")
           | Throw e => Throw e
           end).
Proof.
  intros input strip.
  set (pm := plannerSystemMessage X :: drop 1 messages).
  assert (Hlen : length pm = max 1 (length messages)) by apply unstripped_length.
  assert (Hin : input
                = if strip
                  then match last pm with
                       | Some lastStateMessage =>
                           <[length pm - 1 := withoutImages lastStateMessage]> pm
                       | None => pm
                       end
                  else pm).
  { subst input strip. unfold plannerMessages. cbv zeta. fold pm.
    assert ((0 <? length pm)%nat = true) as -> by (apply Nat.ltb_lt; lia).
    by rewrite andb_true_r. }
  assert (Hlast : exists lastStateMessage, last pm = Some lastStateMessage).
  { rewrite last_lookup. apply lookup_lt_is_Some. lia. }
  destruct Hlast as (lastStateMessage & Hlast).
  rewrite Hlast in Hin.
  assert (Hpm : forall k, 0 < k -> pm !! k = messages !! k).
  { intros [|k] Hk; [lia|]. subst pm.
    change ((plannerSystemMessage X :: drop 1 messages) !! Datatypes.S k)
      with (drop 1 messages !! k).
    by rewrite lookup_drop. }
  split; [|split; [|split; [|split; [|split; [|split; [|split]]]]]].
  - rewrite Hin. destruct strip; [|done]. by rewrite length_insert.
  - intros k Hk Hk'. rewrite Hin in Hk' |- *. destruct strip; [|by apply Hpm].
    rewrite length_insert in Hk'. rewrite list_lookup_insert_ne by lia. by apply Hpm.
  - intros Hm. rewrite Hin. destruct strip; [|done].
    rewrite list_lookup_insert_ne by lia. done.
  - intros Hs. by rewrite Hin, Hs.
  - intros Hs. rewrite Hin, Hs, Hlast. cbn [fmap option_fmap option_map]. split.
    + rewrite last_lookup, length_insert, list_lookup_insert.
      rewrite decide_True; [done|]. lia.
    + intros Hone. subst pm. destruct messages as [|m0 [|m1 rest]]; cbn in *; try lia.
      * by injection Hlast as <-.
      * by injection Hlast as <-.
  - intros m. unfold withoutImages. destruct (content m) as [t|ps]; cbn.
    + split; [done|]. split; [by intros ? [= <-]|discriminate].
    + split; [done|]. split; [discriminate|by intros ? [= <-]].
  - intros t u ps1 ps2. split; [apply textOfParts_app|]. split; reflexivity.
  - intros ctx. rewrite plannerTry_spec. cbv zeta.
    by destruct (plannerInvoke X _ (world ctx)) as [[[output|]|e] w].
Qed.

End PlannerInputFacts.

(** ** Tool calls of the advanced Gemini mode *)

Section GeminiFacts.
Context {World Args Brain BrowserState : Type}.
Variable X : Collaborators World Args Brain BrowserState.
Variable parseArguments : string -> option Args.
Variable emptyObject : Args.
Variable brain : string -> string -> Brain.
Variable registry : gmap string (Action World Args).

Local Abbreviation actionsOf := (parsedActions X parseArguments emptyObject).
Local Abbreviation actionOf := (parsedAction X parseArguments emptyObject).

(** the name under which a call becomes an action, if it does *)
Lemma parsedAction_Some call keys :
  actionOf call = Some keys ->
  exists n,
    function call ≫= functionName = Some n
    /\ JsString.truthy (Some n) = true
    /\ keys = [(n, functionArgsOf X parseArguments emptyObject call)].
Proof.
  unfold parsedAction. cbv zeta.
  destruct (function call ≫= functionName) as [n|] eqn:E; [|discriminate].
  destruct (JsString.truthy (Some n)) eqn:Ht; [|discriminate].
  intros [= <-]. eauto.
Qed.

Lemma parsedAction_name call :
  actionNameOf <$> actionOf call
  = let n := function call ≫= functionName in
    if JsString.truthy n then n else None.
Proof.
  unfold parsedAction. cbv zeta.
  destruct (function call ≫= functionName) as [n|]; [|done].
  by destruct (JsString.truthy (Some n)).
Qed.

Lemma parsedActions_elem a calls :
  a ∈ actionsOf calls ->
  exists call keys, call ∈ calls /\ a = Some keys /\ actionOf call = Some keys.
Proof.
  unfold parsedActions. intros [[keys ->] Hin]%list_elem_of_filter.
  change (map ?f ?l) with (f <$> l) in Hin.
  apply list_elem_of_fmap in Hin as (call & Heq & Hin). eauto.
Qed.

(** X21: in advanced mode the tool calls of the model's message become the
    action list in their order, one action for each call that has a
    function name, the calls without one being left out; each action has
    the function name as its only key.  The list has no null entry, so
    [doMultiAction] runs it as it is, and every action it then calls goes by
    the function name of one of the tool calls.  Arguments that neither
    parse nor can be repaired do not fail the step: the action is kept, with
    an empty object as its arguments.  The single-call case has no repair
    pass. *)
Theorem gemini_tool_calls (calls : list (ToolCall)) (contentText : string) :
  let out := geminiOutput X parseArguments emptyObject brain
               (ToolCallArray calls) contentText in
  normalizeActions X (action out) = Normal (ActionList (actionsOf calls))
  /\ Forall (fun a => exists n v, a = Some [(n, v)]) (actionsOf calls)
  /\ omap (fun a => actionNameOf <$> a) (actionsOf calls)
     = omap (fun call =>
               let n := function call ≫= functionName in
               if JsString.truthy n then n else None) calls
  /\ (forall call text,
         function call ≫= arguments = Some text ->
         parseArguments text = None ->
         (repairJsonString X text = None
          \/ exists repairedArgs,
              repairJsonString X text = Some repairedArgs
              /\ parseArguments repairedArgs = None) ->
         functionArgsOf X parseArguments emptyObject call = emptyObject)
  /\ (forall call text,
         function call ≫= arguments = Some text ->
         parseArguments text = None ->
         singleFunctionArgs parseArguments emptyObject call = emptyObject)
  /\ (forall ctx r ctx',
         doMultiAction X registry out ctx = (r, ctx') ->
         exists made,
           callLog ctx' = callLog ctx ++ made
           /\ Forall (fun c =>
                        exists call,
                          call ∈ calls
                          /\ function call ≫= functionName = Some (callName c)) made).
Proof.
  intros out.
  assert (Hsome : Forall is_Some (actionsOf calls)).
  { apply Forall_forall. by intros a [Ha _]%list_elem_of_filter. }
  assert (Hnorm : normalizeActions X (action out) = Normal (ActionList (actionsOf calls))).
  { subst out. cbn [geminiOutput action normalizeActions].
    by rewrite (filter_is_Some_id _ Hsome). }
  split; [exact Hnorm|]. split; [|split; [|split; [|split]]].
  - apply Forall_forall. intros a Ha.
    apply parsedActions_elem in Ha as (call & keys & _ & -> & Hk).
    apply parsedAction_Some in Hk as (n & _ & _ & ->). eauto.
  - clear out Hsome Hnorm. unfold parsedActions.
    induction calls as [|call rest IH]; [done|].
    cbn [map]. rewrite filter_cons. cbn [omap list_omap].
    pose proof (parsedAction_name call) as Hn. cbv zeta in Hn. rewrite <- Hn.
    cbn [omap list_omap] in IH.
    destruct (actionOf call) as [keys|].
    + rewrite decide_True by done. cbn. by rewrite <- IH.
    + rewrite decide_False by (by intros [? ?]). cbn. exact IH.
  - intros call text Ht Hp Hr. unfold functionArgsOf. cbv zeta. rewrite Ht.
    destruct (JsString.truthy (Some text)); [|done].
    change (default "" (Some text)) with text. rewrite Hp.
    by destruct Hr as [->|(repairedArgs & -> & ->)].
  - intros call text Ht Hp. unfold singleFunctionArgs. cbv zeta. rewrite Ht.
    destruct (JsString.truthy (Some text)); [|done].
    change (default "" (Some text)) with text. by rewrite Hp.
  - intros ctx r ctx' Hrun.
    destruct (doMultiAction_calls X registry _ _ _ _ _ Hnorm Hrun)
      as [(made & Hlog & _ & Hall) _].
    exists made. split; [exact Hlog|].
    eapply Forall_impl; [exact Hall|]. cbn. intros c (keys & act & Hk & Hn & _).
    apply list_elem_of_lookup_2 in Hk.
    apply parsedActions_elem in Hk as (call & keys' & Hin & [= <-] & Hk).
    apply parsedAction_Some in Hk as (n & Hfn & _ & ->).
    exists call. split; [exact Hin|]. by rewrite Hn.
Qed.

End GeminiFacts.

(** ** The chat input *)

Section ChatInputFacts.
Import JsString ChatInput.

(** X22: a submit sends exactly when the send button, were the input not
    disabled from outside, would be enabled: when the text is not blank or
    an image is pasted.  What is sent is the text as typed, not trimmed, and
    the image when there is one; the input is then cleared, so a second
    submit sends nothing.  A submit that sends nothing leaves the state as it
    is.  A key other than Enter, and Enter with shift held or during
    composition, never sends. *)
Theorem chat_input_submit (st : State) :
  let '(sent, st') := handleSubmit st in
  (is_Some sent <-> isSendButtonDisabled false st = false)
  /\ (forall disabled, isSendButtonDisabled disabled st = false -> is_Some sent)
  /\ (forall payload,
         sent = Some payload ->
         payloadText payload = text st
         /\ (truthy (pastedImage st) = true -> image payload = pastedImage st)
         /\ (truthy (pastedImage st) = false -> image payload = None)
         /\ st' = mkState "" None
         /\ handleSubmit st' = (None, st')
         /\ isSendButtonDisabled false st' = true)
  /\ (sent = None -> st' = st /\ trim (text st) = "" /\ truthy (pastedImage st) = false)
  /\ (forall key shiftKey isComposing,
         key <> "Enter" \/ shiftKey = true \/ isComposing = true ->
         handleKeyDown key shiftKey isComposing st = (None, st))
  /\ handleKeyDown "Enter" false false st = handleSubmit st.
Proof.
  assert (Hkey : forall key shiftKey isComposing,
            key <> "Enter" \/ shiftKey = true \/ isComposing = true ->
            handleKeyDown key shiftKey isComposing st = (None, st)).
  { intros key shiftKey isComposing Hk. unfold handleKeyDown.
    destruct (String.eqb_spec key "Enter") as [->|Hne];
      destruct shiftKey, isComposing; try reflexivity.
    destruct Hk as [Hk|[Hk|Hk]]; done. }
  assert (Henter : handleKeyDown "Enter" false false st = handleSubmit st)
    by reflexivity.
  assert (Hsent : forall payload st',
            payload = mkPayload (text st)
                        (if truthy (pastedImage st) then pastedImage st else None) ->
            st' = mkState "" None ->
            payloadText payload = text st
            /\ (truthy (pastedImage st) = true -> image payload = pastedImage st)
            /\ (truthy (pastedImage st) = false -> image payload = None)
            /\ st' = mkState "" None
            /\ handleSubmit st' = (None, st')
            /\ isSendButtonDisabled false st' = true).
  { intros payload st' -> ->. cbn. repeat split; try done.
    - by intros ->.
    - by intros ->. }
  revert Henter. unfold handleSubmit, isSendButtonDisabled. cbn [truthy orb].
  destruct (String.eqb_spec (trim (text st)) "") as [Hblank|Hblank];
    destruct (truthy (pastedImage st)) eqn:Himg; cbn [negb orb andb]; intros Henter.
  - split; [split; [done|by eexists]|]. split; [by intros; eexists|].
    split; [intros payload [= <-]; apply Hsent; by rewrite ?Himg|].
    split; [discriminate|]. split; [exact Hkey|exact Henter].
  - split; [split; [by intros [? ?]|discriminate]|].
    split; [intros d H; rewrite orb_true_r in H; discriminate H|].
    split; [discriminate|]. split; [done|]. split; [exact Hkey|exact Henter].
  - split; [split; [done|by eexists]|]. split; [by intros; eexists|].
    split; [intros payload [= <-]; apply Hsent; by rewrite ?Himg|].
    split; [discriminate|]. split; [exact Hkey|exact Henter].
  - split; [split; [done|by eexists]|]. split; [by intros; eexists|].
    split; [intros payload [= <-]; apply Hsent; by rewrite ?Himg|].
    split; [discriminate|]. split; [exact Hkey|exact Henter].
Qed.

End ChatInputFacts.

(** ** Runs with the scripted models *)

Section ScriptedModelRuns.
Import Schemas.

Lemma boolean_like_acceptance_witness :
  parseField Done (JsStr "TRUE") = Ok true
  /\ parseField IsValid (JsNumber 1) = InvalidInput.
Proof.
  split.
  - apply (proj1 (boolean_like_acceptance Done Done (JsStr "TRUE"))).
    right. exists "TRUE". split; reflexivity.
  - apply (proj1 (proj2 (boolean_like_acceptance IsValid Done (JsNumber 1)))).
    split; discriminate.
Defined.

Lemma reviewers_throw_fatal_only_witness :
  let X := ScriptedModels.collaborators
             (Throw (Error "AuthenticationError" "bad key"))
             (Throw (Error "AbortError" "stopped")) in
  let ctx := Scripted.contextOf [] (Scripted.quiet []) in
  let denied :=
    ChatModelAuthError "Planner API Authentication failed. Please verify your API key"
      (Error "AuthenticationError" "bad key") in
  fst (plannerExecute X ctx) = Throw denied
  /\ fst (validatorExecute X None ctx) = Throw (RequestCancelledError "stopped")
  /\ fatal denied = true
  /\ fatal (RequestCancelledError "stopped") = true.
Proof.
  intros X ctx denied.
  assert (Hp : plannerExecute X ctx = (Throw denied, snd (plannerExecute X ctx)))
    by (vm_compute; reflexivity).
  assert (Hv : validatorExecute X None ctx
               = (Throw (RequestCancelledError "stopped"),
                  snd (validatorExecute X None ctx)))
    by (vm_compute; reflexivity).
  split; [by rewrite Hp|]. split; [by rewrite Hv|]. split.
  - destruct (proj1 (reviewers_throw_fatal_only X ctx denied _) Hp)
      as [[Hf _]|(w & Hw)]; [exact Hf|discriminate Hw].
  - destruct (proj2 (reviewers_throw_fatal_only X ctx (RequestCancelledError "stopped") _)
                None Hv)
      as [[Hf _]|(w & Hw)]; [exact Hf|discriminate Hw].
Defined.

Lemma navigator_throws_fatal_only_witness :
  let ctx := Scripted.contextOf []
               (Scripted.mkWorld false false ["a"; "b"] None) in
  fst (execute ScriptedModels.silent Scripted.registry ctx)
  = Throw (RequestCancelledError "request aborted")
  /\ fatal (RequestCancelledError "request aborted") = true.
Proof.
  intros ctx.
  assert (H : execute ScriptedModels.silent Scripted.registry ctx
              = (Throw (RequestCancelledError "request aborted"),
                 snd (execute ScriptedModels.silent Scripted.registry ctx)))
    by (vm_compute; reflexivity).
  split; [by rewrite H|].
  destruct (navigator_throws_fatal_only ScriptedModels.silent Scripted.registry ctx _ _ H)
    as [[Hf _]|[(m & Hm)|(w & Hw)]]; [exact Hf|discriminate Hm|discriminate Hw].
Defined.


Lemma action_shapes_agree_witness :
  doMultiAction ScriptedModels.silent Scripted.registry
    (mkModelOutput tt (ActionString "actions,"))
  = doMultiAction ScriptedModels.silent Scripted.registry
      (mkModelOutput tt (ActionArray ScriptedModels.batch)).
Proof.
  apply (proj1 (action_shapes_agree ScriptedModels.silent Scripted.registry tt
                  ScriptedModels.batch "actions," [])).
  - repeat constructor; by eexists.
  - right. split; [reflexivity|]. exists "actions". split; reflexivity.
Defined.

Lemma malformed_action_field_witness :
  let ctx := Scripted.atActions [] in
  doMultiAction ScriptedModels.silent Scripted.registry
    (mkModelOutput tt (ActionString "click the link")) ctx
  = (Throw (Error "Error" "Invalid action output format"), ctx)
  /\ fst (actionLoop ScriptedModels.silent Scripted.registry ∅ 2 0
            ([Scripted.act "run" (Scripted.Extract "x")] ++ [None])
            (mkLoop [] 0 ctx))
     = Throw (Error "TypeError" "Cannot convert undefined or null to object").
Proof.
  intros ctx.
  destruct (malformed_action_field ScriptedModels.silent Scripted.registry tt
              "click the link" ctx ∅ 2 0 [Scripted.act "run" (Scripted.Extract "x")] []
              (mkLoop [] 0 ctx)
              (snd (actionLoop ScriptedModels.silent Scripted.registry ∅ 2 0
                      [Scripted.act "run" (Scripted.Extract "x")] (mkLoop [] 0 ctx))))
    as (Hbad & Hnull & _).
  split.
  - apply Hbad; [reflexivity|]. left. reflexivity.
  - assert (Hpre : actionLoop ScriptedModels.silent Scripted.registry ∅ 2 0
                     [Scripted.act "run" (Scripted.Extract "x")] (mkLoop [] 0 ctx)
                   = (Normal Continue,
                      snd (actionLoop ScriptedModels.silent Scripted.registry ∅ 2 0
                             [Scripted.act "run" (Scripted.Extract "x")]
                             (mkLoop [] 0 ctx))))
      by (vm_compute; reflexivity).
    exact (f_equal fst (Hnull Hpre)).
Defined.

Lemma calls_follow_the_list_witness :
  let batch := [Scripted.act "run" (Scripted.Extract "x");
                Scripted.act "click" (Scripted.Finish "y")] in
  let ctx := Scripted.atActions batch in
  let out := doMultiAction Scripted.collaborators Scripted.registry
               (mkModelOutput tt (ActionArray batch)) ctx in
  exists calls,
    callLog (snd out) = callLog ctx ++ calls
    /\ StronglySorted (fun a b => callIndex a < callIndex b) calls
    /\ Forall (fun c =>
                 exists keys act,
                   batch !! callIndex c = Some (Some keys)
                   /\ callName c = actionNameOf keys
                   /\ getAction (callName c) Scripted.registry = Registered act) calls
    /\ length calls <= 2.
Proof.
  intros batch ctx out.
  exact (proj1 (calls_follow_the_list Scripted.collaborators Scripted.registry
                  (mkModelOutput tt (ActionArray batch)) ctx batch (fst out) (snd out)
                  eq_refl (run_eq out))).
Defined.

Lemma pause_stops_batch_witness :
  let batch := [Scripted.act "run" Scripted.Pause;
                Scripted.act "run" (Scripted.Extract "z")] in
  let later := [Scripted.act "run" (Scripted.Extract "a");
                Scripted.act "click" Scripted.Pause;
                Scripted.act "run" (Scripted.Extract "z")] in
  let kept := ActionResult.mk None None false false in
  doMultiAction Scripted.collaborators Scripted.registry
    (mkModelOutput tt (ActionArray batch))
    (Scripted.contextOf [] (Scripted.halted batch))
  = (Normal [], Scripted.contextOf [] (Scripted.halted batch))
  /\ fst (doMultiAction Scripted.collaborators Scripted.registry
            (mkModelOutput tt (ActionArray batch)) (Scripted.atActions batch))
     = Normal [kept]
  /\ fst (doMultiAction Scripted.collaborators Scripted.registry
            (mkModelOutput tt (ActionArray later)) (Scripted.atActions later))
     = Normal [ActionResult.mk (Some "a") None false true; kept].
Proof.
  intros batch later kept. split; [|split].
  - apply (proj1 (pause_stops_batch Scripted.collaborators Scripted.registry
                    (mkModelOutput tt (ActionArray batch))
                    (Scripted.contextOf [] (Scripted.halted batch))
                    [] [("run", Scripted.Pause)]
                    [Scripted.act "run" (Scripted.Extract "z")] ["a"; "b"]
                    (Scripted.halted batch) (Scripted.halted batch)
                    (mkLoop [] 0 (Scripted.contextOf [] (Scripted.halted batch)))
                    eq_refl eq_refl eq_refl eq_refl)).
    reflexivity.
  - rewrite (proj2 (pause_stops_batch Scripted.collaborators Scripted.registry
                      (mkModelOutput tt (ActionArray batch)) (Scripted.atActions batch)
                      [] [("run", Scripted.Pause)]
                      [Scripted.act "run" (Scripted.Extract "z")] ["a"; "b"]
                      (Scripted.quiet batch) (Scripted.quiet batch)
                      (mkLoop [] 0 (Scripted.atActions batch))
                      eq_refl eq_refl eq_refl eq_refl)
               Scripted.run kept (Scripted.quiet batch)
               (Scripted.mkWorld true false ["a"; "b"] (Some batch))
               eq_refl eq_refl (or_introl (conj (or_introl eq_refl) eq_refl))
               eq_refl eq_refl).
    reflexivity.
  - assert (Hsub : calcBranchPathHashSet Scripted.collaborators ["a"; "b"]
                   ⊆ calcBranchPathHashSet Scripted.collaborators ["a"; "b"]) by done.
    rewrite (proj2 (pause_stops_batch Scripted.collaborators Scripted.registry
                      (mkModelOutput tt (ActionArray later)) (Scripted.atActions later)
                      [Scripted.act "run" (Scripted.Extract "a")]
                      [("click", Scripted.Pause)]
                      [Scripted.act "run" (Scripted.Extract "z")] ["a"; "b"]
                      (Scripted.quiet later) (Scripted.quiet later)
                      (snd (actionLoop Scripted.collaborators Scripted.registry
                              (list_to_set ["a"; "b"]) 3 0
                              [Scripted.act "run" (Scripted.Extract "a")]
                              (mkLoop [] 0 (Scripted.atActions later))))
                      eq_refl eq_refl eq_refl eq_refl)
               Scripted.click kept (Scripted.quiet later)
               (Scripted.mkWorld true false ["a"; "b"] (Some later))
               eq_refl eq_refl
               (or_intror (conj (Nat.lt_0_succ 0)
                             (conj (ex_intro _ 0%Z eq_refl)
                                (ex_intro _ ["a"; "b"] (conj eq_refl Hsub)))))
               eq_refl eq_refl).
    reflexivity.
Defined.

Lemma planner_input_witness :
  let opts := mkOptions true false in
  last (plannerMessages ScriptedModels.silent opts
          (MessageManager.getMessages ScriptedModels.memoryWithImage))
  = Some (HumanMessage (Text "page state"))
  /\ plannerMessages ScriptedModels.silent opts [] = [HumanMessage (Text "planner")].
Proof.
  intros opts.
  destruct (planner_input ScriptedModels.silent opts
              (MessageManager.getMessages ScriptedModels.memoryWithImage))
    as (_ & _ & _ & _ & Hstrip & _).
  destruct (planner_input ScriptedModels.silent opts [])
    as (_ & _ & _ & _ & Hempty & _).
  split.
  - rewrite (proj1 (Hstrip eq_refl)). reflexivity.
  - rewrite (proj2 (Hempty eq_refl)); [reflexivity|]. simpl. lia.
Defined.

Lemma gemini_tool_calls_witness :
  let parseArguments := fun text : string =>
    if String.eqb text "extract" then Some (Scripted.Extract "x") else None in
  let broken := mkToolCall (Some (mkFunctionCall (Some "click") (Some "{broken"))) in
  let calls := [mkToolCall (Some (mkFunctionCall (Some "run") (Some "extract")));
                mkToolCall None; broken] in
  function broken ≫= arguments = Some "{broken"
  /\ parseArguments "{broken" = None
  /\ functionArgsOf ScriptedModels.silent parseArguments Scripted.Nothing broken
     = Scripted.Nothing
  /\ parsedActions ScriptedModels.silent parseArguments Scripted.Nothing calls
     = [Some [("run", Scripted.Extract "x")]; Some [("click", Scripted.Nothing)]].
Proof.
  intros parseArguments broken calls.
  split; [reflexivity|]. split; [reflexivity|]. split; [|reflexivity].
  destruct (gemini_tool_calls ScriptedModels.silent parseArguments Scripted.Nothing
              (fun _ _ => tt) Scripted.registry calls "")
    as (_ & _ & _ & Hargs & _).
  apply (Hargs broken "{broken"); [reflexivity|reflexivity|].
  left. reflexivity.
Defined.

Lemma chat_input_submit_witness :
  let st := ChatInput.mkState "  hello " None in
  ChatInput.isSendButtonDisabled false st = false
  /\ is_Some (fst (ChatInput.handleSubmit st)).
Proof.
  intros st. split; [reflexivity|].
  destruct (chat_input_submit st) as (Hiff & _).
  apply Hiff. reflexivity.
Defined.

Lemma rejection_reaches_memory_witness :
  let X := ScriptedModels.collaborators (Normal None)
             (Normal (Some ScriptedModels.rejected)) in
  let ctx := Scripted.contextOf [Scripted.found] (Scripted.quiet []) in
  let ctx1 := snd (validatorExecute X None ctx) in
  validatorExecute X None ctx
  = (Normal (AgentOutput.mk "validator" (Some ScriptedModels.rejected) None), ctx1)
  /\ actionResults ctx1
     = [ActionResult.mk (Some "The answer is not yet correct. no headline was read.")
          None false true]
  /\ actionResults (snd (addStateMessageToMemory X ctx1)) = [ActionResult.empty].
Proof.
  intros X ctx ctx1.
  assert (H : validatorExecute X None ctx
              = (Normal (AgentOutput.mk "validator" (Some ScriptedModels.rejected) None),
                 ctx1))
    by (vm_compute; reflexivity).
  destruct (rejection_reaches_memory X None ctx _ ctx1 ScriptedModels.rejected
              H eq_refl eq_refl eq_refl) as [Hbuf Hadd].
  split; [exact H|]. split; [exact Hbuf|]. rewrite Hadd. reflexivity.
Defined.

End ScriptedModelRuns.
